(** * Merge Runner: the game view's state update, the boss phases and the
      leaderboard

    A shallow embedding of [merge-runner-ui.py].

    Numbers.  Python [int] is [Z].  Python [float] is modelled by the exact
    rationals [Q]: every claim below is about the arithmetic the program
    writes down, not about binary64 rounding.  [int(x)] truncates toward
    zero ([py_int]), [max(a, b)] keeps its first argument unless the second is
    strictly larger ([py_max]).

    Effects.  A Python exception is a [Raise] in the [result] monad; only the
    two exceptions the modelled code can reach are named: dereferencing an
    attribute that still holds [None] and division by zero.  Random draws are
    inputs of the operation that consumes them.  The arcade library (hit
    boxes, particle emitters, sprite lists) is the interface [Arcade].
    Sounds, the camera and the drawing code keep no state the update reads
    and are left out. *)

From Stdlib Require Import ZArith QArith Qabs Qround Lqa Lia List Bool String.
From Stdlib Require Import Sorted Permutation.
Import ListNotations.

Local Open Scope Q_scope.

(** ** Python numbers *)

Definition Qltb (a b : Q) : bool := negb (Qle_bool b a).

(** [int(x)] on a float: truncation toward zero. *)
Definition py_int (x : Q) : Z := Z.quot (Qnum x) (Zpos (Qden x)).

(** [max(a, b)]: [b] when [b > a], else [a]. *)
Definition py_max (a b : Q) : Q := if Qltb a b then b else a.

(** ** Exceptions *)

Inductive attr := attr_player | attr_boss.

Inductive exn :=
| AttributeError (on : attr)
| ZeroDivisionError.

Inductive result (A : Type) :=
| Ok (a : A)
| Raise (e : exn).

Arguments Ok {A} a.
Arguments Raise {A} e.

Definition bind {A B} (m : result A) (k : A -> result B) : result B :=
  match m with
  | Ok a => k a
  | Raise e => Raise e
  end.

Notation "x <- m ;; k" := (bind m (fun x => k))
  (at level 61, m at next level, right associativity).
Notation "' pat <- m ;; k" := (bind m (fun x => match x with pat => k end))
  (at level 61, pat pattern, m at next level, right associativity).

(** [a / b], raising [ZeroDivisionError] on a zero divisor. *)
Definition py_div (a b : Q) : result Q :=
  if Qeq_bool b 0 then Raise ZeroDivisionError else Ok (a / b).

(** ** Config *)

Definition DISTANCE_FOR_BOSS : Q := 2000.
Definition BASE_SPEED : Q := 180.

(** ** The leaderboard file *)

Module Leaderboard.

Record entry := mk { name : string; score : Z }.

(** [sorted(data, key=lambda x: x["score"], reverse=True)].  Python's sort
    is stable, also under [reverse=True]: entries with equal keys keep
    their order.  A stable sort has one possible output; it is computed
    here by insertion from the right, each entry going in front of the
    first entry whose score is not larger. *)
Fixpoint insert (e : entry) (l : list entry) : list entry :=
  match l with
  | [] => [e]
  | y :: ys => if (score y <=? score e)%Z then e :: y :: ys
               else y :: insert e ys
  end.

Fixpoint sorted_desc (l : list entry) : list entry :=
  match l with
  | [] => []
  | e :: es => insert e (sorted_desc es)
  end.

(** [save_score(name, score)] as a function of the file's contents before
    the call ([None]: the file is missing or does not parse, the [except]
    branch); the result is what is written back. *)
Definition save_score (nm : string) (sc : Z) (file : option (list entry))
  : list entry :=
  let data := match file with Some d => d | None => [] end in
  let data := data ++ [mk nm sc] in
  firstn 10 (sorted_desc data).

Definition load_leaderboard (file : option (list entry)) : list entry :=
  match file with Some d => d | None => [] end.

(** Descending by score. *)
Definition desc (a b : entry) : Prop := (score b <= score a)%Z.

(** The entries of a list that carry the score [v], in their order. *)
Definition with_score (v : Z) (l : list entry) : list entry :=
  filter (fun e => (score e =? v)%Z) l.

End Leaderboard.

(** ** Sprites *)

Module Sprite.
(** [arcade.Sprite]: the position and the texture (file, frame) are all the
    update reads. *)
Record t := mk { center_x : Q; center_y : Q; texture : string * Z }.
End Sprite.

Module AnimatedSprite.
(** Every animated sprite of the game is built with [frames=6] and the
    default [frame_time=0.08]. *)
Definition frames : Z := 6.
Definition frame_time : Q := 0.08.

Record t := mk {
  center_x : Q;
  center_y : Q;
  sheet : string;
  current_frame : Z;
  timer : Q
}.

Definition new (sprite_sheet : string) : t := mk 0 0 sprite_sheet 0 0.

Definition as_sprite (a : t) : Sprite.t :=
  Sprite.mk (center_x a) (center_y a) (sheet a, current_frame a).

Definition update_animation (dt : Q) (a : t) : t :=
  let tm := timer a + dt in
  if Qle_bool frame_time tm
  then mk (center_x a) (center_y a) (sheet a)
          ((current_frame a + 1) mod frames) 0
  else mk (center_x a) (center_y a) (sheet a) (current_frame a) tm.

Definition set_center_x (x : Q) (a : t) : t :=
  mk x (center_y a) (sheet a) (current_frame a) (timer a).
Definition set_center_y (y : Q) (a : t) : t :=
  mk (center_x a) y (sheet a) (current_frame a) (timer a).
End AnimatedSprite.

Module Projectile.
Record t := mk { center_x : Q; center_y : Q; vx : Q; vy : Q }.

Definition as_sprite (p : t) : Sprite.t :=
  Sprite.mk (center_x p) (center_y p) ("assets/projectile.png"%string, 0%Z).

(** [update]: the move; [off_bounds] is the test after which the projectile
    removes itself from its sprite lists. *)
Definition update (p : t) : t :=
  mk (center_x p + vx p) (center_y p + vy p) (vx p) (vy p).

Definition off_bounds (p : t) : bool :=
  Qltb (center_x p) (-1000) || Qltb 10000 (center_x p)
  || Qltb (center_y p) (-1000) || Qltb 3000 (center_y p).
End Projectile.

Module Boss.
Record t := mk {
  anim : AnimatedSprite.t;
  max_health : Z;
  health : Z;
  shoot_timer : Q;
  phase : Z
}.

Definition center_x (b : t) : Q := AnimatedSprite.center_x (anim b).
Definition center_y (b : t) : Q := AnimatedSprite.center_y (anim b).
Definition as_sprite (b : t) : Sprite.t := AnimatedSprite.as_sprite (anim b).

Definition set_anim (a : AnimatedSprite.t) (b : t) : t :=
  mk a (max_health b) (health b) (shoot_timer b) (phase b).
Definition set_center_x (x : Q) (b : t) : t :=
  set_anim (AnimatedSprite.set_center_x x (anim b)) b.
Definition set_center_y (y : Q) (b : t) : t :=
  set_anim (AnimatedSprite.set_center_y y (anim b)) b.
Definition set_max_health (v : Z) (b : t) : t :=
  mk (anim b) v (health b) (shoot_timer b) (phase b).
Definition set_health (v : Z) (b : t) : t :=
  mk (anim b) (max_health b) v (shoot_timer b) (phase b).
Definition set_shoot_timer (v : Q) (b : t) : t :=
  mk (anim b) (max_health b) (health b) v (phase b).
Definition set_phase (v : Z) (b : t) : t :=
  mk (anim b) (max_health b) (health b) (shoot_timer b) v.

(** [Boss.__init__] *)
Definition new (sprite_sheet : string) : t :=
  set_center_y 220 (set_center_x 0
    (mk (AnimatedSprite.new sprite_sheet) 100 100 0 1)).

(** The health ratio of [update_behavior], line 129. *)
Definition ratio (b : t) : result Q :=
  py_div (inject_Z (health b)) (inject_Z (Z.max 1 (max_health b))).

(** The aimed shot: [vx], [vy] of lines 152-156; [jitter] is the draw
    [random.uniform(0.8, 2.0)]. *)
Definition aim (player_x speed jitter : Q) (b : t) : result (Q * Q) :=
  let dx := player_x - center_x b in
  let dy := 200 - center_y b in
  let dist := py_max (Qabs dx) 1 in
  qx <- py_div dx dist ;;
  let vx := qx * speed * (1 + inject_Z (3 - phase b) * 0.2) in
  qy <- py_div dy dist ;;
  let vy := qy * jitter in
  Ok (vx, vy).

(** [update_behavior(dt, player_x, projectiles_list)]: the boss after the
    call and the projectile list after the call. *)
Definition update_behavior (dt player_x : Q)
    (projectiles_list : list Projectile.t) (jitter : Q) (b : t)
  : result (t * list Projectile.t) :=
  let b := set_shoot_timer (shoot_timer b + dt) b in
  r <- ratio b ;;
  let '(b, interval, speed) :=
    if Qltb 0.66 r then (set_phase 1 b, 1.2, 5.0)
    else if Qltb 0.33 r
    then (set_center_x (center_x b - 0.8) (set_phase 2 b), 0.9, 6.0)
    else (set_center_x (center_x b - 1.4) (set_phase 3 b), 0.5, 7.0) in
  if Qle_bool interval (shoot_timer b) then
    let b := set_shoot_timer 0 b in
    '(vx, vy) <- aim player_x speed jitter b ;;
    let p := Projectile.mk (center_x b - 30) (center_y b) vx vy in
    let projectiles_list := projectiles_list ++ [p] in
    if (phase b =? 3)%Z then
      let p2 := Projectile.mk (center_x b - 30) (center_y b + 50)
                              vx (vy + 1.0) in
      Ok (b, projectiles_list ++ [p2])
    else Ok (b, projectiles_list)
  else Ok (b, projectiles_list).

(** The phase the specification gives a health ratio [r]: 1 above 0.66,
    2 above 0.33 and up to 0.66, 3 up to 0.33. *)
Definition phase_for (r : Q) (ph : Z) : Prop :=
  (0.66 < r -> ph = 1%Z) /\
  (0.33 < r /\ r <= 0.66 -> ph = 2%Z) /\
  (r <= 0.33 -> ph = 3%Z).
End Boss.

(** ** The arcade library *)

(** What the update uses of arcade: [check_for_collision] on two sprites
    (the hit boxes are the library's), particle emitters ([Emitter_new] is
    [None] when the constructor raises, which [create_explosion] swallows),
    and the sprite list [arcade.SpriteList(old)] that [setup] builds. *)
Class Arcade := {
  Emitter : Type;
  Emitter_new : Q -> Q -> option Emitter;
  Emitter_update : Emitter -> Emitter;
  check_for_collision : Sprite.t -> Sprite.t -> bool;
  SpriteList_new : list Sprite.t -> list Sprite.t
}.

(** ** The game view *)

(** A damage popup: [(x, y, val, timeleft)]. *)
Definition Popup : Type := Q * Q * Z * Q.

(** The fields of [GameView] that the update reads or writes, and with them
    [leaderboard_file]: the contents of [data/leaderboard.json], which
    [lose_game] rewrites through [save_score] ([None]: no readable file). *)
Record GameView {A : Arcade} := mkGameView {
  sprite_path : string;
  player : option AnimatedSprite.t;
  obstacles : list Sprite.t;
  coins : list Sprite.t;
  projectiles : list Projectile.t;
  explosions : list Emitter;
  boss : option Boss.t;
  boss_active : bool;
  distance : Q;
  next_boss_at : Q;
  speed : Q;
  score : Q;
  player_health : Z;
  player_max_health : Z;
  damage_popups : list Popup;
  skill_cd : Q;
  obstacle_timer : Q;
  coin_timer : Q;
  game_over : bool;
  result_text : string;
  paused : bool;
  leaderboard_file : option (list Leaderboard.entry)
}.

Arguments mkGameView {A}.

Section Game.
Context {A : Arcade}.

(** Attribute writes, one per field the code assigns. *)
Definition set_player (v : option AnimatedSprite.t) (s : GameView) : GameView :=
  mkGameView
    (sprite_path s) v (obstacles s) (coins s) (projectiles s)
    (explosions s) (boss s) (boss_active s) (distance s) (next_boss_at s)
    (speed s) (score s) (player_health s) (player_max_health s)
    (damage_popups s) (skill_cd s) (obstacle_timer s) (coin_timer s)
    (game_over s) (result_text s) (paused s) (leaderboard_file s).
Definition set_obstacles (v : list Sprite.t) (s : GameView) : GameView :=
  mkGameView
    (sprite_path s) (player s) v (coins s) (projectiles s) (explosions s)
    (boss s) (boss_active s) (distance s) (next_boss_at s) (speed s)
    (score s) (player_health s) (player_max_health s) (damage_popups s)
    (skill_cd s) (obstacle_timer s) (coin_timer s) (game_over s)
    (result_text s) (paused s) (leaderboard_file s).
Definition set_coins (v : list Sprite.t) (s : GameView) : GameView :=
  mkGameView
    (sprite_path s) (player s) (obstacles s) v (projectiles s)
    (explosions s) (boss s) (boss_active s) (distance s) (next_boss_at s)
    (speed s) (score s) (player_health s) (player_max_health s)
    (damage_popups s) (skill_cd s) (obstacle_timer s) (coin_timer s)
    (game_over s) (result_text s) (paused s) (leaderboard_file s).
Definition set_projectiles (v : list Projectile.t) (s : GameView) : GameView :=
  mkGameView
    (sprite_path s) (player s) (obstacles s) (coins s) v (explosions s)
    (boss s) (boss_active s) (distance s) (next_boss_at s) (speed s)
    (score s) (player_health s) (player_max_health s) (damage_popups s)
    (skill_cd s) (obstacle_timer s) (coin_timer s) (game_over s)
    (result_text s) (paused s) (leaderboard_file s).
Definition set_explosions (v : list Emitter) (s : GameView) : GameView :=
  mkGameView
    (sprite_path s) (player s) (obstacles s) (coins s) (projectiles s) v
    (boss s) (boss_active s) (distance s) (next_boss_at s) (speed s)
    (score s) (player_health s) (player_max_health s) (damage_popups s)
    (skill_cd s) (obstacle_timer s) (coin_timer s) (game_over s)
    (result_text s) (paused s) (leaderboard_file s).
Definition set_boss (v : option Boss.t) (s : GameView) : GameView :=
  mkGameView
    (sprite_path s) (player s) (obstacles s) (coins s) (projectiles s)
    (explosions s) v (boss_active s) (distance s) (next_boss_at s)
    (speed s) (score s) (player_health s) (player_max_health s)
    (damage_popups s) (skill_cd s) (obstacle_timer s) (coin_timer s)
    (game_over s) (result_text s) (paused s) (leaderboard_file s).
Definition set_boss_active (v : bool) (s : GameView) : GameView :=
  mkGameView
    (sprite_path s) (player s) (obstacles s) (coins s) (projectiles s)
    (explosions s) (boss s) v (distance s) (next_boss_at s) (speed s)
    (score s) (player_health s) (player_max_health s) (damage_popups s)
    (skill_cd s) (obstacle_timer s) (coin_timer s) (game_over s)
    (result_text s) (paused s) (leaderboard_file s).
Definition set_distance (v : Q) (s : GameView) : GameView :=
  mkGameView
    (sprite_path s) (player s) (obstacles s) (coins s) (projectiles s)
    (explosions s) (boss s) (boss_active s) v (next_boss_at s) (speed s)
    (score s) (player_health s) (player_max_health s) (damage_popups s)
    (skill_cd s) (obstacle_timer s) (coin_timer s) (game_over s)
    (result_text s) (paused s) (leaderboard_file s).
Definition set_next_boss_at (v : Q) (s : GameView) : GameView :=
  mkGameView
    (sprite_path s) (player s) (obstacles s) (coins s) (projectiles s)
    (explosions s) (boss s) (boss_active s) (distance s) v (speed s)
    (score s) (player_health s) (player_max_health s) (damage_popups s)
    (skill_cd s) (obstacle_timer s) (coin_timer s) (game_over s)
    (result_text s) (paused s) (leaderboard_file s).
Definition set_score (v : Q) (s : GameView) : GameView :=
  mkGameView
    (sprite_path s) (player s) (obstacles s) (coins s) (projectiles s)
    (explosions s) (boss s) (boss_active s) (distance s) (next_boss_at s)
    (speed s) v (player_health s) (player_max_health s) (damage_popups s)
    (skill_cd s) (obstacle_timer s) (coin_timer s) (game_over s)
    (result_text s) (paused s) (leaderboard_file s).
Definition set_player_health (v : Z) (s : GameView) : GameView :=
  mkGameView
    (sprite_path s) (player s) (obstacles s) (coins s) (projectiles s)
    (explosions s) (boss s) (boss_active s) (distance s) (next_boss_at s)
    (speed s) (score s) v (player_max_health s) (damage_popups s)
    (skill_cd s) (obstacle_timer s) (coin_timer s) (game_over s)
    (result_text s) (paused s) (leaderboard_file s).
Definition set_damage_popups (v : list Popup) (s : GameView) : GameView :=
  mkGameView
    (sprite_path s) (player s) (obstacles s) (coins s) (projectiles s)
    (explosions s) (boss s) (boss_active s) (distance s) (next_boss_at s)
    (speed s) (score s) (player_health s) (player_max_health s) v
    (skill_cd s) (obstacle_timer s) (coin_timer s) (game_over s)
    (result_text s) (paused s) (leaderboard_file s).
Definition set_skill_cd (v : Q) (s : GameView) : GameView :=
  mkGameView
    (sprite_path s) (player s) (obstacles s) (coins s) (projectiles s)
    (explosions s) (boss s) (boss_active s) (distance s) (next_boss_at s)
    (speed s) (score s) (player_health s) (player_max_health s)
    (damage_popups s) v (obstacle_timer s) (coin_timer s) (game_over s)
    (result_text s) (paused s) (leaderboard_file s).
Definition set_obstacle_timer (v : Q) (s : GameView) : GameView :=
  mkGameView
    (sprite_path s) (player s) (obstacles s) (coins s) (projectiles s)
    (explosions s) (boss s) (boss_active s) (distance s) (next_boss_at s)
    (speed s) (score s) (player_health s) (player_max_health s)
    (damage_popups s) (skill_cd s) v (coin_timer s) (game_over s)
    (result_text s) (paused s) (leaderboard_file s).
Definition set_coin_timer (v : Q) (s : GameView) : GameView :=
  mkGameView
    (sprite_path s) (player s) (obstacles s) (coins s) (projectiles s)
    (explosions s) (boss s) (boss_active s) (distance s) (next_boss_at s)
    (speed s) (score s) (player_health s) (player_max_health s)
    (damage_popups s) (skill_cd s) (obstacle_timer s) v (game_over s)
    (result_text s) (paused s) (leaderboard_file s).
Definition set_game_over (v : bool) (s : GameView) : GameView :=
  mkGameView
    (sprite_path s) (player s) (obstacles s) (coins s) (projectiles s)
    (explosions s) (boss s) (boss_active s) (distance s) (next_boss_at s)
    (speed s) (score s) (player_health s) (player_max_health s)
    (damage_popups s) (skill_cd s) (obstacle_timer s) (coin_timer s) v
    (result_text s) (paused s) (leaderboard_file s).
Definition set_result_text (v : string) (s : GameView) : GameView :=
  mkGameView
    (sprite_path s) (player s) (obstacles s) (coins s) (projectiles s)
    (explosions s) (boss s) (boss_active s) (distance s) (next_boss_at s)
    (speed s) (score s) (player_health s) (player_max_health s)
    (damage_popups s) (skill_cd s) (obstacle_timer s) (coin_timer s)
    (game_over s) v (paused s) (leaderboard_file s).
Definition set_leaderboard_file (v : option (list Leaderboard.entry))
    (s : GameView) : GameView :=
  mkGameView
    (sprite_path s) (player s) (obstacles s) (coins s) (projectiles s)
    (explosions s) (boss s) (boss_active s) (distance s) (next_boss_at s)
    (speed s) (score s) (player_health s) (player_max_health s)
    (damage_popups s) (skill_cd s) (obstacle_timer s) (coin_timer s)
    (game_over s) (result_text s) (paused s) v.

(** [GameView.__init__]; [file] is the leaderboard file as the view finds
    it. *)
Definition GameView_init (path : string)
    (file : option (list Leaderboard.entry)) : GameView :=
  mkGameView path None [] [] [] [] None false
    0 DISTANCE_FOR_BOSS BASE_SPEED 0 100 100 [] 0 0 0
    false "" false file.

(** [self.player.<attr>] and [self.boss.<attr>]: an [AttributeError] while
    the field holds [None]. *)
Definition the_player (s : GameView) : result AnimatedSprite.t :=
  match player s with
  | Some p => Ok p
  | None => Raise (AttributeError attr_player)
  end.

Definition the_boss (s : GameView) : result Boss.t :=
  match boss s with
  | Some b => Ok b
  | None => Raise (AttributeError attr_boss)
  end.

(** The guard [self.boss_active and self.boss]. *)
Definition boss_live (s : GameView) : bool :=
  boss_active s && match boss s with Some _ => true | None => false end.

(** *** Spawning *)

Definition spawn_obstacle (r : Z) (s : GameView) : result GameView :=
  p <- the_player s ;;
  let x := py_int (AnimatedSprite.center_x p + inject_Z r) in
  let obs := Sprite.mk (inject_Z x) 200 ("assets/obstacle.png"%string, 0%Z) in
  Ok (set_obstacles (obstacles s ++ [obs]) s).

Definition spawn_coin (rx ry : Z) (s : GameView) : result GameView :=
  p <- the_player s ;;
  let x := py_int (AnimatedSprite.center_x p + inject_Z rx) in
  let c := Sprite.mk (inject_Z x) (inject_Z ry)
                     ("assets/coin.png"%string, 0%Z) in
  Ok (set_coins (coins s ++ [c]) s).

Definition spawn_boss (s : GameView) : result GameView :=
  let b := Boss.new "assets/boss_run.png" in
  let b := Boss.set_max_health
             (80 + py_int (distance s / 500) * 10)%Z b in
  let b := Boss.set_health (Boss.max_health b) b in
  p <- the_player s ;;
  let b := Boss.set_center_x (AnimatedSprite.center_x p + 900) b in
  let b := Boss.set_center_y 220 b in
  let s := set_boss_active true (set_boss (Some b) s) in
  let s := set_projectiles [] s in
  Ok (set_boss (Some (Boss.set_shoot_timer 0 b)) s).

Definition create_explosion (x y : Q) (s : GameView) : GameView :=
  match Emitter_new x y with
  | Some e => set_explosions (explosions s ++ [e]) s
  | None => s
  end.

Definition win_boss (s : GameView) : result GameView :=
  b <- the_boss s ;;
  let s := create_explosion (Boss.center_x b) (Boss.center_y b) s in
  let s := set_score (score s + 700) s in
  Ok (set_boss None (set_boss_active false s)).

Definition lose_game (s : GameView) : GameView :=
  let s := set_game_over true s in
  let s := set_result_text "💀 YOU DIED" s in
  set_leaderboard_file
    (Some (Leaderboard.save_score "Player" (py_int (score s))
                                  (leaderboard_file s))) s.

(** *** The steps of [on_update], in the order of the source *)

(** Lines 398-400. *)
Definition animate (dt : Q) (s : GameView) : result GameView :=
  p <- the_player s ;;
  let s := set_player (Some (AnimatedSprite.update_animation dt p)) s in
  if boss_live s then
    b <- the_boss s ;;
    Ok (set_boss
          (Some (Boss.set_anim
                   (AnimatedSprite.update_animation dt (Boss.anim b)) b)) s)
  else Ok s.

(** [for e in self.explosions: e.update()] *)
Definition update_explosions (s : GameView) : GameView :=
  set_explosions (map Emitter_update (explosions s)) s.

(** Lines 407-408. *)
Definition cooldowns (dt : Q) (s : GameView) : GameView :=
  if Qltb 0 (skill_cd s)
  then set_skill_cd (py_max 0 (skill_cd s - dt)) s
  else s.

(** Lines 412-415: movement and distance. *)
Definition distance_clock (dt : Q) (s : GameView) : result GameView :=
  let dx := speed s * dt in
  p <- the_player s ;;
  let s := set_player
             (Some (AnimatedSprite.set_center_x
                      (AnimatedSprite.center_x p + dx) p)) s in
  let s := set_distance (distance s + dx * 0.6) s in
  Ok (set_score (score s + dx * 0.05) s).

(** The draws one tick can consume: the offsets of a spawned obstacle and
    coin, the [random.uniform(0.8, 2.0)] of a boss shot, and the damage of
    the [k]-th projectile that hits in this tick. *)
Record Draws := mkDraws {
  obstacle_dx : Z;
  coin_dx : Z;
  coin_y : Z;
  shot_jitter : Q;
  hit_dmg : nat -> Z
}.

(** Lines 422-429. *)
Definition spawn_timers (dt : Q) (rnd : Draws) (s : GameView)
  : result GameView :=
  let s := set_obstacle_timer (obstacle_timer s + dt) s in
  let s := set_coin_timer (coin_timer s + dt) s in
  s <- (if Qltb (py_max 0.6 (2.4 - distance s / 8000)) (obstacle_timer s)
        then s <- spawn_obstacle (obstacle_dx rnd) s ;;
             Ok (set_obstacle_timer 0 s)
        else Ok s) ;;
  if Qltb (py_max 0.8 (2.3 - distance s / 9000)) (coin_timer s)
  then s <- spawn_coin (coin_dx rnd) (coin_y rnd) s ;;
       Ok (set_coin_timer 0 s)
  else Ok s.

(** Lines 432-437: [remove_from_sprite_lists] on every sprite more than 900
    behind the player. *)
Definition behind (p : AnimatedSprite.t) (o : Sprite.t) : bool :=
  Qltb (Sprite.center_x o) (AnimatedSprite.center_x p - 900).

Definition cleanup (s : GameView) : result GameView :=
  p <- the_player s ;;
  let s := set_obstacles (filter (fun o => negb (behind p o)) (obstacles s)) s in
  Ok (set_coins (filter (fun c => negb (behind p c)) (coins s)) s).

(** [arcade.check_for_collision_with_list(sprite, l)] *)
Definition check_for_collision_with_list (sp : Sprite.t) (l : list Sprite.t)
  : list Sprite.t :=
  filter (check_for_collision sp) l.

(** Removing every sprite of the hit list from the sprite list it came from:
    a sprite is in the hit list exactly when it collides. *)
Definition without_hits (sp : Sprite.t) (l : list Sprite.t) : list Sprite.t :=
  filter (fun o => negb (check_for_collision sp o)) l.

(** Lines 440-443. *)
Definition collect_coins (s : GameView) : result GameView :=
  p <- the_player s ;;
  let me := AnimatedSprite.as_sprite p in
  let hit_coins := check_for_collision_with_list me (coins s) in
  let s := set_coins (without_hits me (coins s)) s in
  Ok (fold_left (fun s _ => set_score (score s + 25) s) hit_coins s).

(** The body of the loop of lines 447-450, after the removal. *)
Definition obstacle_impact (s : GameView) : result GameView :=
  let s := set_score (py_max 0 (score s - 40)) s in
  p <- the_player s ;;
  Ok (set_player
        (Some (AnimatedSprite.set_center_x
                 (py_max 200 (AnimatedSprite.center_x p - 140)) p)) s).

Fixpoint obstacle_impacts (hit_obs : list Sprite.t) (s : GameView)
  : result GameView :=
  match hit_obs with
  | [] => Ok s
  | _ :: rest => s <- obstacle_impact s ;; obstacle_impacts rest s
  end.

(** Lines 446-450. *)
Definition hit_obstacles (s : GameView) : result GameView :=
  p <- the_player s ;;
  let me := AnimatedSprite.as_sprite p in
  let hit_obs := check_for_collision_with_list me (obstacles s) in
  let s := set_obstacles (without_hits me (obstacles s)) s in
  obstacle_impacts hit_obs s.

(** Lines 453-456. *)
Definition boss_spawn (s : GameView) : result GameView :=
  if negb (boss_active s) && Qle_bool (next_boss_at s) (distance s) then
    s <- spawn_boss s ;;
    Ok (set_next_boss_at
          (next_boss_at s + DISTANCE_FOR_BOSS * (1 + distance s / 8000)) s)
  else Ok s.

(** [self.projectiles.update()]: every projectile moves; one that has left
    the bounds removes itself. *)
Definition projectiles_update (l : list Projectile.t) : list Projectile.t :=
  filter (fun p => negb (Projectile.off_bounds p)) (map Projectile.update l).

(** The body of the loop of lines 464-473 for one projectile that hits,
    after its removal; [dmg] is the draw [random.randint(8, 18)]. *)
Definition projectile_impact (dmg : Z) (s : GameView) : result GameView :=
  let s := set_player_health (player_health s - dmg)%Z s in
  p <- the_player s ;;
  let s := set_damage_popups
             (damage_popups s ++
                [(AnimatedSprite.center_x p, AnimatedSprite.center_y p + 80,
                  dmg, 1.0)]) s in
  if (player_health s <=? 0)%Z
  then Ok (lose_game (set_player_health 0 s))
  else Ok s.

Fixpoint projectile_impacts (rnd : Draws) (k : nat)
    (hits : list Projectile.t) (s : GameView) : result GameView :=
  match hits with
  | [] => Ok s
  | _ :: rest =>
      s <- projectile_impact (hit_dmg rnd k) s ;;
      projectile_impacts rnd (S k) rest s
  end.

(** Lines 464-473.  The player does not move inside the loop, so the
    projectiles that hit are those of the snapshot that collide with the
    player as it stands before the loop. *)
Definition projectile_collisions (rnd : Draws) (s : GameView)
  : result GameView :=
  match projectiles s with
  | [] => Ok s
  | _ :: _ =>
      p <- the_player s ;;
      let me := AnimatedSprite.as_sprite p in
      let hits p' := check_for_collision (Projectile.as_sprite p') me in
      let hit := filter hits (projectiles s) in
      let s := set_projectiles
                 (filter (fun p' => negb (hits p')) (projectiles s)) s in
      projectile_impacts rnd 0 hit s
  end.

(** Lines 475-484: boss collision with the player. *)
Definition boss_contact (s : GameView) : result GameView :=
  p <- the_player s ;;
  b <- the_boss s ;;
  if check_for_collision (AnimatedSprite.as_sprite p) (Boss.as_sprite b) then
    let dmg := (18 + py_int (distance s / 1000))%Z in
    let s := set_player_health (player_health s - dmg)%Z s in
    b <- the_boss s ;;
    let s := set_boss (Some (Boss.set_health (Boss.health b - 40)%Z b)) s in
    p <- the_player s ;;
    let s := set_damage_popups
               (damage_popups s ++
                  [(AnimatedSprite.center_x p, AnimatedSprite.center_y p + 80,
                    dmg, 1.0)]) s in
    let s := if (player_health s <=? 0)%Z then lose_game s else s in
    b <- the_boss s ;;
    if (Boss.health b <=? 0)%Z then win_boss s else Ok s
  else Ok s.

(** Lines 490-491: [if self.boss and self.boss.health <= 0]. *)
Definition boss_depleted (s : GameView) : result GameView :=
  match boss s with
  | Some b => if (Boss.health b <=? 0)%Z then win_boss s else Ok s
  | None => Ok s
  end.

(** Lines 459-491. *)
Definition boss_behavior (dt : Q) (rnd : Draws) (s : GameView)
  : result GameView :=
  if boss_live s then
    b <- the_boss s ;;
    p <- the_player s ;;
    '(b, projs) <- Boss.update_behavior dt (AnimatedSprite.center_x p)
                     (projectiles s) (shot_jitter rnd) b ;;
    let s := set_projectiles projs (set_boss (Some b) s) in
    let s := set_projectiles (projectiles_update (projectiles s)) s in
    s <- projectile_collisions rnd s ;;
    s <- boss_contact s ;;
    boss_depleted s
  else Ok s.

(** Line 494. *)
Definition decay_popups (dt : Q) (l : list Popup) : list Popup :=
  map (fun '(x, y, v, t) => (x, y, v, t - dt))
      (filter (fun '(_, _, _, t) => Qltb 0 (t - dt)) l).

(** [GameView.on_update(dt)] *)
Definition on_update (dt : Q) (rnd : Draws) (s : GameView)
  : result GameView :=
  if game_over s then Ok (update_explosions s)
  else
    s <- animate dt s ;;
    let s := update_explosions s in
    let s := cooldowns dt s in
    s <- distance_clock dt s ;;
    s <- spawn_timers dt rnd s ;;
    s <- cleanup s ;;
    s <- collect_coins s ;;
    s <- hit_obstacles s ;;
    s <- boss_spawn s ;;
    s <- boss_behavior dt rnd s ;;
    Ok (set_damage_popups (decay_popups dt (damage_popups s)) s).

(** *** Input *)

Inductive Key := KEY_ESCAPE | KEY_R | KEY_SPACE | KEY_Z | KEY_X | KEY_OTHER.

(** The punch, lines 534-541; [dmg] is the draw [random.randint(8, 16)]. *)
Definition melee (dmg : Z) (s : GameView) : result GameView :=
  if boss_live s then
    b <- the_boss s ;;
    p <- the_player s ;;
    if Qltb (Qabs (Boss.center_x b - AnimatedSprite.center_x p)) 140 then
      let s := set_boss (Some (Boss.set_health (Boss.health b - dmg)%Z b)) s in
      b <- the_boss s ;;
      let s := set_damage_popups
                 (damage_popups s ++
                    [(Boss.center_x b, Boss.center_y b + 100, dmg, 0.9)]) s in
      b <- the_boss s ;;
      if (Boss.health b <=? 0)%Z then win_boss s else Ok s
    else Ok s
  else Ok s.

(** The test of line 559. *)
Definition in_skill_range (p : AnimatedSprite.t) (o : Sprite.t) : bool :=
  Qltb (Qabs (Sprite.center_x o - AnimatedSprite.center_x p)) 220.

(** The skill, lines 544-563. *)
Definition skill (s : GameView) : result GameView :=
  if Qle_bool (skill_cd s) 0 then
    let s := set_skill_cd 3.0 s in
    let dmg := (40 + py_int (distance s / 1000))%Z in
    if boss_live s then
      b <- the_boss s ;;
      let s := set_boss (Some (Boss.set_health (Boss.health b - dmg)%Z b)) s in
      b <- the_boss s ;;
      let s := set_damage_popups
                 (damage_popups s ++
                    [(Boss.center_x b, Boss.center_y b + 100, dmg, 1.2)]) s in
      b <- the_boss s ;;
      if (Boss.health b <=? 0)%Z then win_boss s else Ok s
    else
      match obstacles s with
      | [] => Ok s
      | _ :: _ =>
          p <- the_player s ;;
          Ok (set_obstacles
                (filter (fun o => negb (in_skill_range p o)) (obstacles s)) s)
      end
  else Ok s.

(** [GameView.on_key_press(key, modifiers)].  ESCAPE and, once the run is
    over, R hand the window to another view and write no field of this
    one. *)
Definition on_key_press (key : Key) (dmg : Z) (s : GameView)
  : result GameView :=
  if game_over s then Ok s
  else
    match key with
    | KEY_SPACE =>
        p <- the_player s ;;
        Ok (set_player
              (Some (AnimatedSprite.set_center_y
                       (AnimatedSprite.center_y p + 90) p)) s)
    | KEY_Z => melee dmg s
    | KEY_X => skill s
    | _ => Ok s
    end.

(** *** Setup *)

Fixpoint repeat_spawn (spawn : nat -> GameView -> result GameView)
    (ks : list nat) (s : GameView) : result GameView :=
  match ks with
  | [] => Ok s
  | k :: rest => s <- spawn k s ;; repeat_spawn spawn rest s
  end.

(** [GameView.setup()]; [obs_draw k] and [coin_draw k] are the draws of the
    [k]-th initial obstacle and coin. *)
Definition setup (obs_draw : nat -> Z) (coin_draw : nat -> Z * Z)
    (s : GameView) : result GameView :=
  let p := AnimatedSprite.new (sprite_path s) in
  let p := AnimatedSprite.set_center_y 200
             (AnimatedSprite.set_center_x 200 p) in
  let s := set_player (Some p) s in
  s <- repeat_spawn (fun k => spawn_obstacle (obs_draw k)) (seq 0 6) s ;;
  s <- repeat_spawn
         (fun k => spawn_coin (fst (coin_draw k)) (snd (coin_draw k)))
         (seq 0 5) s ;;
  let s := set_projectiles [] s in
  let s := set_obstacles (SpriteList_new (obstacles s)) s in
  let s := set_coins (SpriteList_new (coins s)) s in
  Ok (set_explosions [] s).

(** A run of ticks, each with its time step and its draws. *)
Fixpoint run (ticks : list (Q * Draws)) (s : GameView) : result GameView :=
  match ticks with
  | [] => Ok s
  | (dt, rnd) :: rest => s <- on_update dt rnd s ;; run rest s
  end.

(** *** Invariants and frames *)

Definition has_boss (s : GameView) : bool :=
  match boss s with Some _ => true | None => false end.

(** [boss_active] is [True] exactly when [boss] holds a boss. *)
Definition boss_inv (s : GameView) : Prop :=
  boss_active s = true <-> boss s <> None.

(** The fields of the distance clock and of the boss schedule. *)
Definition same_clock (s s' : GameView) : Prop :=
  distance s' = distance s /\ next_boss_at s' = next_boss_at s /\
  speed s' = speed s.

(** The boss flag and the presence of a boss. *)
Definition same_boss_slot (s s' : GameView) : Prop :=
  boss_active s' = boss_active s /\ has_boss s' = has_boss s.

End Game.

(** ** Drawing *)

Definition SCREEN_WIDTH : Q := 1000.
Definition SCREEN_HEIGHT : Q := 600.

(** What a drawing call puts on the screen: a filled rectangle
    ([draw_lrtb_rectangle_filled]), a textured tile
    ([draw_lrwh_rectangle_textured]), or a health text, kept as the two
    integers it prints and its position. *)
Inductive Shape :=
| Rect (left right top bottom : Q) (color : string)
| Tile (x y width height : Q)
| Label (hp max_hp : Z) (x y : Q).

(** [Boss.draw_health_bar] *)
Definition draw_health_bar (b : Boss.t) : result (list Shape) :=
  let bar_w := 360 in
  let left := Boss.center_x b - bar_w / 2 in
  let top := SCREEN_HEIGHT - 40 in
  let gray := Rect left (left + bar_w) top (top - 18) "DARK_GRAY" in
  r <- py_div (inject_Z (Boss.health b)) (inject_Z (Boss.max_health b)) ;;
  let health_ratio := py_max 0.0 r in
  let red := Rect left (left + bar_w * health_ratio) top (top - 18) "RED" in
  Ok [gray; red;
      Label (Boss.health b) (Boss.max_health b) (left + 10) (top - 16)].

(** [a % b] on floats: the remainder has the sign of the divisor. *)
Definition py_mod (a b : Q) : result Q :=
  if Qeq_bool b 0 then Raise ZeroDivisionError
  else Ok (a - inject_Z (Qfloor (a / b)) * b).

(** The loop of [ParallaxBackground._draw_layer], lines 197-199, run for at
    most [fuel] rounds: [None] when the rounds run out. *)
Fixpoint draw_tiles (fuel : nat) (width y_offset x : Q)
  : option (list Shape) :=
  if Qltb x (SCREEN_WIDTH + width) then
    match fuel with
    | O => None
    | S fuel =>
        option_map
          (cons (Tile x y_offset width (SCREEN_HEIGHT - y_offset)))
          (draw_tiles fuel width y_offset (x + width))
    end
  else Some [].

(** [ParallaxBackground._draw_layer(tex, width, offset_x, y_offset)]; the
    width of a texture is an integer. *)
Definition _draw_layer (fuel : nat) (width : Z) (offset_x y_offset : Q)
  : result (option (list Shape)) :=
  m <- py_mod offset_x (inject_Z width) ;;
  let start_x := - m - inject_Z width in
  Ok (draw_tiles fuel (inject_Z width) y_offset start_x).

(** ** Play: ticks and key presses in any order *)

Section Play.
Context {A : Arcade}.

(** What the window sends to the view: a tick with its time step and
    draws, or a key press (with the draw a punch would consume). *)
Inductive Event :=
| Tick (dt : Q) (rnd : Draws)
| Press (key : Key) (dmg : Z).

Definition handle (ev : Event) (s : GameView) : result GameView :=
  match ev with
  | Tick dt rnd => on_update dt rnd s
  | Press key dmg => on_key_press key dmg s
  end.

Fixpoint play (evs : list Event) (s : GameView) : result GameView :=
  match evs with
  | [] => Ok s
  | ev :: rest => s <- handle ev s ;; play rest s
  end.

(** The number of ticks among the events. *)
Fixpoint ticks_in (evs : list Event) : nat :=
  match evs with
  | [] => 0
  | Tick _ _ :: rest => S (ticks_in rest)
  | Press _ _ :: rest => ticks_in rest
  end.

(** The number of jumps (SPACE presses) among the events. *)
Fixpoint jumps_in (evs : list Event) : nat :=
  match evs with
  | [] => 0
  | Press KEY_SPACE _ :: rest => S (jumps_in rest)
  | _ :: rest => jumps_in rest
  end.

(** The player health bar of [on_draw], lines 372-379. *)
Definition draw_player_health (s : GameView) : result (list Shape) :=
  let bar_w := 220 in
  let x_left := 120 in
  let top := SCREEN_HEIGHT - 28 in
  let gray := Rect (x_left - bar_w / 2) (x_left + bar_w / 2) top (top - 20)
                   "DARK_GRAY" in
  r <- py_div (inject_Z (player_health s))
              (inject_Z (player_max_health s)) ;;
  let health_ratio := py_max 0 r in
  let green := Rect (x_left - bar_w / 2)
                    (x_left - bar_w / 2 + bar_w * health_ratio)
                    top (top - 20) "GREEN" in
  Ok [gray; green;
      Label (player_health s) (player_max_health s) (x_left - 40) (top - 18)].

(** The fields no handler assigns after [__init__]. *)
Definition same_settings (s s' : GameView) : Prop :=
  player_max_health s' = player_max_health s /\
  sprite_path s' = sprite_path s /\ paused s' = paused s /\
  speed s' = speed s.

(** The fields only a hit on the player assigns. *)
Definition same_fate (s s' : GameView) : Prop :=
  player_health s' = player_health s /\ game_over s' = game_over s /\
  leaderboard_file s' = leaderboard_file s /\
  result_text s' = result_text s.

(** The height of the player, when there is one. *)
Definition height (s : GameView) : option Q :=
  option_map AnimatedSprite.center_y (player s).

(** A step that leaves settings, cooldown, fate and height alone. *)
Definition quiet_step (s s' : GameView) : Prop :=
  same_settings s s' /\ skill_cd s' = skill_cd s /\ same_fate s s' /\
  height s' = height s.

(** The run has not ended between [s] and [s'], or it has: then
    [lose_game] has set the flag and the text and has written the
    leaderboard through [save_score]. *)
Definition fate_moves (s s' : GameView) : Prop :=
  (game_over s' = game_over s /\ result_text s' = result_text s /\
   leaderboard_file s' = leaderboard_file s) \/
  (game_over s' = true /\ result_text s' = "💀 YOU DIED"%string /\
   exists sc old,
     leaderboard_file s'
     = Some (Leaderboard.save_score "Player" sc old)).

(** [s'] with the fields that the boss block of a tick may assign put back
    to their values in [s]. *)
Definition before_boss_block (s s' : GameView) : GameView :=
  set_boss (boss s) (set_boss_active (boss_active s)
    (set_projectiles (projectiles s) (set_player_health (player_health s)
      (set_damage_popups (damage_popups s) (set_game_over (game_over s)
        (set_result_text (result_text s)
          (set_leaderboard_file (leaderboard_file s)
            (set_explosions (explosions s) (set_score (score s) s'))))))))).

(** The boss block assigns no other field. *)
Definition only_boss_block (s s' : GameView) : Prop :=
  before_boss_block s s' = s.

(** A boss that is on the field has health left. *)
Definition boss_standing (s : GameView) : Prop :=
  forall b, boss s = Some b -> (0 < Boss.health b)%Z.

(** Every tick among the events has a time step of 0 or more. *)
Definition forward (ev : Event) : Prop :=
  match ev with
  | Tick dt _ => 0 <= dt
  | Press _ _ => True
  end.

(** Every projectile damage draw among the events is 0 or more. *)
Definition harmful (ev : Event) : Prop :=
  match ev with
  | Tick _ rnd => forall k, (0 <= hit_dmg rnd k)%Z
  | Press _ _ => True
  end.

(** The key press is a jump that the view takes. *)
Definition jumps (key : Key) (s : GameView) : bool :=
  negb (game_over s) && match key with KEY_SPACE => true | _ => false end.

(** The test of line 424 on the timer as the tick has advanced it. *)
Definition obstacle_due (dt : Q) (s : GameView) : bool :=
  Qltb (py_max 0.6 (2.4 - distance s / 8000)) (obstacle_timer s + dt).

(** The test of line 427. *)
Definition coin_due (dt : Q) (s : GameView) : bool :=
  Qltb (py_max 0.8 (2.3 - distance s / 9000)) (coin_timer s + dt).

End Play.


(** ** Reading aids for the leaderboard *)

(** Where a new entry belongs on a board that is already sorted: behind
    every entry that scores at least as much. *)
Fixpoint insert_back (e : Leaderboard.entry) (l : list Leaderboard.entry)
  : list Leaderboard.entry :=
  match l with
  | [] => [e]
  | y :: ys =>
      if (Leaderboard.score e <=? Leaderboard.score y)%Z
      then y :: insert_back e ys
      else e :: y :: ys
  end.

(** ** Reading aids for the boss *)

(** What a shot looks like next to the boss [b'] that has just fired it at
    a player at [player_x]: it starts 30 in front of the boss, flies toward
    the player and covers at most 7.2 per tick horizontally. *)
Definition fired_by (player_x : Q) (b' : Boss.t) (p : Projectile.t) : Prop :=
  Projectile.center_x p = Boss.center_x b' - 30 /\
  -7.2 <= Projectile.vx p /\ Projectile.vx p <= 7.2 /\
  (Boss.center_x b' <= player_x -> 0 <= Projectile.vx p) /\
  (player_x <= Boss.center_x b' -> Projectile.vx p <= 0).

(** ** Sample data *)

(** An arcade with square hit boxes: two sprites collide when their centres
    are less than 50 apart on both axes; an emitter is its age in ticks. *)
Definition box_arcade : Arcade := {|
  Emitter := nat;
  Emitter_new := fun _ _ => Some 0%nat;
  Emitter_update := S;
  check_for_collision := fun a b =>
    Qltb (Qabs (Sprite.center_x a - Sprite.center_x b)) 50
    && Qltb (Qabs (Sprite.center_y a - Sprite.center_y b)) 50;
  SpriteList_new := fun _ => []
|}.

Definition quiet : Draws := mkDraws 600 500 240 1 (fun _ => 8%Z).

Definition hero : AnimatedSprite.t :=
  AnimatedSprite.mk 200 200 "assets/runner_male_run.png" 0 0.

(** A view that has been set up: the player stands at (200, 200). *)
Definition started : @GameView box_arcade :=
  set_player (Some hero)
    (GameView_init "assets/runner_male_run.png" None).

(** The player, down to 10 health at distance 2000, stands inside a boss of
    120 health. *)
Definition contact_state : @GameView box_arcade :=
  let b := Boss.set_center_y 220 (Boss.set_center_x 200
             (Boss.set_health 120 (Boss.set_max_health 120
                (Boss.new "assets/boss_run.png")))) in
  set_player_health 10
    (set_next_boss_at 4500 (set_distance 2000
       (set_boss_active true (set_boss (Some b) started)))).

(** A finished run: one popup still has a second to live, one obstacle
    stands 100 ahead of the player, and the skill is off cooldown. *)
Definition over_state : @GameView box_arcade :=
  set_game_over true
    (set_damage_popups [(200, 280, 18%Z, 1.0)]
       (set_obstacles
          [Sprite.mk 300 200 ("assets/obstacle.png"%string, 0%Z)] started)).

(** A live run without a boss, with obstacles 100, 220 and 500 ahead of the
    player and one coin. *)
Definition skill_state : @GameView box_arcade :=
  set_coins [Sprite.mk 350 260 ("assets/coin.png"%string, 0%Z)]
    (set_obstacles
       [Sprite.mk 300 200 ("assets/obstacle.png"%string, 0%Z);
        Sprite.mk 420 200 ("assets/obstacle.png"%string, 0%Z);
        Sprite.mk 700 200 ("assets/obstacle.png"%string, 0%Z)] started).

(** A live run that has just reached the first boss threshold. *)
Definition at_threshold : @GameView box_arcade := set_distance 2000 started.

(** A live run whose skill was cast a second ago. *)
Definition cooling : @GameView box_arcade := set_skill_cd 2 skill_state.

(** A leaderboard with a tie at 50. *)
Definition board : list Leaderboard.entry :=
  [Leaderboard.mk "ann" 50; Leaderboard.mk "bob" 70; Leaderboard.mk "cy" 50].

(** Ten entries, scores 100 down to 10. *)
Definition full_board : list Leaderboard.entry :=
  map (fun k => Leaderboard.mk "p" (10 * Z.of_nat (10 - k))) (seq 0 10).

(** A sorted leaderboard with a tie at 50. *)
Definition sorted_board : list Leaderboard.entry :=
  [Leaderboard.mk "bob" 70; Leaderboard.mk "ann" 50; Leaderboard.mk "cy" 50].

(** A short run: a tick, a jump, a skill cast and a long tick. *)
Definition sample_run : list Event :=
  [Tick (1 # 60) quiet; Press KEY_SPACE 0; Press KEY_X 0; Tick 1 quiet].

(** A boss of maximum health 100 at the given health. *)
Definition boss_at (h : Z) : Boss.t :=
  Boss.set_health h (Boss.new "assets/boss_run.png").

(** A boss at half of its health. *)
Definition half_boss : Boss.t := boss_at 50.

(** * Properties *)

(** ** The leaderboard *)

Section LeaderboardFacts.
Import Leaderboard.

Lemma insert_perm (e : entry) (l : list entry) :
  Permutation (insert e l) (e :: l).
Proof.
  induction l as [|y ys IH]; simpl.
  - apply Permutation_refl.
  - destruct (score y <=? score e)%Z.
    + apply Permutation_refl.
    + eapply perm_trans; [apply perm_skip, IH | apply perm_swap].
Qed.

Lemma sorted_desc_perm (l : list entry) : Permutation (sorted_desc l) l.
Proof.
  induction l as [|e es IH]; simpl.
  - apply perm_nil.
  - eapply perm_trans; [apply insert_perm | apply perm_skip, IH].
Qed.

Lemma insert_sorted (e : entry) (l : list entry) :
  StronglySorted desc l -> StronglySorted desc (insert e l).
Proof.
  induction 1 as [|y ys Hs IH Hy]; simpl.
  - repeat constructor.
  - destruct (score y <=? score e)%Z eqn:E.
    + apply Z.leb_le in E. constructor.
      * constructor; assumption.
      * constructor; [exact E|].
        rewrite Forall_forall in Hy |- *. intros z Hz.
        unfold desc in *. specialize (Hy z Hz). lia.
    + apply Z.leb_gt in E. constructor; [exact IH|].
      rewrite Forall_forall in Hy |- *. intros z Hz.
      apply (Permutation_in _ (insert_perm e ys)) in Hz.
      destruct Hz as [<-|Hz]; [unfold desc; lia | auto].
Qed.

Lemma sorted_desc_sorted (l : list entry) :
  StronglySorted desc (sorted_desc l).
Proof.
  induction l; simpl; [constructor | apply insert_sorted; assumption].
Qed.

(** Insertion is stable: the new entry lands in front of the entries of its
    own score, and the other scores do not see it. *)
Lemma with_score_insert (v : Z) (e : entry) (l : list entry) :
  with_score v (insert e l) = with_score v (e :: l).
Proof.
  induction l as [|y ys IH]; [reflexivity|].
  simpl insert. destruct (score y <=? score e)%Z eqn:E; [reflexivity|].
  apply Z.leb_gt in E.
  unfold with_score in *. simpl in *. rewrite IH.
  destruct (score y =? v)%Z eqn:Ey, (score e =? v)%Z eqn:Ee; try reflexivity.
  apply Z.eqb_eq in Ey, Ee. lia.
Qed.

Lemma with_score_sorted_desc (v : Z) (l : list entry) :
  with_score v (sorted_desc l) = with_score v l.
Proof.
  induction l as [|e es IH]; [reflexivity|].
  simpl sorted_desc. rewrite with_score_insert.
  unfold with_score in *. simpl. rewrite IH. reflexivity.
Qed.

Lemma filter_firstn_prefix {X} (f : X -> bool) (n : nat) (l : list X) :
  exists k, filter f (firstn n l) = firstn k (filter f l).
Proof.
  revert n. induction l as [|x xs IH]; intros [|n]; simpl;
    try (exists 0%nat; reflexivity).
  destruct (IH n) as [k Hk]. destruct (f x).
  - exists (S k). simpl. now rewrite Hk.
  - exists k. exact Hk.
Qed.

Lemma sorted_app_inv {X} (R : X -> X -> Prop) (l1 l2 : list X) :
  StronglySorted R (l1 ++ l2) ->
  StronglySorted R l1 /\ forall a b, In a l1 -> In b l2 -> R a b.
Proof.
  induction l1 as [|x xs IH]; simpl; intros H.
  - split; [constructor | intros a b []].
  - inversion H as [|? ? Hs Hx]; subst. destruct (IH Hs) as [H1 H2].
    rewrite Forall_forall in Hx. split.
    + constructor; [exact H1|]. rewrite Forall_forall. intros z Hz.
      apply Hx, in_or_app. now left.
    + intros a b [<-|Ha] Hb; [apply Hx, in_or_app; now right | auto].
Qed.

Example save_score_tie :
  save_score "dee" 50 (Some board)
  = [mk "bob" 70; mk "ann" 50; mk "cy" 50; mk "dee" 50].
Proof. reflexivity. Qed.

Example save_score_no_file : save_score "dee" 50 None = [mk "dee" 50].
Proof. reflexivity. Qed.

Example save_score_full_board :
  map score (save_score "dee" 55 (Some full_board))
  = [100; 90; 80; 70; 60; 55; 50; 40; 30; 20]%Z.
Proof. reflexivity. Qed.

(** C8.  Whatever the leaderboard file held (a list of entries, or nothing
    readable) and whatever entry is saved, the list [save_score] writes back
    has the ten highest scores of the old list with the new entry appended
    (all of them when there are fewer than ten): it is sorted by descending
    score, what it leaves out scores no higher than anything it keeps, and
    the entries of any one score appear in their order of insertion, the
    earliest first. *)
Theorem save_score_top_ten (nm : string) (sc : Z)
    (file : option (list entry)) :
  let data := load_leaderboard file ++ [mk nm sc] in
  let out := save_score nm sc file in
  List.length out = Nat.min 10 (List.length data) /\
  StronglySorted desc out /\
  (exists rest, Permutation (out ++ rest) data /\
                forall a b, In a out -> In b rest -> desc a b) /\
  (forall v, exists k, with_score v out = firstn k (with_score v data)).
Proof.
  intros data out.
  assert (Hout : out = firstn 10 (sorted_desc data))
    by (destruct file; reflexivity).
  pose proof (sorted_desc_sorted data) as Hs.
  rewrite <- (firstn_skipn 10 (sorted_desc data)) in Hs.
  apply sorted_app_inv in Hs. destruct Hs as [Hs Hle].
  rewrite Hout. repeat split.
  - rewrite length_firstn.
    now rewrite (Permutation_length (sorted_desc_perm data)).
  - exact Hs.
  - exists (skipn 10 (sorted_desc data)). split; [|exact Hle].
    rewrite firstn_skipn. apply sorted_desc_perm.
  - intros v. unfold with_score at 1.
    destruct (filter_firstn_prefix (fun e => (score e =? v)%Z) 10
                (sorted_desc data)) as [k Hk].
    exists k. rewrite Hk. fold (with_score v (sorted_desc data)).
    now rewrite with_score_sorted_desc.
Qed.

(** *** More on [save_score] *)



Lemma insert_head_sorted (x : entry) (l : list entry) :
  StronglySorted desc (x :: l) -> insert x l = x :: l.
Proof.
  intros H. destruct l as [|y ys]; [reflexivity|].
  inversion H as [|? ? _ Hx]; subst. inversion Hx as [|? ? Hy _]; subst.
  simpl. unfold desc in Hy. apply Z.leb_le in Hy. now rewrite Hy.
Qed.

Lemma sorted_desc_fixes_sorted (l : list entry) :
  StronglySorted desc l -> sorted_desc l = l.
Proof.
  induction l as [|x xs IH]; intros H; [reflexivity|].
  simpl. inversion H as [|? ? Hs _]; subst. rewrite (IH Hs).
  now apply insert_head_sorted.
Qed.

Lemma insert_insert_back (x e : entry) (l : list entry) :
  insert x (insert_back e l) = insert_back e (insert x l).
Proof.
  induction l as [|y ys IH]; simpl.
  - destruct (score e <=? score x)%Z eqn:E; simpl; now rewrite ?E.
  - destruct (score e <=? score y)%Z eqn:Ey,
             (score y <=? score x)%Z eqn:Ex; simpl; rewrite ?Ey, ?Ex.
    + assert (E : (score e <=? score x)%Z = true)
        by (apply Z.leb_le; apply Z.leb_le in Ey, Ex; lia).
      rewrite E. simpl. now rewrite ?Ey.
    + now rewrite IH.
    + destruct (score e <=? score x)%Z eqn:E; simpl; now rewrite ?Ey, ?Ex.
    + assert (E : (score e <=? score x)%Z = false)
        by (apply Z.leb_gt; apply Z.leb_gt in Ey, Ex; lia).
      rewrite ?E. simpl. now rewrite ?Ey, ?Ex, ?E.
Qed.

Lemma sorted_desc_snoc (e : entry) (l : list entry) :
  sorted_desc (l ++ [e]) = insert_back e (sorted_desc l).
Proof.
  induction l as [|x xs IH]; [reflexivity|].
  simpl. rewrite IH. apply insert_insert_back.
Qed.

Lemma firstn_insert_back_keeps (e : entry) (n : nat) (l : list entry) :
  (n <= List.length l)%nat ->
  Forall (fun y => (score e <= score y)%Z) (firstn n l) ->
  firstn n (insert_back e l) = firstn n l.
Proof.
  revert l. induction n as [|n IH]; intros l Hn Hall; [reflexivity|].
  destruct l as [|y ys]; [simpl in Hn; lia|].
  simpl in Hall. inversion Hall as [|? ? Hy Hys]; subst.
  simpl. apply Z.leb_le in Hy. rewrite Hy. simpl. f_equal.
  apply IH; [simpl in Hn; lia | exact Hys].
Qed.

Lemma firstn_insert_back_lists (e : entry) (n : nat) (l : list entry) :
  (List.length l < n)%nat \/
  Exists (fun y => (score y < score e)%Z) (firstn n l) ->
  In e (firstn n (insert_back e l)).
Proof.
  revert n. induction l as [|y ys IH]; intros n H.
  - destruct n as [|n]; [|now left].
    destruct H as [H|H]; [simpl in H; lia | inversion H].
  - destruct n as [|n].
    { destruct H as [H|H]; [simpl in H; lia | inversion H]. }
    simpl. destruct (score e <=? score y)%Z eqn:E; [|now left].
    right. apply IH. destruct H as [H|H]; [left; simpl in H; lia|].
    right. simpl in H. inversion H as [? ? Hy|? ? Hys]; subst;
      [apply Z.leb_le in E; lia | exact Hys].
Qed.

(** X1.  On a board that is already sorted by descending score, as every
    board [save_score] has written is, [save_score] slots the new entry in
    behind every entry that scores at least as much, leaves the order of the
    others alone and keeps the first ten. *)
Theorem save_score_on_sorted_board (nm : string) (sc : Z)
    (d : list entry) :
  StronglySorted desc d ->
  save_score nm sc (Some d) = firstn 10 (insert_back (mk nm sc) d).
Proof.
  intros Hs. unfold save_score. rewrite sorted_desc_snoc.
  now rewrite (sorted_desc_fixes_sorted d Hs).
Qed.

(** X2.  While fewer than ten entries are stored, [save_score] loses
    nothing: what it writes is a rearrangement of the old entries and the
    new one. *)
Theorem save_score_keeps_all_below_ten (nm : string) (sc : Z)
    (file : option (list entry)) :
  (List.length (load_leaderboard file) < 10)%nat ->
  Permutation (save_score nm sc file) (load_leaderboard file ++ [mk nm sc]).
Proof.
  intros Hlen.
  assert (E : save_score nm sc file
              = firstn 10 (sorted_desc (load_leaderboard file ++ [mk nm sc])))
    by (destruct file; reflexivity).
  rewrite E, firstn_all2; [apply sorted_desc_perm|].
  rewrite (Permutation_length (sorted_desc_perm _)), length_app. simpl. lia.
Qed.

(** X3.  On a sorted board with ten entries or more, a score that does not
    beat the tenth place changes nothing in the ten that are kept (a tie
    with the tenth place loses); a score that beats one of the first ten is
    listed. *)
Theorem save_score_tenth_place (nm : string) (sc : Z) (d : list entry) :
  StronglySorted desc d -> (10 <= List.length d)%nat ->
  (Forall (fun y => (sc <= score y)%Z) (firstn 10 d) ->
   save_score nm sc (Some d) = firstn 10 d) /\
  (Exists (fun y => (score y < sc)%Z) (firstn 10 d) ->
   In (mk nm sc) (save_score nm sc (Some d))).
Proof.
  intros Hs Hlen. unfold save_score.
  rewrite sorted_desc_snoc, (sorted_desc_fixes_sorted d Hs). split.
  - intros Hall. now apply firstn_insert_back_keeps.
  - intros Hex. apply firstn_insert_back_lists. now right.
Qed.

End LeaderboardFacts.

(** ** Python numbers *)

Lemma Qltb_lt (a b : Q) : Qltb a b = true <-> a < b.
Proof.
  unfold Qltb. rewrite negb_true_iff, <- not_true_iff_false, Qle_bool_iff.
  split; [apply Qnot_le_lt | apply Qlt_not_le].
Qed.

Lemma Qltb_ge (a b : Q) : Qltb a b = false <-> b <= a.
Proof.
  unfold Qltb. rewrite negb_false_iff. apply Qle_bool_iff.
Qed.

Lemma py_max_lower (a b : Q) : b <= py_max a b.
Proof.
  unfold py_max. destruct (Qltb a b) eqn:E.
  - apply Qle_refl.
  - now apply Qltb_ge.
Qed.

Lemma py_div_ok (a b : Q) : ~ b == 0 -> py_div a b = Ok (a / b).
Proof.
  intros H. unfold py_div. destruct (Qeq_bool b 0) eqn:E; [|reflexivity].
  apply Qeq_bool_iff in E. contradiction.
Qed.

(** ** The boss *)

Section BossFacts.
Import Boss.

Lemma ratio_ok (b : t) :
  ratio b = Ok (inject_Z (health b) / inject_Z (Z.max 1 (max_health b))).
Proof.
  unfold ratio. apply py_div_ok. intros H.
  assert (0 < inject_Z (Z.max 1 (max_health b))) as Hpos.
  { change 0 with (inject_Z 0). rewrite <- Zlt_Qlt. lia. }
  rewrite H in Hpos. now apply Qlt_irrefl in Hpos.
Qed.

Lemma aim_ok (player_x speed jitter : Q) (b : t) :
  exists vx vy, aim player_x speed jitter b = Ok (vx, vy).
Proof.
  unfold aim.
  set (dist := py_max (Qabs (player_x - center_x b)) 1).
  assert (~ dist == 0) as Hd.
  { intros H. pose proof (py_max_lower (Qabs (player_x - center_x b)) 1) as Hl.
    fold dist in Hl. rewrite H in Hl. now apply Hl. }
  rewrite !(py_div_ok _ _ Hd). simpl. eauto.
Qed.

(** What [update_behavior] returns: it always returns, and the phase it
    leaves is decided by the ratio alone. *)
Lemma update_behavior_phase (dt player_x : Q) (projs : list Projectile.t)
    (jitter : Q) (b : t) :
  let r := inject_Z (health b) / inject_Z (Z.max 1 (max_health b)) in
  exists b' projs',
    update_behavior dt player_x projs jitter b = Ok (b', projs') /\
    phase b' = (if Qltb 0.66 r then 1 else if Qltb 0.33 r then 2 else 3)%Z /\
    health b' = health b /\ max_health b' = max_health b.
Proof.
  intros r. unfold update_behavior.
  rewrite ratio_ok. cbn [bind health max_health set_shoot_timer]. fold r.
  destruct (Qltb 0.66 r); [|destruct (Qltb 0.33 r)];
    (match goal with
     | |- context [Qle_bool ?i ?x] => destruct (Qle_bool i x)
     end; [|eexists; eexists; split; [reflexivity | now cbn]]);
    match goal with
    | |- context [aim ?px ?sp ?j ?bb] =>
        destruct (aim_ok px sp j bb) as (vx & vy & ->)
    end; cbn; eexists; eexists; split; try reflexivity; now cbn.
Qed.

(** The phase a boss is left in by one call, [0] if the call raised. *)
Example phases_at_sample_ratios :
  map (fun h =>
         match update_behavior 0.1 200 [] 1 (boss_at h) with
         | Ok (b, _) => phase b
         | Raise _ => 0%Z
         end) [100; 67; 66; 50; 34; 33; 20; 0; -5]%Z
  = [1; 1; 2; 2; 2; 3; 3; 3; 3]%Z.
Proof. vm_compute. reflexivity. Qed.

Example no_max_health_still_returns :
  match update_behavior 0.1 200 [] 1 (set_max_health 0 (boss_at 0)) with
  | Ok (b, _) => phase b = 3%Z
  | Raise _ => False
  end.
Proof. vm_compute. reflexivity. Qed.

(** Phase 3 fires two projectiles once the timer passes 0.5. *)
Example phase_three_double_shot :
  match update_behavior 0.6 200 [] 1 (boss_at 20) with
  | Ok (b, projs) => List.length projs = 2%nat /\ shoot_timer b == 0
  | Raise _ => False
  end.
Proof. vm_compute. split; reflexivity. Qed.

(** C10.  For every boss, a maximum health of 0 included, the phase
    computation of [update_behavior] is total: the ratio is the health
    divided by [max(1, max_health)], a divisor of at least 1, and the call
    returns (no [ZeroDivisionError], whatever the time step, the player's
    position, the projectile list and the draw). *)
Theorem update_behavior_total (dt player_x : Q) (projs : list Projectile.t)
    (jitter : Q) (b : t) :
  ratio b = Ok (inject_Z (health b) / inject_Z (Z.max 1 (max_health b))) /\
  (1 <= Z.max 1 (max_health b))%Z /\
  (exists b' projs',
     update_behavior dt player_x projs jitter b = Ok (b', projs')) /\
  (max_health b = 0%Z -> ratio b = Ok (inject_Z (health b) / 1)).
Proof.
  repeat split.
  - apply ratio_ok.
  - lia.
  - destruct (update_behavior_phase dt player_x projs jitter b)
      as (b' & projs' & H & _).
    eauto.
  - intros H. rewrite ratio_ok, H. reflexivity.
Qed.

(** C3.  For every boss with a positive maximum health, the phase that
    [update_behavior] computes is the one the ratio health/max_health
    selects, whatever the other inputs of the tick: 1 when the ratio is
    above 0.66, 2 when it is above 0.33 and at most 0.66, 3 when it is at
    most 0.33; so a ratio of 0.67 gives 1, 0.5 gives 2 and 0.2 gives 3. *)
Theorem boss_phase_by_ratio (dt player_x : Q) (projs : list Projectile.t)
    (jitter : Q) (b : t) :
  (0 < max_health b)%Z ->
  let r := inject_Z (health b) / inject_Z (max_health b) in
  exists b' projs',
    update_behavior dt player_x projs jitter b = Ok (b', projs') /\
    phase_for r (phase b') /\
    (r == 0.67 -> phase b' = 1%Z) /\
    (r == 0.5 -> phase b' = 2%Z) /\
    (r == 0.2 -> phase b' = 3%Z).
Proof.
  intros Hm r.
  destruct (update_behavior_phase dt player_x projs jitter b)
    as (b' & projs' & Hrun & Hph & _).
  cbv zeta in Hph. rewrite (Z.max_r 1 (max_health b)) in Hph by lia.
  fold r in Hph. exists b', projs'. split; [exact Hrun|].
  assert (Hfor : phase_for r (phase b')).
  { unfold phase_for. rewrite Hph.
    destruct (Qltb 0.66 r) eqn:E1; [|destruct (Qltb 0.33 r) eqn:E2];
      rewrite ?Qltb_lt, ?Qltb_ge in *; repeat split; intros; try reflexivity;
      exfalso; lra. }
  split; [exact Hfor|]. destruct Hfor as (H1 & H2 & H3).
  repeat split; intros E; [apply H1 | apply H2 | apply H3]; lra.
Qed.

(** *** More on the sprites *)

Lemma py_max_upper (a b : Q) : a <= py_max a b.
Proof.
  unfold py_max. destruct (Qltb a b) eqn:E.
  - apply Qltb_lt in E. now apply Qlt_le_weak.
  - apply Qle_refl.
Qed.

(** The shot of a boss in phase 1, 2 or 3: it always flies toward the
    player, at a horizontal speed of at most [speed] times the phase
    factor. *)
Lemma aim_bounds (player_x speed jitter : Q) (b : t) :
  0 <= speed -> (1 <= phase b <= 3)%Z ->
  exists vx vy,
    aim player_x speed jitter b = Ok (vx, vy) /\
    - (speed * (1 + inject_Z (3 - phase b) * 0.2)) <= vx /\
    vx <= speed * (1 + inject_Z (3 - phase b) * 0.2) /\
    (center_x b <= player_x -> 0 <= vx) /\
    (player_x <= center_x b -> vx <= 0).
Proof.
  intros Hs Hph. unfold aim.
  set (dx := player_x - center_x b).
  set (dist := py_max (Qabs dx) 1).
  assert (H1 : 1 <= dist) by apply py_max_lower.
  assert (Hd : Qabs dx <= dist) by apply py_max_upper.
  apply Qabs_Qle_condition in Hd. destruct Hd as [Hlo Hhi].
  assert (Hpos : 0 < dist) by lra.
  assert (Hnz : ~ dist == 0) by lra.
  rewrite !(py_div_ok _ _ Hnz). cbn [bind].
  set (q := dx / dist).
  assert (Hq1 : q <= 1) by (apply Qle_shift_div_r; [exact Hpos | lra]).
  assert (Hq0 : -1 <= q)
    by (apply Qle_shift_div_l; [exact Hpos | lra]).
  assert (Hf : 0 <= inject_Z (3 - phase b))
    by (change 0 with (inject_Z 0); rewrite <- Zle_Qle; lia).
  set (f := inject_Z (3 - phase b)) in *.
  eexists. eexists. split; [reflexivity|].
  assert (HK : 0 <= speed * (1 + f * 0.2)) by nra.
  assert (E : q * speed * (1 + f * 0.2) == q * (speed * (1 + f * 0.2)))
    by ring.
  rewrite E. set (K := speed * (1 + f * 0.2)) in *.
  split; [nra|]. split; [nra|]. split.
  - intros Hx. assert (0 <= q)
      by (apply Qle_shift_div_l; [exact Hpos | unfold dx; lra]).
    nra.
  - intros Hx. assert (q <= 0)
      by (apply Qle_shift_div_r; [exact Hpos | unfold dx; lra]).
    nra.
Qed.

Lemma update_behavior_shape (dt player_x : Q) (projs : list Projectile.t)
    (jitter : Q) (b : t) :
  exists b' new,
    update_behavior dt player_x projs jitter b = Ok (b', projs ++ new) /\
    center_x b' <= center_x b /\ center_y b' = center_y b /\
    (List.length new <= 2)%nat /\
    (new = [] -> shoot_timer b' = shoot_timer b + dt) /\
    (new <> [] ->
     shoot_timer b' = 0 /\
     (List.length new = 2%nat <-> phase b' = 3%Z)) /\
    Forall (fired_by player_x b') new.
Proof.
  unfold update_behavior. rewrite ratio_ok.
  cbn [bind health max_health set_shoot_timer].
  set (r := inject_Z (health b) / inject_Z (Z.max 1 (max_health b))).
  destruct (Qltb 0.66 r); [|destruct (Qltb 0.33 r)];
    match goal with
    | |- context [Qle_bool ?i ?x] => destruct (Qle_bool i x)
    end.
  all: try (eexists; exists []; rewrite app_nil_r;
            split; [reflexivity|]; unfold center_x, center_y; cbn;
            split; [lra|]; split; [reflexivity|]; split; [lia|];
            split; [reflexivity|]; split; [congruence | constructor]).
  all: match goal with
       | |- context [aim ?px ?sp ?j ?bb] =>
           destruct (aim_bounds px sp j bb) as (vx & vy & -> & L & U & P & N);
             [lra | cbn; lia
             | unfold center_x in L, U, P, N; cbn in L, U, P, N]
       end.
  all: cbn [bind].
  all: rewrite <- ?app_assoc; eexists; eexists; split; [reflexivity|].
  all: unfold fired_by, center_x, center_y; cbn.
  all: split; [lra|]; split; [reflexivity|]; split; [lia|].
  all: split; [discriminate|].
  all: split; [intros _; split; [reflexivity | split; congruence]|].
  all: unfold inject_Z in L, U.
  all: repeat (apply Forall_cons;
               [repeat split; cbn; try assumption; try reflexivity; lra|]).
  all: apply Forall_nil.
Qed.

(** X4.  [update_behavior] never removes or alters a projectile that is
    already in the list: it appends none, one or two.  When it fires the
    shoot timer is back at 0, and two projectiles are appended exactly in
    phase 3; when it does not fire the timer has grown by [dt].  The boss
    keeps its height and never moves to the right. *)
Theorem update_behavior_appends_shots (dt player_x : Q)
    (projs : list Projectile.t) (jitter : Q) (b : t) :
  exists b' new,
    update_behavior dt player_x projs jitter b = Ok (b', projs ++ new) /\
    (List.length new <= 2)%nat /\
    (new = [] -> shoot_timer b' = shoot_timer b + dt) /\
    (new <> [] ->
     shoot_timer b' = 0 /\
     (List.length new = 2%nat <-> phase b' = 3%Z)) /\
    center_x b' <= center_x b /\ center_y b' = center_y b.
Proof.
  destruct (update_behavior_shape dt player_x projs jitter b)
    as (b' & new & Hrun & Hx & Hy & Hlen & Hno & Hshot & _).
  exists b', new. repeat split; try assumption; now apply Hshot.
Qed.

(** X5.  Every projectile that [update_behavior] fires starts 30 to the left
    of the boss, flies horizontally toward the player (never away from it)
    and covers at most 7.2 per tick horizontally, in every phase and
    whatever the distance to the player. *)
Theorem update_behavior_shots_toward_player (dt player_x : Q)
    (projs : list Projectile.t) (jitter : Q) (b : t) :
  exists b' new,
    update_behavior dt player_x projs jitter b = Ok (b', projs ++ new) /\
    Forall (fired_by player_x b') new.
Proof.
  destruct (update_behavior_shape dt player_x projs jitter b)
    as (b' & new & Hrun & _ & _ & _ & _ & _ & Hall).
  exists b', new. split; assumption.
Qed.

(** X24.  The phases only advance as health falls: of two bosses with the
    same maximum health, the one with less health is never left in an
    earlier phase by [update_behavior], whatever the other inputs. *)
Theorem phase_advances_as_health_falls (dt1 dt2 x1 x2 : Q)
    (l1 l2 : list Projectile.t) (j1 j2 : Q) (b1 b2 : t) :
  max_health b1 = max_health b2 -> (health b1 <= health b2)%Z ->
  exists b1' l1' b2' l2',
    update_behavior dt1 x1 l1 j1 b1 = Ok (b1', l1') /\
    update_behavior dt2 x2 l2 j2 b2 = Ok (b2', l2') /\
    (1 <= phase b2' <= phase b1')%Z /\ (phase b1' <= 3)%Z.
Proof.
  intros Hm Hh.
  destruct (update_behavior_phase dt1 x1 l1 j1 b1)
    as (b1' & l1' & H1 & P1 & _).
  destruct (update_behavior_phase dt2 x2 l2 j2 b2)
    as (b2' & l2' & H2 & P2 & _).
  exists b1', l1', b2', l2'. split; [exact H1|]. split; [exact H2|].
  cbv zeta in P1, P2. rewrite Hm in P1.
  set (m := inject_Z (Z.max 1 (max_health b2))) in *.
  assert (Hpos : 0 < m)
    by (subst m; change 0 with (inject_Z 0); rewrite <- Zlt_Qlt; lia).
  assert (Hr : inject_Z (health b1) / m <= inject_Z (health b2) / m).
  { apply Qle_shift_div_l; [exact Hpos|].
    assert (E : inject_Z (health b1) / m * m == inject_Z (health b1))
      by (field; lra).
    rewrite E. now rewrite <- Zle_Qle. }
  rewrite P1, P2.
  destruct (Qltb 0.66 (inject_Z (health b1) / m)) eqn:A1;
    destruct (Qltb 0.66 (inject_Z (health b2) / m)) eqn:A2;
    destruct (Qltb 0.33 (inject_Z (health b1) / m)) eqn:B1;
    destruct (Qltb 0.33 (inject_Z (health b2) / m)) eqn:B2;
    try (split; lia);
    rewrite ?Qltb_lt, ?Qltb_ge in *; exfalso; lra.
Qed.

(** X6.  [update_animation] keeps the frame index a valid index into the
    six textures, leaves the timer below the frame time (it restarts from 0
    whenever a frame is shown) and does not move the sprite. *)
Theorem update_animation_keeps_frame_valid (dt : Q) (a : AnimatedSprite.t) :
  (0 <= AnimatedSprite.current_frame a < AnimatedSprite.frames)%Z ->
  let a' := AnimatedSprite.update_animation dt a in
  (0 <= AnimatedSprite.current_frame a' < AnimatedSprite.frames)%Z /\
  AnimatedSprite.timer a' < AnimatedSprite.frame_time /\
  AnimatedSprite.center_x a' = AnimatedSprite.center_x a /\
  AnimatedSprite.center_y a' = AnimatedSprite.center_y a /\
  (AnimatedSprite.frame_time <= AnimatedSprite.timer a + dt ->
   AnimatedSprite.current_frame a'
   = ((AnimatedSprite.current_frame a + 1) mod 6)%Z /\
   AnimatedSprite.timer a' = 0).
Proof.
  intros Hf a'. subst a'. unfold AnimatedSprite.update_animation.
  destruct (Qle_bool _ _) eqn:E; cbn.
  - split; [apply Z.mod_pos_bound; reflexivity|].
    split; [reflexivity|]. split; [reflexivity|]. split; [reflexivity|].
    intros _. split; reflexivity.
  - split; [exact Hf|]. split.
    + apply Qnot_le_lt. intros H. apply Qle_bool_iff in H. congruence.
    + split; [reflexivity|]. split; [reflexivity|].
      intros H. apply Qle_bool_iff in H. congruence.
Qed.

End BossFacts.

(** The boss of [half_boss] has ratio 0.5 and comes out in phase 2. *)
Lemma boss_phase_by_ratio_witness :
  exists b' projs',
    Boss.update_behavior 0.1 200 [] 1 half_boss = Ok (b', projs') /\
    Boss.phase_for (inject_Z 50 / inject_Z 100) (Boss.phase b') /\
    (inject_Z 50 / inject_Z 100 == 0.67 -> Boss.phase b' = 1%Z) /\
    (inject_Z 50 / inject_Z 100 == 0.5 -> Boss.phase b' = 2%Z) /\
    (inject_Z 50 / inject_Z 100 == 0.2 -> Boss.phase b' = 3%Z).
Proof.
  apply (boss_phase_by_ratio 0.1 200 [] 1 half_boss). reflexivity.
Defined.

(** ** The game view *)

Section GameFacts.
Context {A : Arcade}.

Local Arguments Z.add : simpl never.
Local Arguments Z.sub : simpl never.
Local Arguments Z.mul : simpl never.
Local Arguments Z.leb : simpl never.
Local Arguments Qplus : simpl never.
Local Arguments Qminus : simpl never.
Local Arguments Qmult : simpl never.
Local Arguments Qdiv : simpl never.
Local Arguments Qle_bool : simpl never.
Local Arguments Qltb : simpl never.
Local Arguments py_int : simpl never.
Local Arguments py_max : simpl never.

Local Abbreviation alive s := (exists p', player s = Some p').

Local Abbreviation untouched s s' :=
  (player s' = player s /\ boss s' = boss s /\
   boss_active s' = boss_active s /\ same_clock s s').

Local Abbreviation keeps r s :=
  (exists s', r = Ok s' /\ alive s' /\ same_clock s s' /\ same_boss_slot s s').

Ltac crunch :=
  cbn; unfold same_clock, same_boss_slot, has_boss; cbn;
  repeat (first [progress eexists | split]); try reflexivity.

Lemma boss_inv_slot (s : GameView) : boss_inv s <-> boss_active s = has_boss s.
Proof.
  unfold boss_inv, has_boss.
  destruct (boss_active s), (boss s); intuition (try congruence).
Qed.

Lemma same_clock_trans (s1 s2 s3 : GameView) :
  same_clock s1 s2 -> same_clock s2 s3 -> same_clock s1 s3.
Proof. unfold same_clock. intuition congruence. Qed.

Lemma same_boss_slot_trans (s1 s2 s3 : GameView) :
  same_boss_slot s1 s2 -> same_boss_slot s2 s3 -> same_boss_slot s1 s3.
Proof. unfold same_boss_slot. intuition congruence. Qed.

Lemma boss_live_has (s : GameView) :
  boss_live s = true -> exists b, boss s = Some b /\ boss_active s = true.
Proof.
  unfold boss_live. destruct (boss_active s), (boss s); try discriminate.
  eauto.
Qed.

Lemma animate_keeps (dt : Q) (s : GameView) (p : AnimatedSprite.t) :
  player s = Some p -> keeps (animate dt s) s.
Proof.
  intros Hp. unfold animate, the_player. rewrite Hp. cbn [bind].
  destruct (boss_live _) eqn:E.
  - apply boss_live_has in E. cbn in E. destruct E as (b & Hb & _).
    unfold the_boss. cbn. rewrite Hb. crunch. now rewrite Hb.
  - crunch.
Qed.

Lemma update_explosions_untouched (s : GameView) :
  untouched s (update_explosions s).
Proof. crunch. Qed.

Lemma cooldowns_untouched (dt : Q) (s : GameView) :
  untouched s (cooldowns dt s) /\ score (cooldowns dt s) = score s.
Proof. unfold cooldowns. destruct (Qltb 0 (skill_cd s)); crunch. Qed.

Lemma spawn_timers_keeps (dt : Q) (rnd : Draws) (s : GameView)
    (p : AnimatedSprite.t) :
  player s = Some p -> keeps (spawn_timers dt rnd s) s.
Proof.
  intros Hp. unfold spawn_timers, spawn_obstacle, spawn_coin, the_player.
  cbn. rewrite Hp. cbn.
  destruct (Qltb _ (obstacle_timer s + dt)); cbn; rewrite ?Hp; cbn;
    destruct (Qltb _ (coin_timer s + dt)); cbn; rewrite ?Hp; crunch;
    exact Hp.
Qed.

Lemma cleanup_keeps (s : GameView) (p : AnimatedSprite.t) :
  player s = Some p -> keeps (cleanup s) s.
Proof.
  intros Hp. unfold cleanup, the_player. rewrite Hp. crunch. exact Hp.
Qed.

Lemma coin_scores_untouched (hit : list Sprite.t) (s : GameView) :
  untouched s (fold_left (fun s _ => set_score (score s + 25) s) hit s).
Proof.
  revert s. induction hit as [|c cs IH]; intros s; [crunch|].
  cbn [fold_left]. destruct (IH (set_score (score s + 25) s))
    as (H1 & H2 & H3 & H4 & H5 & H6).
  cbn in *. unfold same_clock. repeat split; assumption.
Qed.

Lemma collect_coins_keeps (s : GameView) (p : AnimatedSprite.t) :
  player s = Some p -> keeps (collect_coins s) s.
Proof.
  intros Hp. unfold collect_coins, the_player. rewrite Hp. cbn [bind].
  eexists. split; [reflexivity|].
  match goal with
  | |- context [fold_left _ ?h ?s0] =>
      destruct (coin_scores_untouched h s0) as (H1 & H2 & H3 & H4 & H5 & H6)
  end.
  cbn in *. unfold same_clock, same_boss_slot, has_boss.
  rewrite H1, H2, H3, H4, H5, H6, Hp. crunch.
Qed.

Lemma obstacle_impacts_keeps (hit : list Sprite.t) (s : GameView)
    (p : AnimatedSprite.t) :
  player s = Some p -> keeps (obstacle_impacts hit s) s.
Proof.
  revert s p. induction hit as [|o os IH]; intros s p Hp.
  - crunch. exact Hp.
  - cbn [obstacle_impacts]. unfold obstacle_impact, the_player. cbn.
    rewrite Hp. cbn [bind].
    match goal with
    | |- context [obstacle_impacts os ?s0] =>
        destruct (IH s0 _ eq_refl) as (s' & -> & Ha & Hc & Hb)
    end.
    exists s'. cbn in *. auto.
Qed.

Lemma hit_obstacles_keeps (s : GameView) (p : AnimatedSprite.t) :
  player s = Some p -> keeps (hit_obstacles s) s.
Proof.
  intros Hp. unfold hit_obstacles, the_player. rewrite Hp. cbn [bind].
  match goal with
  | |- context [obstacle_impacts ?h ?s0] =>
      destruct (obstacle_impacts_keeps h s0 p Hp)
        as (s' & -> & Ha & Hc & Hb)
  end.
  exists s'. cbn in *. auto.
Qed.

Lemma distance_clock_spec (dt : Q) (s : GameView) (p : AnimatedSprite.t) :
  player s = Some p ->
  exists s',
    distance_clock dt s = Ok s' /\
    player s' = Some (AnimatedSprite.set_center_x
                        (AnimatedSprite.center_x p + speed s * dt) p) /\
    distance s' = distance s + speed s * dt * 0.6 /\
    score s' = score s + speed s * dt * 0.05 /\
    next_boss_at s' = next_boss_at s /\ speed s' = speed s /\
    same_boss_slot s s'.
Proof.
  intros Hp. unfold distance_clock, the_player. rewrite Hp. crunch.
Qed.

Lemma boss_spawn_spec (s : GameView) (p : AnimatedSprite.t) :
  player s = Some p ->
  exists s',
    boss_spawn s = Ok s' /\ alive s' /\
    distance s' = distance s /\ speed s' = speed s /\
    if negb (boss_active s) && Qle_bool (next_boss_at s) (distance s)
    then next_boss_at s' =
           next_boss_at s + DISTANCE_FOR_BOSS * (1 + distance s / 8000) /\
         boss_active s' = true /\ has_boss s' = true
    else s' = s.
Proof.
  intros Hp. unfold boss_spawn, spawn_boss, the_player.
  destruct (negb (boss_active s) && Qle_bool (next_boss_at s) (distance s)).
  - rewrite Hp. crunch. exact Hp.
  - crunch. exact Hp.
Qed.

Lemma lose_game_untouched (s : GameView) : untouched s (lose_game s).
Proof. crunch. Qed.

Lemma projectile_impacts_untouched (rnd : Draws) (hits : list Projectile.t)
    (k : nat) (s : GameView) (p : AnimatedSprite.t) :
  player s = Some p ->
  exists s', projectile_impacts rnd k hits s = Ok s' /\ untouched s s'.
Proof.
  revert k s. induction hits as [|h hs IH]; intros k s Hp.
  - crunch.
  - cbn [projectile_impacts]. unfold projectile_impact, the_player. cbn.
    rewrite Hp. cbn [bind].
    destruct (player_health s - hit_dmg rnd k <=? 0)%Z; cbn [bind];
      match goal with
      | |- context [projectile_impacts rnd (S k) hs ?s0] =>
          destruct (IH (S k) s0 Hp) as (s' & -> & H1 & H2 & H3 & H4 & H5 & H6)
      end; exists s'; cbn in *; unfold same_clock; repeat split;
      congruence.
Qed.

Lemma projectile_collisions_untouched (rnd : Draws) (s : GameView)
    (p : AnimatedSprite.t) :
  player s = Some p ->
  exists s', projectile_collisions rnd s = Ok s' /\ untouched s s'.
Proof.
  intros Hp. unfold projectile_collisions.
  destruct (projectiles s) as [|q qs] eqn:E; [crunch|].
  unfold the_player. rewrite Hp. cbn [bind].
  match goal with
  | |- context [projectile_impacts rnd 0 ?h ?s0] =>
      destruct (projectile_impacts_untouched rnd h 0 s0 p Hp)
        as (s' & -> & H1 & H2 & H3 & H4 & H5 & H6)
  end.
  exists s'. cbn in *. unfold same_clock. repeat split; congruence.
Qed.

Lemma win_boss_spec (s : GameView) (b : Boss.t) :
  boss s = Some b ->
  exists s',
    win_boss s = Ok s' /\ player s' = player s /\ same_clock s s' /\
    boss s' = None /\ boss_active s' = false.
Proof.
  intros Hb. unfold win_boss, the_boss, create_explosion. rewrite Hb.
  cbn [bind]. destruct (Emitter_new _ _); crunch.
Qed.

Lemma boss_depleted_spec (s : GameView) (p : AnimatedSprite.t) :
  player s = Some p -> boss_active s = has_boss s ->
  exists s',
    boss_depleted s = Ok s' /\ alive s' /\ same_clock s s' /\
    boss_active s' = has_boss s'.
Proof.
  intros Hp Hs. unfold boss_depleted.
  destruct (boss s) as [b|] eqn:Hb; [destruct (Boss.health b <=? 0)%Z|].
  - destruct (win_boss_spec s b Hb) as (s' & -> & H1 & H2 & H3 & H4).
    exists s'. split; [reflexivity|]. split; [exists p; congruence|].
    split; [exact H2|]. unfold has_boss. now rewrite H3, H4.
  - exists s. unfold same_clock. eauto 8.
  - exists s. unfold same_clock. eauto 8.
Qed.

Lemma boss_contact_spec (s : GameView) (p : AnimatedSprite.t) (b : Boss.t) :
  player s = Some p -> boss s = Some b -> boss_active s = true ->
  exists s',
    boss_contact s = Ok s' /\ alive s' /\ same_clock s s' /\
    boss_active s' = has_boss s'.
Proof.
  intros Hp Hb Ha. unfold boss_contact, the_player, the_boss.
  rewrite Hp, Hb. cbn [bind].
  destruct (check_for_collision _ _).
  2: { exists s. unfold same_clock, has_boss. rewrite Ha, Hb. eauto 8. }
  cbn. rewrite Hp, Hb. cbn.
  set (s0 := set_damage_popups _ _).
  assert (H0 : player s0 = player s /\ boss_active s0 = boss_active s /\
               same_clock s s0 /\
               boss s0 = Some (Boss.set_health (Boss.health b - 40)%Z b)).
  { subst s0. cbn. unfold same_clock. cbn. auto 8. }
  destruct H0 as (P0 & A0 & C0 & B0).
  set (s1 := if (_ <=? 0)%Z then lose_game s0 else s0).
  assert (H1 : untouched s0 s1).
  { subst s1. destruct (_ <=? 0)%Z; [apply lose_game_untouched|].
    unfold same_clock. auto 8. }
  destruct H1 as (P1 & B1 & A1 & C1).
  rewrite B1, B0. cbn [bind].
  pose proof (same_clock_trans _ _ _ C0 C1) as C. clearbody s1 s0.
  destruct (_ <=? 0)%Z.
  - destruct (win_boss_spec s1 _ (eq_trans B1 B0))
      as (s' & -> & H1 & H2 & H3 & H4).
    exists s'. split; [reflexivity|]. split; [exists p; congruence|].
    split; [|unfold has_boss; now rewrite H3, H4].
    exact (same_clock_trans _ _ _ C H2).
  - exists s1. split; [reflexivity|]. split; [exists p; congruence|].
    split; [exact C|]. unfold has_boss. rewrite B1, B0. congruence.
Qed.

Lemma boss_behavior_spec (dt : Q) (rnd : Draws) (s : GameView)
    (p : AnimatedSprite.t) :
  player s = Some p ->
  exists s',
    boss_behavior dt rnd s = Ok s' /\ alive s' /\ same_clock s s' /\
    (boss_active s = has_boss s -> boss_active s' = has_boss s').
Proof.
  intros Hp. unfold boss_behavior.
  destruct (boss_live s) eqn:E;
    [|exists s; unfold same_clock; eauto 8].
  apply boss_live_has in E. destruct E as (b & Hb & Ha).
  unfold the_boss, the_player. rewrite Hb, Hp. cbn [bind].
  destruct (update_behavior_phase dt (AnimatedSprite.center_x p)
              (projectiles s) (shot_jitter rnd) b)
    as (b' & projs' & -> & _).
  cbn [bind].
  match goal with
  | |- context [projectile_collisions rnd ?s0] =>
      destruct (projectile_collisions_untouched rnd s0 p Hp)
        as (s1 & -> & H1 & H2 & H3 & H4)
  end.
  cbn in H1, H2, H3, H4. cbn [bind].
  rewrite Hp in H1. rewrite Ha in H3.
  destruct (boss_contact_spec s1 p b' H1 H2 H3) as (s2 & -> & [p2 A2] & C2 & S2).
  cbn [bind].
  destruct (boss_depleted_spec s2 p2 A2 S2) as (s3 & -> & A3 & C3 & S3).
  exists s3. split; [reflexivity|]. split; [exact A3|].
  split; [|intros _; exact S3].
  apply (same_clock_trans s s1); [exact H4|].
  apply (same_clock_trans s1 s2); [exact C2|].
  apply (same_clock_trans s2 s2); [unfold same_clock; auto | exact C3].
Qed.

(** A tick of a live run, seen from the boss schedule: [s1] is the state
    the spawn test reads, [s2] the state after it. *)
Lemma on_update_live (dt : Q) (rnd : Draws) (s : GameView)
    (p : AnimatedSprite.t) :
  game_over s = false -> player s = Some p ->
  exists s1 s2 s',
    on_update dt rnd s = Ok s' /\ alive s' /\
    boss_spawn s1 = Ok s2 /\ alive s1 /\
    distance s1 = distance s + speed s * dt * 0.6 /\
    next_boss_at s1 = next_boss_at s /\ speed s1 = speed s /\
    same_boss_slot s s1 /\
    same_clock s2 s' /\
    (boss_active s2 = has_boss s2 -> boss_active s' = has_boss s').
Proof.
  intros Hgo Hp. unfold on_update. rewrite Hgo.
  destruct (animate_keeps dt s p Hp) as (a & -> & [pa Pa] & Ca & Ba).
  cbn [bind].
  set (c := cooldowns dt (update_explosions a)).
  assert (Hc : player c = Some pa /\ same_clock a c /\ same_boss_slot a c).
  { destruct (update_explosions_untouched a) as (U1 & U2 & U3 & U4).
    destruct (cooldowns_untouched dt (update_explosions a))
      as ((K1 & K2 & K3 & K4) & _).
    fold c in K1, K2, K3, K4. unfold same_boss_slot, has_boss.
    rewrite K1, K2, K3, U1, U2, U3. repeat split; auto.
    all: apply (same_clock_trans _ _ _ U4 K4). }
  destruct Hc as (Pc & Cc & Bc). clearbody c.
  destruct (distance_clock_spec dt c pa Pc)
    as (d & -> & Pd & Dd & _ & Nd & Sd & Bd).
  cbn [bind].
  destruct (spawn_timers_keeps dt rnd d _ Pd) as (e & -> & [pe Pe] & Ce & Be).
  cbn [bind].
  destruct (cleanup_keeps e pe Pe) as (f & -> & [pf Pf] & Cf & Bf).
  cbn [bind].
  destruct (collect_coins_keeps f pf Pf) as (g & -> & [pg Pg] & Cg & Bg).
  cbn [bind].
  destruct (hit_obstacles_keeps g pg Pg) as (h & -> & [ph Ph] & Ch & Bh).
  cbn [bind].
  destruct (boss_spawn_spec h ph Ph) as (i & Hi & [pi Pi] & Di & Si & Hsp).
  rewrite Hi. cbn [bind].
  destruct (boss_behavior_spec dt rnd i pi Pi) as (j & -> & [pj Pj] & Cj & Ij).
  cbn [bind].
  exists h, i. eexists. split; [reflexivity|].
  assert (Cdh : same_clock d h).
  { apply (same_clock_trans _ _ _ Ce). apply (same_clock_trans _ _ _ Cf).
    apply (same_clock_trans _ _ _ Cg Ch). }
  assert (Bsh : same_boss_slot s h).
  { apply (same_boss_slot_trans _ _ _ Ba).
    apply (same_boss_slot_trans _ _ _ Bc).
    apply (same_boss_slot_trans _ _ _ Bd).
    apply (same_boss_slot_trans _ _ _ Be).
    apply (same_boss_slot_trans _ _ _ Bf).
    apply (same_boss_slot_trans _ _ _ Bg Bh). }
  destruct Cdh as (D1 & D2 & D3). destruct Ca as (A1 & A2 & A3).
  destruct Cc as (K1 & K2 & K3).
  split; [exists pj; exact Pj|]. split; [exact Hi|].
  split; [exists ph; exact Ph|].
  split; [rewrite D1, Dd, K1, K3, A1, A3; reflexivity|].
  split; [rewrite D2, Nd, K2, A2; reflexivity|].
  split; [rewrite D3, Sd, K3, A3; reflexivity|].
  split; [exact Bsh|].
  split; [exact Cj|]. cbn. exact Ij.
Qed.

(** C5.  In every tick of a live run the boss threshold changes only when
    the boss spawns: the spawn test reads the distance the tick ends with,
    and when it fires (no boss active, distance at or past the threshold)
    the new threshold is the old one plus 2000 * (1 + distance / 8000),
    strictly larger than the old one whenever that distance is not
    negative; otherwise the threshold is kept. *)
Theorem next_boss_threshold_increases (dt : Q) (rnd : Draws) (s : GameView)
    (p : AnimatedSprite.t) :
  game_over s = false -> player s = Some p ->
  exists s',
    on_update dt rnd s = Ok s' /\
    let spawned :=
      negb (boss_active s) && Qle_bool (next_boss_at s) (distance s') in
    (spawned = true ->
       next_boss_at s' = next_boss_at s + 2000 * (1 + distance s' / 8000) /\
       (0 <= distance s' -> next_boss_at s < next_boss_at s')) /\
    (spawned = false -> next_boss_at s' = next_boss_at s).
Proof.
  intros Hgo Hp.
  destruct (on_update_live dt rnd s p Hgo Hp)
    as (s1 & s2 & s' & Hrun & _ & Hsp & [p1 P1] & D1 & N1 & _ & (B1 & _)
        & (D2 & N2 & _) & _).
  destruct (boss_spawn_spec s1 p1 P1) as (s2' & Hsp' & _ & D3 & _ & Hif).
  rewrite Hsp in Hsp'. injection Hsp' as <-.
  exists s'. split; [exact Hrun|]. cbv zeta.
  rewrite D2, D3, N2. rewrite B1, N1 in Hif.
  destruct (negb (boss_active s) && Qle_bool (next_boss_at s) (distance s1)).
  - destruct Hif as (Hn & _). split; [|discriminate]. intros _.
    rewrite Hn. split; [reflexivity|]. intros Hd.
    unfold DISTANCE_FOR_BOSS.
    assert (E : distance s1 / 8000 == distance s1 * (1 # 8000))
      by reflexivity.
    rewrite E. lra.
  - subst s2. split; [discriminate|]. intros _. exact N1.
Qed.

(** C4, as the code has it.  The distance clock has no guard on [dt]: for
    every [dt], positive, zero or negative, it moves the player by
    speed * dt, the distance by 0.6 * (speed * dt) and the score by
    0.05 * (speed * dt), which is no change exactly when that product is
    zero, as for [dt = 0].  The distance of a live run changes nowhere else
    in the tick, and a tick of a finished run leaves all three alone. *)
Theorem distance_clock_advances (dt : Q) (rnd : Draws) (s : GameView)
    (p : AnimatedSprite.t) :
  player s = Some p ->
  (exists s' p',
     distance_clock dt s = Ok s' /\ player s' = Some p' /\
     AnimatedSprite.center_x p' == AnimatedSprite.center_x p + speed s * dt /\
     distance s' == distance s + 0.6 * (speed s * dt) /\
     score s' == score s + 0.05 * (speed s * dt) /\
     (dt == 0 ->
      AnimatedSprite.center_x p' == AnimatedSprite.center_x p /\
      distance s' == distance s /\ score s' == score s)) /\
  (game_over s = false ->
   exists s', on_update dt rnd s = Ok s' /\
              distance s' == distance s + 0.6 * (speed s * dt)) /\
  (game_over s = true ->
   exists s', on_update dt rnd s = Ok s' /\ player s' = player s /\
              distance s' = distance s /\ score s' = score s).
Proof.
  intros Hp. repeat split.
  - destruct (distance_clock_spec dt s p Hp)
      as (s' & Hrun & Hp' & Hd & Hs & _).
    exists s'. eexists. split; [exact Hrun|]. split; [exact Hp'|].
    rewrite Hd, Hs. cbn.
    split; [lra|]. split; [lra|]. split; [lra|].
    intros H0. rewrite H0. repeat split; lra.
  - intros Hgo.
    destruct (on_update_live dt rnd s p Hgo Hp)
      as (s1 & s2 & s' & Hrun & _ & Hsp & [p1 P1] & D1 & _ & _ & _
          & (D2 & _) & _).
    destruct (boss_spawn_spec s1 p1 P1) as (s2' & Hsp' & _ & D3 & _).
    rewrite Hsp in Hsp'. injection Hsp' as <-.
    exists s'. split; [exact Hrun|]. rewrite D2, D3, D1. lra.
  - intros Hgo. unfold on_update. rewrite Hgo. eexists.
    split; [reflexivity|]. cbn. auto.
Qed.

Lemma set_explosions_same (s : GameView) : set_explosions (explosions s) s = s.
Proof. destruct s. reflexivity. Qed.

Lemma iter_shift {X} (f : X -> X) (n : nat) (x : X) :
  Nat.iter n f (f x) = f (Nat.iter n f x).
Proof. induction n as [|n IH]; simpl; [reflexivity | now rewrite IH]. Qed.

(** C2, as the code has it.  Once [game_over] is set, [on_update] returns
    before anything but the explosion emitters is touched: a tick, and so
    any run of ticks, leaves every field as it was, the damage popups
    included (they are neither aged nor dropped), and updates each explosion
    emitter once per tick. *)
Theorem game_over_freezes (ticks : list (Q * Draws)) (s : GameView) :
  game_over s = true ->
  (forall dt rnd,
     on_update dt rnd s
     = Ok (set_explosions (map Emitter_update (explosions s)) s)) /\
  exists s',
    run ticks s = Ok s' /\
    s' = set_explosions
           (Nat.iter (List.length ticks) (map Emitter_update) (explosions s))
           s /\
    damage_popups s' = damage_popups s /\ game_over s' = true.
Proof.
  intros Hgo. split.
  - intros dt rnd. unfold on_update. now rewrite Hgo.
  - revert s Hgo. induction ticks as [|[dt rnd] rest IH]; intros s Hgo.
    + exists s. cbn. rewrite set_explosions_same. auto.
    + cbn [run]. unfold on_update. rewrite Hgo. cbn [bind].
      destruct (IH (update_explosions s) Hgo) as (s' & Hrun & Hs' & Hp & Hg).
      exists s'. split; [exact Hrun|]. split; [|split; assumption].
      rewrite Hs'. cbn. now rewrite iter_shift.
Qed.

(** C6, as the code has it.  While the skill is cooling down the Skill key
    changes nothing at all.  Off cooldown, in a run that is set up and not
    over, it sets the cooldown to exactly 3.0.  In a finished run the key is
    ignored, whatever the cooldown. *)
Theorem skill_cooldown_gate (dmg : Z) (s : GameView) :
  (0 < skill_cd s -> on_key_press KEY_X dmg s = Ok s) /\
  (skill_cd s <= 0 -> game_over s = false -> player s <> None ->
   exists s', on_key_press KEY_X dmg s = Ok s' /\ skill_cd s' = 3.0) /\
  (game_over s = true -> on_key_press KEY_X dmg s = Ok s).
Proof.
  unfold on_key_press, skill. split; [|split].
  - intros Hcd. apply Qlt_not_le in Hcd. rewrite <- Qle_bool_iff in Hcd.
    apply not_true_is_false in Hcd. rewrite Hcd. now destruct (game_over s).
  - intros Hcd Hgo Hp. destruct (player s) as [p|] eqn:Hp'; [clear Hp|];
      [|now contradiction Hp].
    rewrite Hgo. apply Qle_bool_iff in Hcd. rewrite Hcd.
    destruct (boss_live _) eqn:E.
    + apply boss_live_has in E. cbn in E. destruct E as (b & Hb & _).
      unfold the_boss. cbn. rewrite Hb. cbn.
      destruct (_ <=? 0)%Z; [|eexists; split; reflexivity].
      unfold win_boss, the_boss, create_explosion. cbn.
      destruct (Emitter_new _ _); eexists; split; reflexivity.
    + cbn. destruct (obstacles s); [eexists; split; reflexivity|].
      unfold the_player. cbn. rewrite Hp'. eexists; split; reflexivity.
  - intros Hgo. now rewrite Hgo.
Qed.

(** C7, as the code has it.  In a run that is set up and not over, with no
    live boss and the skill off cooldown, the Skill key removes exactly the
    obstacles whose horizontal distance to the player is strictly below 220
    and keeps, in their order, those at 220 or more; coins, projectiles,
    health, score, the player and the boss slot are unchanged. *)
Theorem skill_clears_nearby_obstacles (dmg : Z) (s : GameView)
    (p : AnimatedSprite.t) :
  game_over s = false -> player s = Some p -> boss_live s = false ->
  skill_cd s <= 0 ->
  exists s',
    on_key_press KEY_X dmg s = Ok s' /\
    obstacles s' = filter (fun o => negb (in_skill_range p o)) (obstacles s) /\
    (forall o, In o (obstacles s') <->
               In o (obstacles s) /\
               220 <= Qabs (Sprite.center_x o - AnimatedSprite.center_x p)) /\
    coins s' = coins s /\ projectiles s' = projectiles s /\
    player_health s' = player_health s /\ score s' = score s /\
    player s' = player s /\ boss s' = boss s /\
    boss_active s' = boss_active s.
Proof.
  intros Hgo Hp Hb Hcd. unfold on_key_press, skill.
  apply Qle_bool_iff in Hcd. rewrite Hgo, Hcd.
  assert (Hb' : boss_live (set_skill_cd 3.0 s) = false) by exact Hb.
  rewrite Hb'. cbn.
  assert (Hin : forall l o,
             In o (filter (fun o => negb (in_skill_range p o)) l) <->
             In o l /\
             220 <= Qabs (Sprite.center_x o - AnimatedSprite.center_x p)).
  { intros l o. rewrite filter_In. unfold in_skill_range.
    rewrite negb_true_iff, Qltb_ge. reflexivity. }
  destruct (obstacles s) as [|o os] eqn:Eo.
  - exists (set_skill_cd 3.0 s). split; [reflexivity|]. cbn. rewrite Eo.
    split; [reflexivity|]. split; [intros o'; apply (Hin [])|].
    repeat split.
  - unfold the_player. cbn. rewrite Hp. cbn [bind].
    eexists. split; [reflexivity|]. cbn.
    split; [reflexivity|]. split; [intros o'; exact (Hin (o :: os) o')|].
    repeat split; congruence.
Qed.

Lemma repeat_spawn_obstacle_untouched (draw : nat -> Z) (ks : list nat)
    (s : GameView) (p : AnimatedSprite.t) :
  player s = Some p ->
  exists s',
    repeat_spawn (fun k => spawn_obstacle (draw k)) ks s = Ok s' /\
    untouched s s'.
Proof.
  revert s. induction ks as [|k ks IH]; intros s Hp.
  - exists s. unfold same_clock. auto 8.
  - cbn [repeat_spawn]. unfold spawn_obstacle, the_player. rewrite Hp.
    cbn [bind].
    match goal with
    | |- context [repeat_spawn _ ks ?s0] =>
        destruct (IH s0 Hp) as (s' & Hrun & H1 & H2 & H3 & H4 & H5 & H6)
    end.
    exists s'. split; [exact Hrun|].
    cbn in *. unfold same_clock. repeat split; congruence.
Qed.

Lemma repeat_spawn_coin_untouched (draw : nat -> Z * Z) (ks : list nat)
    (s : GameView) (p : AnimatedSprite.t) :
  player s = Some p ->
  exists s',
    repeat_spawn (fun k => spawn_coin (fst (draw k)) (snd (draw k))) ks s
    = Ok s' /\
    untouched s s'.
Proof.
  revert s. induction ks as [|k ks IH]; intros s Hp.
  - exists s. unfold same_clock. auto 8.
  - cbn [repeat_spawn]. unfold spawn_coin, the_player. rewrite Hp.
    cbn [bind].
    match goal with
    | |- context [repeat_spawn _ ks ?s0] =>
        destruct (IH s0 Hp) as (s' & Hrun & H1 & H2 & H3 & H4 & H5 & H6)
    end.
    exists s'. split; [exact Hrun|].
    cbn in *. unfold same_clock. repeat split; congruence.
Qed.

Lemma setup_slot (obs_draw : nat -> Z) (coin_draw : nat -> Z * Z)
    (s : GameView) :
  exists s',
    setup obs_draw coin_draw s = Ok s' /\ alive s' /\
    boss s' = boss s /\ boss_active s' = boss_active s.
Proof.
  unfold setup.
  match goal with
  | |- context [repeat_spawn _ (seq 0 6) ?s0] =>
      destruct (repeat_spawn_obstacle_untouched obs_draw (seq 0 6) s0 _
                  eq_refl) as (s1 & -> & P1 & B1 & A1 & _)
  end.
  cbn [bind].
  destruct (repeat_spawn_coin_untouched coin_draw (seq 0 5) s1 _ P1)
    as (s2 & -> & P2 & B2 & A2 & _).
  cbn [bind]. eexists. split; [reflexivity|]. cbn in *.
  split; [eexists; rewrite P2, P1; reflexivity|]. split; congruence.
Qed.

Lemma on_key_press_inv (key : Key) (dmg : Z) (s : GameView) :
  boss_inv s ->
  match on_key_press key dmg s with
  | Ok s' => boss_inv s'
  | Raise e => e = AttributeError attr_player /\ player s = None
  end.
Proof.
  intros Hinv. unfold on_key_press.
  destruct (game_over s); [exact Hinv|].
  destruct key; try exact Hinv.
  - unfold the_player. destruct (player s); cbn; [exact Hinv | auto].
  - unfold melee. destruct (boss_live s) eqn:E; [|exact Hinv].
    apply boss_live_has in E. destruct E as (b & Hb & Ha).
    unfold the_boss, the_player. rewrite Hb. cbn [bind].
    destruct (player s) as [p|]; cbn [bind]; [|auto].
    destruct (Qltb _ 140); [|exact Hinv]. cbn.
    destruct (_ <=? 0)%Z; unfold boss_inv, create_explosion;
      try destruct (Emitter_new _ _); cbn; rewrite ?Ha;
      intuition congruence.
  - unfold skill. destruct (Qle_bool (skill_cd s) 0); [|exact Hinv].
    destruct (boss_live _) eqn:E.
    + apply boss_live_has in E. cbn in E. destruct E as (b & Hb & Ha).
      unfold the_boss. cbn. rewrite Hb. cbn.
      destruct (_ <=? 0)%Z; unfold boss_inv, create_explosion;
        try destruct (Emitter_new _ _); cbn; rewrite ?Ha;
        intuition congruence.
    + cbn. destruct (obstacles s); [exact Hinv|].
      unfold the_player. cbn. destruct (player s); cbn; [exact Hinv | auto].
Qed.

Lemma on_update_inv (dt : Q) (rnd : Draws) (s : GameView) :
  boss_inv s ->
  match on_update dt rnd s with
  | Ok s' => boss_inv s'
  | Raise e => e = AttributeError attr_player /\ player s = None
  end.
Proof.
  intros Hinv. destruct (game_over s) eqn:Hgo.
  - unfold on_update. rewrite Hgo. exact Hinv.
  - destruct (player s) as [p|] eqn:Hp.
    + destruct (on_update_live dt rnd s p Hgo Hp)
        as (s1 & s2 & s' & -> & _ & Hsp & [p1 P1] & _ & _ & _ & (B1 & B2)
            & _ & Hi).
      destruct (boss_spawn_spec s1 p1 P1) as (s2' & Hsp' & _ & _ & _ & Hif).
      rewrite Hsp in Hsp'. injection Hsp' as <-.
      apply boss_inv_slot, Hi.
      destruct (negb (boss_active s1) && _).
      * destruct Hif as (_ & -> & ->). reflexivity.
      * subst s2. rewrite B1, B2. now apply boss_inv_slot.
    + unfold on_update, animate, the_player. rewrite Hgo, Hp. cbn. auto.
Qed.

(** C9.  [boss_active] is [True] exactly when [boss] holds a boss: the
    invariant holds of a new view and is kept by [setup], by every tick and
    by every key, and by [spawn_boss] and [win_boss] themselves.  A tick or a
    key press on a view that satisfies it never reads an attribute of a
    cleared boss: it returns, unless the view was not set up ([player] is
    still [None]). *)
Theorem boss_active_iff_boss (s : GameView) :
  boss_inv s ->
  (forall path file, boss_inv (GameView_init path file)) /\
  (forall obs_draw coin_draw,
     exists s', setup obs_draw coin_draw s = Ok s' /\ boss_inv s') /\
  (forall dt rnd,
     match on_update dt rnd s with
     | Ok s' => boss_inv s'
     | Raise e => e = AttributeError attr_player /\ player s = None
     end) /\
  (forall key dmg,
     match on_key_press key dmg s with
     | Ok s' => boss_inv s'
     | Raise e => e = AttributeError attr_player /\ player s = None
     end) /\
  match spawn_boss s with
  | Ok s' => boss_inv s'
  | Raise e => e = AttributeError attr_player /\ player s = None
  end /\
  match win_boss s with
  | Ok s' => boss_inv s'
  | Raise e => e = AttributeError attr_boss /\ boss s = None
  end.
Proof.
  intros Hinv. split; [|split; [|split; [|split; [|split]]]].
  - intros path file. unfold boss_inv. cbn. intuition congruence.
  - intros od cd. destruct (setup_slot od cd s) as (s' & Hrun & _ & Hb & Ha).
    exists s'. split; [exact Hrun|]. unfold boss_inv in *.
    now rewrite Hb, Ha.
  - intros dt rnd. now apply on_update_inv.
  - intros key dmg. now apply on_key_press_inv.
  - unfold spawn_boss, the_player. destruct (player s); cbn; [|auto].
    unfold boss_inv. cbn. intuition congruence.
  - unfold win_boss, the_boss, create_explosion.
    destruct (boss s); cbn; [|auto].
    destruct (Emitter_new _ _); unfold boss_inv; cbn; intuition congruence.
Qed.

(** The projectile path clamps: after a projectile hit the health is never
    negative. *)
Lemma projectile_impact_clamps (dmg : Z) (s : GameView)
    (p : AnimatedSprite.t) :
  player s = Some p ->
  exists s', projectile_impact dmg s = Ok s' /\ (0 <= player_health s')%Z.
Proof.
  intros Hp. unfold projectile_impact, the_player. cbn. rewrite Hp. cbn.
  destruct (player_health s - dmg <=? 0)%Z eqn:E.
  - eexists. split; [reflexivity|]. cbn. lia.
  - eexists. split; [reflexivity|]. cbn. apply Z.leb_gt in E. lia.
Qed.

End GameFacts.

(** ** The steps of a tick, one by one *)

Section StepFacts.
Context {A : Arcade}.

Local Arguments Z.add : simpl never.
Local Arguments Z.sub : simpl never.
Local Arguments Z.mul : simpl never.
Local Arguments Z.leb : simpl never.
Local Arguments Qplus : simpl never.
Local Arguments Qminus : simpl never.
Local Arguments Qmult : simpl never.
Local Arguments Qdiv : simpl never.
Local Arguments Qle_bool : simpl never.
Local Arguments Qltb : simpl never.
Local Arguments py_int : simpl never.
Local Arguments py_max : simpl never.

Lemma filter_twice {X} (f : X -> bool) (l : list X) :
  filter f (filter f l) = filter f l.
Proof.
  induction l as [|x xs IH]; [reflexivity|].
  simpl. destruct (f x) eqn:E; simpl; rewrite ?E, IH; reflexivity.
Qed.

(** X7.  [cleanup] removes exactly the obstacles and coins that are more
    than 900 behind the player and keeps the others in their order; doing
    it again changes nothing. *)
Theorem cleanup_reaps_behind (s : GameView) (p : AnimatedSprite.t) :
  player s = Some p ->
  exists s',
    cleanup s = Ok s' /\ cleanup s' = Ok s' /\
    obstacles s' = filter (fun o => negb (behind p o)) (obstacles s) /\
    coins s' = filter (fun c => negb (behind p c)) (coins s) /\
    (forall o, In o (obstacles s') <->
               In o (obstacles s) /\
               AnimatedSprite.center_x p - 900 <= Sprite.center_x o) /\
    (forall c, In c (coins s') <->
               In c (coins s) /\
               AnimatedSprite.center_x p - 900 <= Sprite.center_x c).
Proof.
  intros Hp. unfold cleanup at 1. unfold the_player. rewrite Hp.
  cbn [bind]. eexists. split; [reflexivity|]. split.
  - unfold cleanup, the_player. cbn. rewrite Hp. cbn.
    rewrite !filter_twice. reflexivity.
  - cbn. split; [reflexivity|]. split; [reflexivity|].
    split; intros o; rewrite filter_In; unfold behind;
      rewrite negb_true_iff, Qltb_ge; reflexivity.
Qed.

Lemma coin_scores_total (hit : list Sprite.t) (s : GameView) :
  score (fold_left (fun s _ => set_score (score s + 25) s) hit s)
  == score s + 25 * inject_Z (Z.of_nat (List.length hit)).
Proof.
  revert s. induction hit as [|c cs IH]; intros s.
  - cbn [fold_left List.length]. change (inject_Z (Z.of_nat 0)) with 0. lra.
  - cbn [fold_left]. rewrite IH. cbn [score set_score List.length].
    rewrite Nat2Z.inj_succ, <- Z.add_1_r, inject_Z_plus.
    change (inject_Z 1) with 1. lra.
Qed.

Lemma coin_scores_frame (hit : list Sprite.t) (s : GameView) :
  let s' := fold_left (fun s _ => set_score (score s + 25) s) hit s in
  coins s' = coins s /\ obstacles s' = obstacles s /\
  player_health s' = player_health s.
Proof.
  revert s. induction hit as [|c cs IH]; intros s; [repeat split|].
  cbn [fold_left]. destruct (IH (set_score (score s + 25) s)) as (H1 & H2 & H3).
  cbn in H1, H2, H3. repeat split; assumption.
Qed.

Lemma filter_none_keeps_all {X} (f : X -> bool) (l : list X) :
  filter f l = [] -> filter (fun x => negb (f x)) l = l.
Proof.
  induction l as [|x xs IH]; [reflexivity|].
  simpl. destruct (f x); [discriminate|]. simpl. intros E. now rewrite IH.
Qed.

Lemma set_coins_same (s : GameView) : set_coins (coins s) s = s.
Proof. destruct s. reflexivity. Qed.

(** X8.  [collect_coins] removes exactly the coins that overlap the player,
    keeps the others in their order and adds 25 to the score for each coin
    removed; with no coin under the player nothing changes. *)
Theorem collect_coins_scores (s : GameView) (p : AnimatedSprite.t) :
  player s = Some p ->
  let me := AnimatedSprite.as_sprite p in
  let hit := filter (check_for_collision me) (coins s) in
  exists s',
    collect_coins s = Ok s' /\
    coins s' = filter (fun c => negb (check_for_collision me c)) (coins s) /\
    score s' == score s + 25 * inject_Z (Z.of_nat (List.length hit)) /\
    (hit = [] -> s' = s) /\
    obstacles s' = obstacles s /\ player_health s' = player_health s.
Proof.
  intros Hp me hit. unfold collect_coins, the_player. rewrite Hp.
  cbn [bind]. eexists. split; [reflexivity|].
  unfold check_for_collision_with_list, without_hits. fold me. fold hit.
  set (s0 := set_coins _ s).
  destruct (coin_scores_frame hit s0) as (H1 & H2 & H3).
  cbv zeta in H1, H2, H3. rewrite H1, H2, H3, coin_scores_total.
  split; [reflexivity|]. split; [reflexivity|]. split; [|split; reflexivity].
  intros E. rewrite E. cbn [fold_left]. subst s0.
  rewrite (filter_none_keeps_all _ _ E). apply set_coins_same.
Qed.

Lemma py_max_floor (a b : Q) :
  a <= py_max a b /\ b <= py_max a b /\ (py_max a b = a \/ py_max a b = b).
Proof.
  split; [apply py_max_upper|]. split; [apply py_max_lower|].
  unfold py_max. destruct (Qltb a b); auto.
Qed.

Lemma set_obstacles_same (s : GameView) : set_obstacles (obstacles s) s = s.
Proof. destruct s. reflexivity. Qed.

Lemma obstacle_impacts_bounds (hit : list Sprite.t) (s : GameView)
    (p : AnimatedSprite.t) :
  player s = Some p ->
  exists s' p',
    obstacle_impacts hit s = Ok s' /\ player s' = Some p' /\
    AnimatedSprite.center_y p' = AnimatedSprite.center_y p /\
    obstacles s' = obstacles s /\ coins s' = coins s /\
    player_health s' = player_health s /\
    (hit = [] -> s' = s) /\
    (hit <> [] -> 0 <= score s' /\ 200 <= AnimatedSprite.center_x p') /\
    (0 <= score s -> 0 <= score s' /\ score s' <= score s) /\
    (200 <= AnimatedSprite.center_x p ->
     200 <= AnimatedSprite.center_x p' /\
     AnimatedSprite.center_x p' <= AnimatedSprite.center_x p).
Proof.
  revert s p. induction hit as [|o os IH]; intros s p Hp.
  - exists s, p. split; [reflexivity|]. split; [exact Hp|].
    repeat split; try reflexivity; try congruence; try assumption;
      apply Qle_refl.
  - cbn [obstacle_impacts]. unfold obstacle_impact, the_player. cbn.
    rewrite Hp. cbn [bind].
    set (x1 := py_max 200 (AnimatedSprite.center_x p - 140)).
    set (sc1 := py_max 0 (score s - 40)).
    destruct (py_max_floor 200 (AnimatedSprite.center_x p - 140))
      as (X1 & X2 & X3). fold x1 in X1, X2, X3.
    destruct (py_max_floor 0 (score s - 40)) as (S1 & S2 & S3).
    fold sc1 in S1, S2, S3.
    match goal with
    | |- context [obstacle_impacts os ?s0] =>
        destruct (IH s0 _ eq_refl)
          as (s' & p' & Hrun & Hp' & Hy & Ho & Hc & Hh & _ & _ & Hsc & Hx)
    end.
    cbn in Hy, Ho, Hc, Hh, Hsc, Hx. fold sc1 in Hsc. fold x1 in Hx.
    exists s', p'. split; [exact Hrun|]. split; [exact Hp'|].
    split; [exact Hy|]. split; [exact Ho|]. split; [exact Hc|].
    split; [exact Hh|]. split; [discriminate|].
    destruct (Hsc S1) as [Hs0 Hs1]. destruct (Hx X1) as [Hx0 Hx1].
    split; [auto|]. split.
    + intros H0. split; [exact Hs0|].
      destruct S3 as [E|E]; rewrite E in Hs1; lra.
    + intros H0. split; [exact Hx0|].
      destruct X3 as [E|E]; rewrite E in Hx1; lra.
Qed.

(** X9.  [hit_obstacles] removes exactly the obstacles that overlap the
    player.  When at least one is hit the score ends at 0 or above and the
    player at 200 or beyond; the score never rises and the player never
    moves forward (from a score and a position that respect those floors);
    health, coins and the player's height are untouched, and without a hit
    nothing changes. *)
Theorem hit_obstacles_floors (s : GameView) (p : AnimatedSprite.t) :
  player s = Some p ->
  let me := AnimatedSprite.as_sprite p in
  let hit := filter (check_for_collision me) (obstacles s) in
  exists s' p',
    hit_obstacles s = Ok s' /\ player s' = Some p' /\
    obstacles s'
    = filter (fun o => negb (check_for_collision me o)) (obstacles s) /\
    AnimatedSprite.center_y p' = AnimatedSprite.center_y p /\
    coins s' = coins s /\ player_health s' = player_health s /\
    (hit = [] -> s' = s) /\
    (hit <> [] -> 0 <= score s' /\ 200 <= AnimatedSprite.center_x p') /\
    (0 <= score s -> 0 <= score s' /\ score s' <= score s) /\
    (200 <= AnimatedSprite.center_x p ->
     200 <= AnimatedSprite.center_x p' /\
     AnimatedSprite.center_x p' <= AnimatedSprite.center_x p).
Proof.
  intros Hp me hit. unfold hit_obstacles, the_player. rewrite Hp.
  cbn [bind]. unfold check_for_collision_with_list, without_hits.
  fold me. fold hit. set (s0 := set_obstacles _ s).
  destruct (obstacle_impacts_bounds hit s0 p Hp)
    as (s' & p' & Hrun & Hp' & Hy & Ho & Hc & Hh & Hnil & Hne & Hsc & Hx).
  exists s', p'. split; [exact Hrun|]. split; [exact Hp'|].
  split; [exact Ho|]. split; [exact Hy|]. split; [exact Hc|].
  split; [exact Hh|]. split; [|split; [exact Hne|split; assumption]].
  intros E. rewrite (Hnil E). subst s0.
  rewrite (filter_none_keeps_all _ _ E). apply set_obstacles_same.
Qed.

Lemma spawn_timers_spec (dt : Q) (rnd : Draws) (s : GameView)
    (p : AnimatedSprite.t) :
  player s = Some p ->
  exists s',
    spawn_timers dt rnd s = Ok s' /\
    obstacles s'
    = (if obstacle_due dt s
       then obstacles s ++
            [Sprite.mk
               (inject_Z (py_int (AnimatedSprite.center_x p
                                  + inject_Z (obstacle_dx rnd))))
               200 ("assets/obstacle.png"%string, 0%Z)]
       else obstacles s) /\
    obstacle_timer s'
    = (if obstacle_due dt s then 0 else obstacle_timer s + dt) /\
    coins s'
    = (if coin_due dt s
       then coins s ++
            [Sprite.mk
               (inject_Z (py_int (AnimatedSprite.center_x p
                                  + inject_Z (coin_dx rnd))))
               (inject_Z (coin_y rnd)) ("assets/coin.png"%string, 0%Z)]
       else coins s) /\
    coin_timer s' = (if coin_due dt s then 0 else coin_timer s + dt).
Proof.
  intros Hp. unfold spawn_timers, obstacle_due, coin_due.
  unfold spawn_obstacle, spawn_coin, the_player. cbn. rewrite Hp. cbn.
  destruct (Qltb _ (obstacle_timer s + dt)); cbn; rewrite ?Hp; cbn;
    destruct (Qltb _ (coin_timer s + dt)); cbn; rewrite ?Hp; cbn;
    eexists; (split; [reflexivity|]); cbn; repeat split; reflexivity.
Qed.

Lemma due_bounds (floor top rate timer d : Q) :
  0 < rate ->
  (timer <= floor -> Qltb (py_max floor (top - d / rate)) timer = false) /\
  (0 <= d -> floor <= top -> top < timer ->
   Qltb (py_max floor (top - d / rate)) timer = true) /\
  (forall d', d <= d' ->
     Qltb (py_max floor (top - d / rate)) timer = true ->
     Qltb (py_max floor (top - d' / rate)) timer = true).
Proof.
  intros Hr.
  assert (Hdiv : forall a b, a <= b -> a / rate <= b / rate).
  { intros a b Hab. apply Qle_shift_div_l; [exact Hr|].
    assert (E : a / rate * rate == a) by (field; lra). rewrite E. exact Hab. }
  split; [|split].
  - intros Ht. apply Qltb_ge.
    destruct (py_max_floor floor (top - d / rate)) as (H1 & _). lra.
  - intros Hd Hft Ht. apply Qltb_lt.
    pose proof (Hdiv 0 d Hd) as H0.
    assert (E0 : 0 / rate == 0) by (field; lra). rewrite E0 in H0.
    destruct (py_max_floor floor (top - d / rate)) as (_ & _ & [E|E]);
      rewrite E; lra.
  - intros d' Hd Hdue. apply Qltb_lt in Hdue. apply Qltb_lt.
    pose proof (Hdiv d d' Hd) as H0.
    destruct (py_max_floor floor (top - d / rate)) as (F1 & F2 & _).
    destruct (py_max_floor floor (top - d' / rate)) as (_ & _ & [E|E]);
      rewrite E; lra.
Qed.

(** X10.  [spawn_timers] spawns at most one obstacle and one coin per tick,
    each appended behind the ones already there.  No obstacle is spawned
    while its timer has not passed 0.6 seconds, and no coin before 0.8,
    whatever the distance; at a distance of 0 or more an obstacle is always
    spawned once the timer has passed 2.4 seconds, a coin once it has
    passed 2.3.  A timer is back at 0 exactly when its spawn happened. *)
Theorem spawn_timers_cadence (dt : Q) (rnd : Draws) (s : GameView)
    (p : AnimatedSprite.t) :
  player s = Some p ->
  exists s' new_obs new_coins,
    spawn_timers dt rnd s = Ok s' /\
    obstacles s' = obstacles s ++ new_obs /\
    coins s' = coins s ++ new_coins /\
    (List.length new_obs <= 1)%nat /\ (List.length new_coins <= 1)%nat /\
    (new_obs = [] -> obstacle_timer s' = obstacle_timer s + dt) /\
    (new_obs <> [] -> obstacle_timer s' = 0) /\
    (new_coins = [] -> coin_timer s' = coin_timer s + dt) /\
    (new_coins <> [] -> coin_timer s' = 0) /\
    (obstacle_timer s + dt <= 0.6 -> new_obs = []) /\
    (coin_timer s + dt <= 0.8 -> new_coins = []) /\
    (0 <= distance s -> 2.4 < obstacle_timer s + dt -> new_obs <> []) /\
    (0 <= distance s -> 2.3 < coin_timer s + dt -> new_coins <> []).
Proof.
  intros Hp.
  destruct (spawn_timers_spec dt rnd s p Hp)
    as (s' & Hrun & Ho & Hot & Hc & Hct).
  destruct (due_bounds 0.6 2.4 8000 (obstacle_timer s + dt) (distance s))
    as (OF & OT & _); [reflexivity|].
  destruct (due_bounds 0.8 2.3 9000 (coin_timer s + dt) (distance s))
    as (CF & CT & _); [reflexivity|].
  fold (obstacle_due dt s) in OF, OT. fold (coin_due dt s) in CF, CT.
  exists s'.
  destruct (obstacle_due dt s); destruct (coin_due dt s);
    eexists; eexists; (split; [exact Hrun|]);
    (split; [rewrite Ho; try reflexivity; symmetry; apply app_nil_r|]);
    (split; [rewrite Hc; try reflexivity; symmetry; apply app_nil_r|]);
    cbn [List.length];
    (split; [lia|]); (split; [lia|]);
    (split; [first [discriminate | intros _; exact Hot]|]);
    (split; [first [congruence | intros _; exact Hot]|]);
    (split; [first [discriminate | intros _; exact Hct]|]);
    (split; [first [congruence | intros _; exact Hct]|]);
    (split; [intros H; first [reflexivity | specialize (OF H); discriminate]|]);
    (split; [intros H; first [reflexivity | specialize (CF H); discriminate]|]);
    (split; [intros H1 H2;
             first [discriminate
                   | assert (E : 0.6 <= 2.4) by (unfold Qle; simpl; lia);
                     specialize (OT H1 E H2); discriminate]|]);
    intros H1 H2;
    first [discriminate
          | assert (E : 0.8 <= 2.3) by (unfold Qle; simpl; lia);
            specialize (CT H1 E H2); discriminate].
Qed.

(** X11.  The spawn cadence only tightens with distance: if a tick spawns
    an obstacle (a coin) in some state, the same tick spawns one in every
    state that differs only by a greater distance. *)
Theorem spawn_cadence_tightens (dt : Q) (rnd : Draws) (s : GameView)
    (d' : Q) (p : AnimatedSprite.t) :
  player s = Some p -> distance s <= d' ->
  exists s1 s2,
    spawn_timers dt rnd s = Ok s1 /\
    spawn_timers dt rnd (set_distance d' s) = Ok s2 /\
    (List.length (obstacles s) < List.length (obstacles s1) ->
     List.length (obstacles s) < List.length (obstacles s2))%nat /\
    (List.length (coins s) < List.length (coins s1) ->
     List.length (coins s) < List.length (coins s2))%nat.
Proof.
  intros Hp Hd.
  destruct (spawn_timers_spec dt rnd s p Hp) as (s1 & H1 & O1 & _ & C1 & _).
  destruct (spawn_timers_spec dt rnd (set_distance d' s) p Hp)
    as (s2 & H2 & O2 & _ & C2 & _).
  exists s1, s2. split; [exact H1|]. split; [exact H2|].
  destruct (due_bounds 0.6 2.4 8000 (obstacle_timer s + dt) (distance s))
    as (_ & _ & OM); [reflexivity|].
  destruct (due_bounds 0.8 2.3 9000 (coin_timer s + dt) (distance s))
    as (_ & _ & CM); [reflexivity|].
  specialize (OM d' Hd). specialize (CM d' Hd).
  fold (obstacle_due dt s) in OM. fold (coin_due dt s) in CM.
  rewrite O1, O2, C1, C2. cbn [obstacles coins set_distance].
  unfold obstacle_due at 2, coin_due at 2.
  cbn [distance obstacle_timer coin_timer set_distance].
  destruct (obstacle_due dt s); destruct (coin_due dt s);
    rewrite ?(OM eq_refl), ?(CM eq_refl), ?length_app; cbn [List.length];
    split; intros; lia.
Qed.



(** X13.  The skill on a live boss, off cooldown in a run that is not over:
    the boss loses exactly 40 + int(distance / 1000), a popup with that
    number is queued above the boss, and no obstacle is touched.  If health
    is left the boss stays and the score is unchanged; if not, the boss is
    cleared and the score grows by 700. *)
Theorem skill_hits_boss (dmg0 : Z) (s : GameView) (b : Boss.t) :
  game_over s = false -> boss_active s = true -> boss s = Some b ->
  skill_cd s <= 0 ->
  let dmg := (40 + py_int (distance s / 1000))%Z in
  exists s',
    on_key_press KEY_X dmg0 s = Ok s' /\ skill_cd s' = 3.0 /\
    obstacles s' = obstacles s /\ player_health s' = player_health s /\
    damage_popups s'
    = damage_popups s ++ [(Boss.center_x b, Boss.center_y b + 100, dmg, 1.2)] /\
    ((0 < Boss.health b - dmg)%Z ->
     boss s' = Some (Boss.set_health (Boss.health b - dmg) b) /\
     boss_active s' = true /\ score s' = score s) /\
    ((Boss.health b - dmg <= 0)%Z ->
     boss s' = None /\ boss_active s' = false /\ score s' = score s + 700).
Proof.
  intros Hgo Ha Hb Hcd. cbv zeta. unfold on_key_press, skill.
  apply Qle_bool_iff in Hcd. rewrite Hgo, Hcd.
  assert (Hl : boss_live (set_skill_cd 3.0 s) = true)
    by (unfold boss_live; cbn; now rewrite Ha, Hb).
  rewrite Hl. unfold the_boss. cbn. rewrite Hb. cbn.
  destruct (Boss.health b - _ <=? 0)%Z eqn:E.
  - apply Z.leb_le in E. unfold win_boss, the_boss, create_explosion. cbn.
    destruct (Emitter_new _ _); eexists; (split; [reflexivity|]); cbn;
      repeat split; try reflexivity; intros;
      first [assumption | exfalso; lia].
  - apply Z.leb_gt in E. eexists. split; [reflexivity|]. cbn.
    repeat split; try reflexivity; intros;
      first [assumption | exfalso; lia].
Qed.

(** X14.  The punch.  Without a live boss, or with the boss 140 or more
    away, it changes nothing.  In range the boss loses exactly the damage
    drawn and a popup with it is queued: the boss stays if health is left,
    and is cleared with 700 added to the score if not.  The cooldown of the
    skill plays no part. *)
Theorem melee_hits_boss (dmg : Z) (s : GameView) (p : AnimatedSprite.t) :
  game_over s = false -> player s = Some p ->
  (boss_live s = false -> on_key_press KEY_Z dmg s = Ok s) /\
  (forall b,
     boss_active s = true -> boss s = Some b ->
     let gap := Qabs (Boss.center_x b - AnimatedSprite.center_x p) in
     (140 <= gap -> on_key_press KEY_Z dmg s = Ok s) /\
     (gap < 140 ->
      exists s',
        on_key_press KEY_Z dmg s = Ok s' /\
        skill_cd s' = skill_cd s /\ player_health s' = player_health s /\
        damage_popups s'
        = damage_popups s
          ++ [(Boss.center_x b, Boss.center_y b + 100, dmg, 0.9)] /\
        ((0 < Boss.health b - dmg)%Z ->
         boss s' = Some (Boss.set_health (Boss.health b - dmg) b) /\
         boss_active s' = true /\ score s' = score s) /\
        ((Boss.health b - dmg <= 0)%Z ->
         boss s' = None /\ boss_active s' = false /\
         score s' = score s + 700))).
Proof.
  intros Hgo Hp. unfold on_key_press, melee. rewrite Hgo. split.
  - intros Hl. now rewrite Hl.
  - intros b Ha Hb. cbv zeta.
    assert (Hl : boss_live s = true)
      by (unfold boss_live; now rewrite Ha, Hb).
    rewrite Hl. unfold the_boss, the_player. rewrite Hb, Hp. cbn [bind].
    split.
    + intros Hfar. apply Qltb_ge in Hfar. now rewrite Hfar.
    + intros Hnear. apply Qltb_lt in Hnear. rewrite Hnear. cbn.
      rewrite ?Hb. cbn.
      destruct (Boss.health b - dmg <=? 0)%Z eqn:E.
      * apply Z.leb_le in E. unfold win_boss, the_boss, create_explosion.
        cbn. destruct (Emitter_new _ _); eexists; (split; [reflexivity|]);
          cbn; repeat split; try reflexivity; intros;
      first [assumption | exfalso; lia].
      * apply Z.leb_gt in E. eexists. split; [reflexivity|]. cbn.
        repeat split; try reflexivity; intros;
      first [assumption | exfalso; lia].
Qed.

End StepFacts.

(** ** Whole ticks and whole runs *)

Section RunFacts.
Context {A : Arcade}.

Local Arguments Z.add : simpl never.
Local Arguments Z.sub : simpl never.
Local Arguments Z.mul : simpl never.
Local Arguments Z.leb : simpl never.
Local Arguments Qplus : simpl never.
Local Arguments Qminus : simpl never.
Local Arguments Qmult : simpl never.
Local Arguments Qdiv : simpl never.
Local Arguments Qle_bool : simpl never.
Local Arguments Qltb : simpl never.
Local Arguments py_int : simpl never.
Local Arguments py_max : simpl never.

Lemma update_animation_height (dt : Q) (a : AnimatedSprite.t) :
  AnimatedSprite.center_y (AnimatedSprite.update_animation dt a)
  = AnimatedSprite.center_y a.
Proof.
  unfold AnimatedSprite.update_animation. now destruct (Qle_bool _ _).
Qed.

Ltac quiet_goal :=
  unfold quiet_step, same_settings, same_fate, height; cbn;
  repeat match goal with
         | H : player _ = _ |- _ => rewrite H
         end;
  cbn; rewrite ?update_animation_height; repeat split; reflexivity.

Lemma quiet_step_refl (s : GameView) : quiet_step s s.
Proof. quiet_goal. Qed.

Lemma quiet_step_trans (s1 s2 s3 : GameView) :
  quiet_step s1 s2 -> quiet_step s2 s3 -> quiet_step s1 s3.
Proof.
  unfold quiet_step, same_settings, same_fate.
  intuition congruence.
Qed.

Lemma animate_quiet (dt : Q) (s s' : GameView) :
  animate dt s = Ok s' -> quiet_step s s' /\ score s' = score s.
Proof.
  unfold animate, the_player, the_boss. intros H.
  destruct (player s) as [p|] eqn:Hp; [|discriminate]. cbn [bind] in H.
  destruct (boss_live _); [|injection H as <-; split; [quiet_goal|reflexivity]].
  cbn in H. destruct (boss s); [|discriminate]. cbn in H.
  injection H as <-. split; [quiet_goal | reflexivity].
Qed.

Lemma effects_quiet (dt : Q) (s : GameView) :
  let s' := cooldowns dt (update_explosions s) in
  same_settings s s' /\ same_fate s s' /\ height s' = height s /\
  score s' = score s /\ player s' = player s /\
  skill_cd s' = skill_cd (cooldowns dt s).
Proof.
  unfold cooldowns, update_explosions. cbn.
  destruct (Qltb 0 (skill_cd s)); unfold same_settings, same_fate, height;
    cbn; repeat split; reflexivity.
Qed.

Lemma distance_clock_quiet (dt : Q) (s s' : GameView) :
  distance_clock dt s = Ok s' ->
  quiet_step s s' /\ score s' = score s + speed s * dt * 0.05.
Proof.
  unfold distance_clock, the_player. intros H.
  destruct (player s) as [p|] eqn:Hp; [|discriminate]. cbn [bind] in H.
  injection H as <-. split; [quiet_goal | reflexivity].
Qed.

Lemma spawn_timers_quiet (dt : Q) (rnd : Draws) (s s' : GameView) :
  spawn_timers dt rnd s = Ok s' -> quiet_step s s' /\ score s' = score s.
Proof.
  unfold spawn_timers, spawn_obstacle, spawn_coin, the_player. cbn.
  intros H. destruct (player s) as [p|] eqn:Hp.
  - destruct (Qltb _ (obstacle_timer s + dt)); cbn in H; rewrite ?Hp in H;
      cbn in H; destruct (Qltb _ (coin_timer s + dt)); cbn in H;
      rewrite ?Hp in H; cbn in H; injection H as <-;
      (split; [quiet_goal | reflexivity]).
  - destruct (Qltb _ (obstacle_timer s + dt)); cbn in H; rewrite ?Hp in H;
      cbn in H; try discriminate;
      destruct (Qltb _ (coin_timer s + dt)); cbn in H;
      rewrite ?Hp in H; cbn in H; try discriminate; injection H as <-;
      (split; [quiet_goal | reflexivity]).
Qed.

Lemma cleanup_quiet (s s' : GameView) :
  cleanup s = Ok s' -> quiet_step s s' /\ score s' = score s.
Proof.
  unfold cleanup, the_player. intros H.
  destruct (player s) as [p|] eqn:Hp; [|discriminate]. cbn [bind] in H.
  injection H as <-. split; [quiet_goal | reflexivity].
Qed.

Lemma coin_fold_form (hit : list Sprite.t) (s : GameView) :
  exists x,
    fold_left (fun s _ => set_score (score s + 25) s) hit s = set_score x s /\
    (0 <= score s -> 0 <= x).
Proof.
  revert s. induction hit as [|c cs IH]; intros s.
  - exists (score s). split; [destruct s; reflexivity | auto].
  - cbn [fold_left]. destruct (IH (set_score (score s + 25) s)) as (x & -> & Hx).
    exists x. split; [reflexivity|]. intros H0. apply Hx. cbn. lra.
Qed.

Lemma collect_coins_quiet (s s' : GameView) :
  collect_coins s = Ok s' ->
  quiet_step s s' /\ (0 <= score s -> 0 <= score s').
Proof.
  unfold collect_coins, the_player. intros H.
  destruct (player s) as [p|] eqn:Hp; [|discriminate]. cbn [bind] in H.
  match type of H with
  | Ok (fold_left _ ?h ?s0) = _ =>
      destruct (coin_fold_form h s0) as (x & E & Hx); rewrite E in H
  end.
  injection H as <-. split; [quiet_goal | exact Hx].
Qed.

Lemma obstacle_impacts_form (hit : list Sprite.t) (s : GameView)
    (p : AnimatedSprite.t) :
  player s = Some p ->
  exists x p',
    obstacle_impacts hit s = Ok (set_player (Some p') (set_score x s)) /\
    AnimatedSprite.center_y p' = AnimatedSprite.center_y p /\
    (0 <= score s -> 0 <= x).
Proof.
  revert s p. induction hit as [|o os IH]; intros s p Hp.
  - exists (score s), p. split; [|auto]. cbn. rewrite <- Hp.
    destruct s; reflexivity.
  - cbn [obstacle_impacts]. unfold obstacle_impact, the_player. cbn.
    rewrite Hp. cbn [bind].
    match goal with
    | |- context [obstacle_impacts os ?s0] =>
        destruct (IH s0 _ eq_refl) as (x & p' & -> & Hy & Hx)
    end.
    exists x, p'. split; [reflexivity|]. split; [exact Hy|].
    intros _. apply Hx. cbn. apply py_max_upper.
Qed.

Lemma hit_obstacles_quiet (s s' : GameView) :
  hit_obstacles s = Ok s' ->
  quiet_step s s' /\ (0 <= score s -> 0 <= score s').
Proof.
  unfold hit_obstacles, the_player. intros H.
  destruct (player s) as [p|] eqn:Hp; [|discriminate]. cbn [bind] in H.
  match type of H with
  | obstacle_impacts ?h ?s0 = _ =>
      destruct (obstacle_impacts_form h s0 p Hp) as (x & p' & E & Hy & Hx);
        rewrite E in H
  end.
  injection H as <-. split; [|exact Hx].
  unfold quiet_step, same_settings, same_fate, height. cbn.
  rewrite Hp. cbn. rewrite Hy. repeat split; reflexivity.
Qed.

Lemma boss_spawn_quiet (s s' : GameView) :
  boss_spawn s = Ok s' -> quiet_step s s' /\ score s' = score s.
Proof.
  unfold boss_spawn, spawn_boss, the_player. intros H.
  destruct (negb (boss_active s) && _);
    [|injection H as <-; split; [quiet_goal | reflexivity]].
  destruct (player s) as [p|] eqn:Hp; [|discriminate]. cbn in H.
  injection H as <-. split; [quiet_goal | reflexivity].
Qed.

(** *** The boss block *)

Lemma only_boss_block_refl (s : GameView) : only_boss_block s s.
Proof. unfold only_boss_block. destruct s. reflexivity. Qed.

Lemma only_boss_block_trans (s1 s2 s3 : GameView) :
  only_boss_block s1 s2 -> only_boss_block s2 s3 -> only_boss_block s1 s3.
Proof.
  unfold only_boss_block. intros E1 E2.
  change (before_boss_block s1 s3)
    with (before_boss_block s1 (before_boss_block s2 s3)).
  rewrite E2. exact E1.
Qed.

Lemma only_boss_block_fields (s s' : GameView) :
  only_boss_block s s' ->
  player s' = player s /\ same_settings s s' /\ skill_cd s' = skill_cd s /\
  height s' = height s /\ same_clock s s' /\
  obstacles s' = obstacles s /\ coins s' = coins s.
Proof.
  unfold only_boss_block. intros E.
  pose proof (f_equal player E) as H1. pose proof (f_equal skill_cd E) as H2.
  pose proof (f_equal player_max_health E) as H3.
  pose proof (f_equal sprite_path E) as H4.
  pose proof (f_equal paused E) as H5. pose proof (f_equal speed E) as H6.
  pose proof (f_equal distance E) as H7.
  pose proof (f_equal next_boss_at E) as H8.
  pose proof (f_equal obstacles E) as H9. pose proof (f_equal coins E) as H10.
  cbn in *. unfold same_settings, same_clock, height. rewrite H1.
  repeat split; assumption.
Qed.

Lemma fate_moves_refl (s : GameView) : fate_moves s s.
Proof. left. repeat split. Qed.

Lemma fate_moves_trans (s1 s2 s3 : GameView) :
  fate_moves s1 s2 -> fate_moves s2 s3 -> fate_moves s1 s3.
Proof.
  intros [(G1 & R1 & L1)|(G1 & R1 & L1)] [(G2 & R2 & L2)|(G2 & R2 & L2)].
  - left. repeat split; congruence.
  - right. auto.
  - right. rewrite G2, R2, L2. auto.
  - right. auto.
Qed.

Lemma lose_game_effects (s : GameView) :
  only_boss_block s (lose_game s) /\ fate_moves s (lose_game s) /\
  score (lose_game s) = score s /\
  player_health (lose_game s) = player_health s /\
  boss (lose_game s) = boss s /\ boss_active (lose_game s) = boss_active s.
Proof.
  split; [unfold only_boss_block; destruct s; reflexivity|].
  split; [|repeat split].
  right. cbn. repeat split. eauto.
Qed.

(** What one of the steps inside the boss block may do, the boss slot
    aside. *)
Local Abbreviation block_effects harm s s' :=
  (only_boss_block s s' /\ fate_moves s s' /\ score s <= score s' /\
   (harm -> Z.le (player_health s') (Z.max (player_health s) 0))).

Lemma block_effects_trans (h1 h2 : Prop) (s1 s2 s3 : GameView) :
  block_effects h1 s1 s2 -> block_effects h2 s2 s3 ->
  block_effects (h1 /\ h2) s1 s3.
Proof.
  intros (B1 & F1 & S1 & H1) (B2 & F2 & S2 & H2).
  split; [eapply only_boss_block_trans; eassumption|].
  split; [eapply fate_moves_trans; eassumption|].
  split; [lra|]. intros [Ha Hb]. specialize (H1 Ha). specialize (H2 Hb). lia.
Qed.

Lemma projectile_impact_effects (dmg : Z) (s s' : GameView) :
  projectile_impact dmg s = Ok s' ->
  block_effects (0 <= dmg)%Z s s' /\
  boss s' = boss s /\ boss_active s' = boss_active s.
Proof.
  unfold projectile_impact, the_player. cbn. intros H.
  destruct (player s) as [p|] eqn:Hp; [|discriminate]. cbn in H.
  destruct (player_health s - dmg <=? 0)%Z eqn:E; injection H as <-.
  - split; [|split; reflexivity].
    split; [unfold only_boss_block; destruct s; reflexivity|].
    split; [right; cbn; repeat split; eauto|].
    split; [cbn; lra|]. intros _. cbn. lia.
  - split; [|split; reflexivity].
    split; [unfold only_boss_block; destruct s; reflexivity|].
    split; [left; repeat split|].
    split; [cbn; lra|]. intros Hd. cbn. lia.
Qed.

Lemma projectile_impacts_effects (rnd : Draws) (hits : list Projectile.t)
    (k : nat) (s s' : GameView) :
  projectile_impacts rnd k hits s = Ok s' ->
  block_effects (forall k, (0 <= hit_dmg rnd k)%Z) s s' /\
  boss s' = boss s /\ boss_active s' = boss_active s.
Proof.
  revert k s. induction hits as [|h hs IH]; intros k s H.
  - injection H as <-. split; [|split; reflexivity].
    split; [apply only_boss_block_refl|]. split; [apply fate_moves_refl|].
    split; [lra|]. intros _. lia.
  - cbn [projectile_impacts] in H.
    destruct (projectile_impact (hit_dmg rnd k) s) as [s1|] eqn:E1;
      [|discriminate].
    cbn [bind] in H.
    destruct (projectile_impact_effects _ _ _ E1) as (X1 & B1 & A1).
    destruct (IH _ _ H) as (X2 & B2 & A2).
    split; [|split; congruence].
    destruct (block_effects_trans _ _ _ _ _ X1 X2) as (Y1 & Y2 & Y3 & Y4).
    repeat split; try assumption. intros Hall. apply Y4. split; [apply Hall|].
    exact Hall.
Qed.

Lemma projectile_collisions_effects (rnd : Draws) (s s' : GameView) :
  projectile_collisions rnd s = Ok s' ->
  block_effects (forall k, (0 <= hit_dmg rnd k)%Z) s s' /\
  boss s' = boss s /\ boss_active s' = boss_active s.
Proof.
  unfold projectile_collisions, the_player. intros H.
  destruct (projectiles s) as [|q qs] eqn:Eq.
  - injection H as <-. split; [|split; reflexivity].
    split; [apply only_boss_block_refl|]. split; [apply fate_moves_refl|].
    split; [lra|]. intros _. lia.
  - destruct (player s) as [p|] eqn:Hp; [|discriminate]. cbn [bind] in H.
    apply projectile_impacts_effects in H.
    destruct H as ((Y1 & Y2 & Y3 & Y4) & B & Ac).
    cbn in Y3, Y4, B, Ac. split; [|split; assumption].
    split; [|split; [|split; assumption]].
    + eapply only_boss_block_trans; [|exact Y1].
      unfold only_boss_block. destruct s; reflexivity.
    + destruct Y2 as [Y2|Y2]; [left | right]; exact Y2.
Qed.

Lemma win_boss_effects (s s' : GameView) :
  win_boss s = Ok s' ->
  only_boss_block s s' /\ same_fate s s' /\ score s' = score s + 700 /\
  boss s' = None /\ boss_active s' = false.
Proof.
  unfold win_boss, the_boss, create_explosion. intros H.
  destruct (boss s) as [b|]; [|discriminate]. cbn [bind] in H.
  destruct (Emitter_new _ _); injection H as <-;
    (split; [unfold only_boss_block; destruct s; reflexivity|]);
    unfold same_fate; cbn; repeat split; reflexivity.
Qed.

Lemma same_fate_moves (s s' : GameView) : same_fate s s' -> fate_moves s s'.
Proof. intros (_ & G & L & R). left. auto. Qed.

Lemma boss_depleted_effects (s s' : GameView) :
  boss_depleted s = Ok s' ->
  block_effects True s s' /\ boss_standing s' /\
  (boss s' = None \/ boss_active s' = boss_active s).
Proof.
  unfold boss_depleted. intros H.
  destruct (boss s) as [b|] eqn:Hb.
  - destruct (Boss.health b <=? 0)%Z eqn:E.
    + destruct (win_boss_effects _ _ H) as (W1 & W2 & W3 & W4 & W5).
      split; [|split; [intros b' Hb'; congruence | now left]].
      split; [exact W1|]. split; [now apply same_fate_moves|].
      split; [rewrite W3; lra|]. intros _. destruct W2 as (-> & _). lia.
    + injection H as <-. apply Z.leb_gt in E.
      split; [|split; [intros b' Hb'; congruence | now right]].
      split; [apply only_boss_block_refl|]. split; [apply fate_moves_refl|].
      split; [lra|]. intros _. lia.
  - injection H as <-.
    split; [|split; [intros b' Hb'; congruence | now left]].
    split; [apply only_boss_block_refl|]. split; [apply fate_moves_refl|].
    split; [lra|]. intros _. lia.
Qed.

Lemma boss_contact_effects (s s' : GameView) :
  boss_contact s = Ok s' ->
  block_effects (0 <= 18 + py_int (distance s / 1000))%Z s s'.
Proof.
  unfold boss_contact, the_player, the_boss. intros H.
  destruct (player s) as [p|] eqn:Hp; [|discriminate]. cbn [bind] in H.
  destruct (boss s) as [b|] eqn:Hb; [|discriminate]. cbn [bind] in H.
  destruct (check_for_collision _ _).
  2: { injection H as <-. split; [apply only_boss_block_refl|].
       split; [apply fate_moves_refl|]. split; [lra|]. intros _. lia. }
  cbn in H. rewrite Hb, Hp in H. cbn in H.
  set (s0 := set_damage_popups _ _) in H.
  assert (E0 : block_effects (0 <= 18 + py_int (distance s / 1000))%Z s s0).
  { subst s0. split; [unfold only_boss_block; destruct s; reflexivity|].
    split; [left; repeat split|]. split; [cbn; lra|]. intros Hd. cbn. lia. }
  assert (B0 : boss s0
               = Some (Boss.set_health (Boss.health b - 40)%Z b))
    by reflexivity.
  set (s1 := if (_ <=? 0)%Z then lose_game s0 else s0) in H.
  assert (E1 : block_effects True s0 s1 /\ boss s1 = boss s0).
  { subst s1. destruct (_ <=? 0)%Z.
    - destruct (lose_game_effects s0) as (L1 & L2 & L3 & L4 & L5 & _).
      split; [|exact L5]. split; [exact L1|]. split; [exact L2|].
      split; [rewrite L3; lra|]. intros _. rewrite L4. lia.
    - split; [|reflexivity]. split; [apply only_boss_block_refl|].
      split; [apply fate_moves_refl|]. split; [lra|]. intros _. lia. }
  destruct E1 as (E1 & B1). clearbody s1 s0. rewrite B1, B0 in H.
  cbn [bind] in H.
  assert (E2 : block_effects True s1 s').
  { destruct (_ <=? 0)%Z.
    - destruct (win_boss_effects _ _ H) as (W1 & W2 & W3 & _).
      split; [exact W1|]. split; [now apply same_fate_moves|].
      split; [rewrite W3; lra|]. intros _. destruct W2 as (-> & _). lia.
    - injection H as <-. split; [apply only_boss_block_refl|].
      split; [apply fate_moves_refl|]. split; [lra|]. intros _. lia. }
  destruct (block_effects_trans _ _ _ _ _ E0 E1) as (Y1 & Y2 & Y3 & Y4).
  destruct E2 as (Z1 & Z2 & Z3 & Z4).
  split; [eapply only_boss_block_trans; eassumption|].
  split; [eapply fate_moves_trans; eassumption|].
  split; [lra|]. intros Hd. specialize (Y4 (conj Hd I)). specialize (Z4 I).
  lia.
Qed.

Lemma boss_behavior_effects (dt : Q) (rnd : Draws) (s s' : GameView) :
  boss_behavior dt rnd s = Ok s' ->
  block_effects ((forall k, (0 <= hit_dmg rnd k)%Z) /\
                 (0 <= 18 + py_int (distance s / 1000))%Z) s s' /\
  (boss_live s = true -> boss_standing s') /\
  (boss_live s = false -> s' = s).
Proof.
  unfold boss_behavior. intros H.
  destruct (boss_live s) eqn:El.
  2: { injection H as <-. split; [|split; [discriminate | reflexivity]].
       split; [apply only_boss_block_refl|]. split; [apply fate_moves_refl|].
       split; [lra|]. intros _. lia. }
  unfold the_boss, the_player in H.
  destruct (boss s) as [b|] eqn:Hb; [|discriminate]. cbn [bind] in H.
  destruct (player s) as [p|] eqn:Hp; [|discriminate]. cbn [bind] in H.
  destruct (Boss.update_behavior _ _ _ _ b) as [[b' projs]|]; [|discriminate].
  cbn [bind] in H.
  set (s0 := set_projectiles _ _) in H.
  assert (E0 : only_boss_block s s0 /\ score s0 = score s /\
               player_health s0 = player_health s /\
               distance s0 = distance s /\ same_fate s s0).
  { subst s0. split; [unfold only_boss_block; destruct s; reflexivity|].
    unfold same_fate. cbn. repeat split; reflexivity. }
  destruct E0 as (B0 & S0 & P0 & D0 & F0). clearbody s0.
  destruct (projectile_collisions rnd s0) as [s1|] eqn:E1; [|discriminate].
  cbn [bind] in H.
  destruct (projectile_collisions_effects _ _ _ E1)
    as ((B1 & F1 & S1 & P1) & _).
  destruct (boss_contact s1) as [s2|] eqn:E2; [|discriminate].
  cbn [bind] in H.
  destruct (boss_contact_effects _ _ E2) as (B2 & F2 & S2 & P2).
  destruct (boss_depleted_effects _ _ H) as ((B3 & F3 & S3 & P3) & St & _).
  destruct (only_boss_block_fields _ _ B1) as (_ & _ & _ & _ & (D1 & _) & _).
  split; [|split; [intros _; exact St | discriminate]].
  split; [eapply only_boss_block_trans; [exact B0|];
          eapply only_boss_block_trans; [exact B1|];
          eapply only_boss_block_trans; eassumption|].
  split; [eapply fate_moves_trans; [apply same_fate_moves; exact F0|];
          eapply fate_moves_trans; [exact F1|];
          eapply fate_moves_trans; eassumption|].
  split; [rewrite <- S0; lra|]. intros [Hd Hc].
  specialize (P1 Hd). rewrite D1, D0 in P2. specialize (P2 Hc).
  specialize (P3 I). lia.
Qed.

(** *** A whole tick *)

Lemma on_update_steps (dt : Q) (rnd : Draws) (s : GameView)
    (p : AnimatedSprite.t) :
  game_over s = false -> player s = Some p ->
  exists a d e f g h i j,
    animate dt s = Ok a /\
    distance_clock dt (cooldowns dt (update_explosions a)) = Ok d /\
    spawn_timers dt rnd d = Ok e /\ cleanup e = Ok f /\
    collect_coins f = Ok g /\ hit_obstacles g = Ok h /\
    boss_spawn h = Ok i /\ boss_behavior dt rnd i = Ok j /\
    on_update dt rnd s
    = Ok (set_damage_popups (decay_popups dt (damage_popups j)) j) /\
    same_boss_slot s h /\ (exists ph, player h = Some ph) /\
    (exists pj, player j = Some pj).
Proof.
  intros Hgo Hp. unfold on_update. rewrite Hgo.
  destruct (animate_keeps dt s p Hp) as (a & Ea & [pa Pa] & _ & Ba).
  rewrite Ea. cbn [bind].
  set (c := cooldowns dt (update_explosions a)).
  assert (Hc : player c = Some pa /\ same_boss_slot a c).
  { destruct (update_explosions_untouched a) as (U1 & U2 & U3 & _).
    destruct (cooldowns_untouched dt (update_explosions a))
      as ((K1 & K2 & K3 & _) & _).
    fold c in K1, K2, K3. unfold same_boss_slot, has_boss.
    rewrite K1, K2, K3, U1, U2, U3. auto. }
  destruct Hc as (Pc & Bc).
  destruct (distance_clock_spec dt c pa Pc)
    as (d & Ed & Pd & _ & _ & _ & _ & Bd).
  rewrite Ed. cbn [bind].
  destruct (spawn_timers_keeps dt rnd d _ Pd) as (e & Ee & [pe Pe] & _ & Be).
  rewrite Ee. cbn [bind].
  destruct (cleanup_keeps e pe Pe) as (f & Ef & [pf Pf] & _ & Bf).
  rewrite Ef. cbn [bind].
  destruct (collect_coins_keeps f pf Pf) as (g & Eg & [pg Pg] & _ & Bg).
  rewrite Eg. cbn [bind].
  destruct (hit_obstacles_keeps g pg Pg) as (h & Eh & [ph Ph] & _ & Bh).
  rewrite Eh. cbn [bind].
  destruct (boss_spawn_spec h ph Ph) as (i & Ei & [pi Pi] & _).
  rewrite Ei. cbn [bind].
  destruct (boss_behavior_spec dt rnd i pi Pi) as (j & Ej & [pj Pj] & _).
  rewrite Ej. cbn [bind].
  exists a, d, e, f, g, h, i, j.
  repeat (split; [first [assumption | reflexivity]|]).
  split; [|split; eauto].
  apply (same_boss_slot_trans _ _ _ Ba).
  apply (same_boss_slot_trans _ _ _ Bc).
  apply (same_boss_slot_trans _ _ _ Bd).
  apply (same_boss_slot_trans _ _ _ Be).
  apply (same_boss_slot_trans _ _ _ Bf).
  apply (same_boss_slot_trans _ _ _ Bg Bh).
Qed.

(** What a tick of a live run does to the ledger. *)
Lemma on_update_effects (dt : Q) (rnd : Draws) (s : GameView)
    (p : AnimatedSprite.t) :
  game_over s = false -> player s = Some p ->
  exists s',
    on_update dt rnd s = Ok s' /\ (exists p', player s' = Some p') /\
    same_settings s s' /\ height s' = height s /\
    skill_cd s' = skill_cd (cooldowns dt s) /\
    fate_moves s s' /\
    (0 <= dt -> 0 <= speed s -> 0 <= score s -> 0 <= score s') /\
    ((forall k, (0 <= hit_dmg rnd k)%Z) ->
     (0 <= 18 + py_int (distance s' / 1000))%Z ->
     (player_health s' <= Z.max (player_health s) 0)%Z) /\
    (boss_inv s -> boss_standing s').
Proof.
  intros Hgo Hp.
  destruct (on_update_steps dt rnd s p Hgo Hp)
    as (a & d & e & f & g & h & i & j & Ea & Ed & Ee & Ef & Eg & Eh & Ei & Ej
        & Hrun & Bsh & [ph Ph] & [pj Pj]).
  destruct (animate_quiet _ _ _ Ea) as (Qa & Sa).
  destruct (effects_quiet dt a) as (Tc & Fc & Hc & Sc & _ & Kc).
  cbv zeta in Tc, Fc, Hc, Sc, Kc.
  set (c := cooldowns dt (update_explosions a)) in *.
  destruct (distance_clock_quiet _ _ _ Ed) as (Qd & Sd).
  destruct (spawn_timers_quiet _ _ _ _ Ee) as (Qe & Se).
  destruct (cleanup_quiet _ _ Ef) as (Qf & Sf).
  destruct (collect_coins_quiet _ _ Eg) as (Qg & Sg).
  destruct (hit_obstacles_quiet _ _ Eh) as (Qh & Sh).
  destruct (boss_spawn_quiet _ _ Ei) as (Qi & Si).
  destruct (boss_behavior_effects _ _ _ _ Ej)
    as ((Bj & Fj & Sj & Pj') & Stand & Same).
  destruct (only_boss_block_fields _ _ Bj)
    as (_ & Tj & Kj & Hj & (Dj & _) & _).
  pose proof (quiet_step_trans _ _ _ Qd
                (quiet_step_trans _ _ _ Qe
                   (quiet_step_trans _ _ _ Qf
                      (quiet_step_trans _ _ _ Qg
                         (quiet_step_trans _ _ _ Qh Qi))))) as Qci.
  destruct Qa as (Ta & Ka & Fa & Ha).
  destruct Qci as (Tci & Kci & Fci & Hci).
  exists (set_damage_popups (decay_popups dt (damage_popups j)) j).
  split; [exact Hrun|]. split; [exists pj; exact Pj|]. cbn.
  split; [|split; [|split; [|split; [|split; [|split]]]]].
  - unfold same_settings in *. cbn. clearbody c. intuition congruence.
  - unfold height in *. cbn. clearbody c. congruence.
  - cbn. rewrite Kj, Kci, Kc. unfold cooldowns. rewrite Ka.
    destruct (Qltb 0 (skill_cd s)); cbn; [reflexivity | exact Ka].
  - assert (Fsi : fate_moves s i).
    { apply same_fate_moves. clearbody c. unfold same_fate in *.
      intuition congruence. }
    destruct (fate_moves_trans _ _ _ Fsi Fj) as [X|X]; [left | right];
      exact X.
  - cbn. intros Hdt Hsp Hsc.
    assert (Spa : speed c = speed s)
      by (destruct Tc as (_ & _ & _ & ->); destruct Ta as (_ & _ & _ & ->);
          reflexivity).
    assert (0 <= score d) by (rewrite Sd, Sc, Sa, Spa; nra).
    assert (0 <= score g) by (apply Sg; rewrite Sf, Se; assumption).
    assert (0 <= score i) by (rewrite Si; apply Sh; assumption).
    lra.
  - cbn. intros Hd Hc'. rewrite Dj in Hc'. specialize (Pj' (conj Hd Hc')).
    destruct Fci as (Hi & _). destruct Fc as (Hc2 & _).
    destruct Fa as (Ha2 & _). rewrite Hi, Hc2, Ha2 in Pj'. exact Pj'.
  - intros Hinv. unfold boss_standing. cbn. fold (boss_standing j).
    destruct (boss_live i) eqn:El; [now apply Stand|].
    rewrite (Same eq_refl). intros b Hb. exfalso.
    destruct (boss_spawn_spec h ph Ph) as (i' & Ei' & _ & _ & _ & Hif).
    rewrite Ei in Ei'. injection Ei' as <-.
    apply boss_inv_slot in Hinv. destruct Bsh as (B1 & B2).
    unfold boss_live in El. fold (has_boss i) in El.
    destruct (negb (boss_active h) && _).
    + destruct Hif as (_ & Hx & Hy). rewrite Hx, Hy in El. discriminate.
    + subst i.
      assert (Hh : has_boss h = true) by (unfold has_boss; now rewrite Hb).
      rewrite B1, Hinv, <- B2, Hh in El. discriminate.
Qed.

(** *** A key press *)

Lemma on_key_press_effects (key : Key) (dmg : Z) (s : GameView)
    (p : AnimatedSprite.t) :
  player s = Some p ->
  exists s' p',
    on_key_press key dmg s = Ok s' /\ player s' = Some p' /\
    same_settings s s' /\ same_fate s s' /\ same_clock s s' /\
    score s <= score s' /\
    (boss_standing s -> boss_standing s') /\
    AnimatedSprite.center_x p' = AnimatedSprite.center_x p /\
    AnimatedSprite.center_y p'
    = (if jumps key s then AnimatedSprite.center_y p + 90
       else AnimatedSprite.center_y p).
Proof.
  intros Hp. unfold on_key_press, jumps.
  assert (Base : exists s' p',
             Ok s = Ok s' /\ player s' = Some p' /\
             same_settings s s' /\ same_fate s s' /\ same_clock s s' /\
             score s <= score s' /\ (boss_standing s -> boss_standing s') /\
             AnimatedSprite.center_x p' = AnimatedSprite.center_x p /\
             AnimatedSprite.center_y p' = AnimatedSprite.center_y p).
  { exists s, p. unfold same_settings, same_fate, same_clock.
    repeat split; try reflexivity; try assumption; try lra. auto. }
  destruct (game_over s); [exact Base|]. cbn [negb andb].
  destruct key; try exact Base.
  - unfold the_player. rewrite Hp. cbn [bind]. eexists. eexists.
    split; [reflexivity|]. cbn. unfold same_settings, same_fate, same_clock.
    cbn. repeat split; try reflexivity; try lra. auto.
  - unfold melee. destruct (boss_live s) eqn:El; [|exact Base].
    apply boss_live_has in El. destruct El as (b & Hb & Ha).
    unfold the_boss, the_player. rewrite Hb, Hp. cbn [bind].
    destruct (Qltb _ 140); [|exact Base]. cbn. rewrite ?Hb. cbn.
    destruct (Boss.health b - dmg <=? 0)%Z eqn:E.
    + unfold win_boss, the_boss, create_explosion. cbn.
      destruct (Emitter_new _ _); eexists; exists p;
        (split; [reflexivity|]); cbn;
        unfold same_settings, same_fate, same_clock, boss_standing; cbn;
        repeat split; try reflexivity; try assumption; try lra;
        intros; discriminate.
    + apply Z.leb_gt in E. eexists. exists p. split; [reflexivity|]. cbn.
      unfold same_settings, same_fate, same_clock, boss_standing; cbn.
      repeat split; try reflexivity; try assumption; try lra.
      intros _ b' Hb'. injection Hb' as <-. cbn. exact E.
  - unfold skill. destruct (Qle_bool (skill_cd s) 0); [|exact Base].
    destruct (boss_live _) eqn:El.
    + apply boss_live_has in El. cbn in El. destruct El as (b & Hb & Ha).
      unfold the_boss. cbn. rewrite Hb. cbn.
      destruct (Boss.health b - _ <=? 0)%Z eqn:E.
      * unfold win_boss, the_boss, create_explosion. cbn.
        destruct (Emitter_new _ _); eexists; exists p;
          (split; [reflexivity|]); cbn;
          unfold same_settings, same_fate, same_clock, boss_standing; cbn;
          repeat split; try reflexivity; try assumption; try lra;
          intros; discriminate.
      * apply Z.leb_gt in E. eexists. exists p. split; [reflexivity|]. cbn.
        unfold same_settings, same_fate, same_clock, boss_standing; cbn.
        repeat split; try reflexivity; try assumption; try lra.
        intros _ b' Hb'. injection Hb' as <-. cbn. exact E.
    + cbn. destruct (obstacles s).
      * eexists. exists p. split; [reflexivity|]. cbn.
        unfold same_settings, same_fate, same_clock, boss_standing; cbn.
        repeat split; try reflexivity; try assumption; try lra. auto.
      * unfold the_player. cbn. rewrite Hp. cbn [bind].
        eexists. exists p. split; [reflexivity|]. cbn.
        unfold same_settings, same_fate, same_clock, boss_standing; cbn.
        repeat split; try reflexivity; try assumption; try lra. auto.
Qed.

(** *** Any event, any run *)

Lemma py_int_nonneg (q : Q) : 0 <= q -> (0 <= py_int q)%Z.
Proof.
  intros H. unfold py_int. apply Z.quot_pos; [|lia].
  unfold Qle in H. simpl in H. lia.
Qed.

Lemma contact_damage_nonneg (d : Q) :
  0 <= d -> (0 <= 18 + py_int (d / 1000))%Z.
Proof.
  intros H. assert (0 <= d / 1000).
  { apply Qle_shift_div_l; [reflexivity | lra]. }
  pose proof (py_int_nonneg _ H0). lia.
Qed.

Lemma handle_effects (ev : Event) (s : GameView) (p : AnimatedSprite.t) :
  player s = Some p ->
  exists s' p',
    handle ev s = Ok s' /\ player s' = Some p' /\
    same_settings s s' /\ fate_moves s s' /\
    (boss_inv s -> boss_inv s') /\
    (boss_inv s -> boss_standing s -> boss_standing s') /\
    (forward ev -> 0 <= speed s ->
     (0 <= score s -> 0 <= score s') /\
     (0 <= distance s -> 0 <= distance s')) /\
    (harmful ev -> 0 <= distance s' ->
     (player_health s' <= Z.max (player_health s) 0)%Z) /\
    AnimatedSprite.center_y p'
    = match ev with
      | Press key _ =>
          if jumps key s then AnimatedSprite.center_y p + 90
          else AnimatedSprite.center_y p
      | Tick _ _ => AnimatedSprite.center_y p
      end.
Proof.
  intros Hp. destruct ev as [dt rnd|key dmg]; cbn [handle forward harmful].
  - destruct (game_over s) eqn:Hgo.
    + unfold on_update. rewrite Hgo. eexists. exists p.
      split; [reflexivity|]. cbn. split; [exact Hp|].
      unfold same_settings, boss_inv, boss_standing. cbn.
      split; [repeat split|]. split; [left; cbn; repeat split|].
      split; [auto|]. split; [auto|]. split; [auto|].
      split; [intros; lia | reflexivity].
    + destruct (on_update_effects dt rnd s p Hgo Hp)
        as (s' & Hrun & [p' Hp'] & Ts & Hh & _ & Fs & Sc & Hl & St).
      exists s', p'. split; [exact Hrun|]. split; [exact Hp'|].
      split; [exact Ts|]. split; [exact Fs|].
      split.
      { intros Hinv. pose proof (on_update_inv dt rnd s Hinv) as H.
        rewrite Hrun in H. exact H. }
      split; [intros Hinv _; now apply St|].
      split.
      { intros Hdt Hsp. split; [now apply Sc|]. intros Hd.
        destruct (on_update_live dt rnd s p Hgo Hp)
          as (s1 & s2 & s'' & Hrun' & _ & Hsp' & [p1 P1] & D1 & _ & _ & _
              & (D2 & _) & _).
        rewrite Hrun in Hrun'. injection Hrun' as <-.
        destruct (boss_spawn_spec s1 p1 P1) as (s2' & Hsp'' & _ & D3 & _).
        rewrite Hsp' in Hsp''. injection Hsp'' as <-.
        rewrite D2, D3, D1. nra. }
      split.
      { intros Hharm Hd. apply Hl; [exact Hharm|].
        now apply contact_damage_nonneg. }
      unfold height in Hh. rewrite Hp, Hp' in Hh. cbn in Hh. congruence.
  - destruct (on_key_press_effects key dmg s p Hp)
      as (s' & p' & Hrun & Hp' & Ts & (Fh & Fg & Fl & Fr) & (Cd & _) & Sc
          & St & _ & Hy).
    exists s', p'. split; [exact Hrun|]. split; [exact Hp'|].
    split; [exact Ts|]. split; [left; auto|].
    split.
    { intros Hinv. pose proof (on_key_press_inv key dmg s Hinv) as H.
      rewrite Hrun in H. exact H. }
    split; [intros _; exact St|].
    split; [intros _ _; split; [lra | rewrite Cd; auto]|].
    split; [intros _ _; lia | exact Hy].
Qed.

(** How many of the key presses are jumps the view takes, the view being
    the one each press finds. *)
Local Abbreviation jump_height ev s :=
  (match ev with
   | Press key _ => if jumps key s then 90 else 0
   | Tick _ _ => 0
   end).

Lemma play_effects (evs : list Event) (s : GameView) (p : AnimatedSprite.t) :
  player s = Some p ->
  exists s' p',
    play evs s = Ok s' /\ player s' = Some p' /\
    same_settings s s' /\ fate_moves s s' /\
    (boss_inv s -> boss_inv s') /\
    (boss_inv s -> boss_standing s -> boss_standing s') /\
    (Forall forward evs -> 0 <= speed s ->
     (0 <= score s -> 0 <= score s') /\
     (0 <= distance s ->
      0 <= distance s' /\
      (Forall harmful evs ->
       (player_health s' <= Z.max (player_health s) 0)%Z))) /\
    AnimatedSprite.center_y p <= AnimatedSprite.center_y p' /\
    AnimatedSprite.center_y p'
    <= AnimatedSprite.center_y p
       + 90 * inject_Z (Z.of_nat (jumps_in evs)) /\
    (game_over s' = false ->
     AnimatedSprite.center_y p'
     == AnimatedSprite.center_y p
        + 90 * inject_Z (Z.of_nat (jumps_in evs))).
Proof.
  revert s p. induction evs as [|ev rest IH]; intros s p Hp.
  - exists s, p. cbn [play jumps_in]. change (inject_Z (Z.of_nat 0)) with 0.
    split; [reflexivity|]. split; [exact Hp|].
    split; [unfold same_settings; auto|]. split; [apply fate_moves_refl|].
    split; [auto|]. split; [auto|].
    split; [intros _ _; split; [auto|]; intros Hd; split; [exact Hd|];
            intros _; lia|].
    split; [lra|]. split; [lra|]. intros _. lra.
  - cbn [play].
    destruct (handle_effects ev s p Hp)
      as (s1 & p1 & -> & Hp1 & T1 & F1 & I1 & St1 & Fw1 & Hm1 & Hy1).
    cbn [bind].
    destruct (IH s1 p1 Hp1)
      as (s' & p' & Hrun & Hp' & T2 & F2 & I2 & St2 & Fw2 & Ylo & Yhi & Yeq).
    exists s', p'. split; [exact Hrun|]. split; [exact Hp'|].
    split; [unfold same_settings in *; intuition congruence|].
    split; [eapply fate_moves_trans; eassumption|].
    split; [auto|]. split; [auto|].
    assert (Hsp : speed s1 = speed s) by apply T1.
    split.
    { intros Hall Hs. inversion Hall as [|? ? Hev Hrest]; subst.
      destruct (Fw1 Hev Hs) as (Sc1 & D1).
      rewrite <- Hsp in Hs. destruct (Fw2 Hrest Hs) as (Sc2 & D2).
      split; [auto|]. intros Hd. destruct (D2 (D1 Hd)) as (D3 & Hh).
      split; [exact D3|]. intros Hharm.
      inversion Hharm as [|? ? Hh1 Hh2]; subst.
      specialize (Hh Hh2). specialize (Hm1 Hh1 (D1 Hd)). lia. }
    assert (Hj : jumps_in (ev :: rest)
                 = (jumps_in rest
                    + match ev with
                      | Press KEY_SPACE _ => 1
                      | _ => 0
                      end)%nat).
    { destruct ev as [dt rnd|[] dmg]; cbn [jumps_in]; lia. }
    rewrite Hj, Nat2Z.inj_add, inject_Z_plus.
    set (n := inject_Z (Z.of_nat (jumps_in rest))) in *.
    assert (Hn : 0 <= n)
      by (subst n; change 0 with (inject_Z 0); rewrite <- Zle_Qle; lia).
    destruct ev as [dt rnd|key dmg].
    + change (inject_Z (Z.of_nat 0)) with 0. rewrite Hy1 in *.
      split; [lra|]. split; [lra|]. intros Hg. specialize (Yeq Hg). lra.
    + unfold jumps in Hy1. destruct (game_over s) eqn:Hgo.
      * cbn [negb andb] in Hy1. rewrite Hy1 in *.
        assert (Hg1 : game_over s1 = true).
        { destruct F1 as [(G & _)|(G & _)]; congruence. }
        assert (Hg' : game_over s' = true).
        { destruct F2 as [(G & _)|(G & _)]; congruence. }
        assert (0 <= inject_Z (Z.of_nat match key with
                                        | KEY_SPACE => 1
                                        | _ => 0
                                        end))
          by (change 0 with (inject_Z 0); rewrite <- Zle_Qle; lia).
        split; [lra|]. split; [lra|]. intros Hg. congruence.
      * cbn [negb andb] in Hy1.
        destruct key; rewrite Hy1 in *;
          try change (inject_Z (Z.of_nat 0)) with 0;
          try change (inject_Z (Z.of_nat 1)) with 1;
          (split; [lra|]); (split; [lra|]);
          intros Hg; specialize (Yeq Hg); lra.
Qed.

(** X15.  A view that has been constructed and set up never raises,
    whatever ticks and key presses follow in whatever order and with
    whatever time steps and draws: no attribute of [None] is read and
    nothing is divided by zero.  The player stays set and [boss_active]
    keeps telling whether [boss] holds a boss. *)
Theorem play_never_raises (path : string)
    (file : option (list Leaderboard.entry)) (obs_draw : nat -> Z)
    (coin_draw : nat -> Z * Z) (evs : list Event) :
  exists s0 s',
    setup obs_draw coin_draw (GameView_init path file) = Ok s0 /\
    play evs s0 = Ok s' /\ player s' <> None /\ boss_inv s'.
Proof.
  destruct (setup_slot obs_draw coin_draw (GameView_init path file))
    as (s0 & Hset & [p0 Hp0] & Hb & Ha).
  destruct (play_effects evs s0 p0 Hp0)
    as (s' & p' & Hrun & Hp' & _ & _ & Hinv & _).
  exists s0, s'. split; [exact Hset|]. split; [exact Hrun|].
  split; [congruence|]. apply Hinv. unfold boss_inv. rewrite Hb, Ha. cbn.
  intuition congruence.
Qed.

(** X16.  Defeat is final.  Once [game_over] is set, no sequence of ticks
    and key presses changes any field of the view, the flag included; only
    the explosion emitters are updated, once per tick. *)
Theorem game_over_absorbs (evs : list Event) (s : GameView) :
  game_over s = true ->
  play evs s
  = Ok (set_explosions
          (Nat.iter (ticks_in evs) (map Emitter_update) (explosions s)) s).
Proof.
  revert s. induction evs as [|[dt rnd|key dmg] rest IH]; intros s Hgo.
  - cbn. now rewrite set_explosions_same.
  - cbn [play handle ticks_in]. unfold on_update. rewrite Hgo. cbn [bind].
    rewrite (IH (update_explosions s) Hgo). cbn. now rewrite iter_shift.
  - cbn [play handle ticks_in]. unfold on_key_press. rewrite Hgo. cbn [bind].
    now apply IH.
Qed.

(** X17.  No tick and no key press ever assigns the player's maximum
    health, the speed, the sprite path or the paused flag: after any run
    they are what they were. *)
Theorem play_keeps_settings (evs : list Event) (s : GameView) :
  player s <> None ->
  exists s',
    play evs s = Ok s' /\
    player_max_health s' = player_max_health s /\
    speed s' = speed s /\ sprite_path s' = sprite_path s /\
    paused s' = paused s.
Proof.
  intros Hp. destruct (player s) as [p|] eqn:E; [|now contradiction Hp].
  destruct (play_effects evs s p E) as (s' & _ & Hrun & _ & T & _).
  exists s'. split; [exact Hrun|]. unfold same_settings in T. intuition.
Qed.

(** X18.  A jump is never undone.  No tick changes the player's height and
    each jump taken adds 90: after any run the player is at least as high
    as before and at most 90 per SPACE press higher, and exactly that much
    higher when the run has not ended (presses after the end are
    ignored). *)
Theorem jumps_add_up (evs : list Event) (s : GameView)
    (p : AnimatedSprite.t) :
  player s = Some p ->
  exists s' p',
    play evs s = Ok s' /\ player s' = Some p' /\
    AnimatedSprite.center_y p <= AnimatedSprite.center_y p' /\
    AnimatedSprite.center_y p'
    <= AnimatedSprite.center_y p
       + 90 * inject_Z (Z.of_nat (jumps_in evs)) /\
    (game_over s' = false ->
     AnimatedSprite.center_y p'
     == AnimatedSprite.center_y p
        + 90 * inject_Z (Z.of_nat (jumps_in evs))).
Proof.
  intros Hp.
  destruct (play_effects evs s p Hp)
    as (s' & p' & Hrun & Hp' & _ & _ & _ & _ & _ & Ylo & Yhi & Yeq).
  exists s', p'. repeat split; assumption.
Qed.

(** X19.  In a tick of a live run the skill cooldown is touched by the
    cooldown step alone: a cooldown of 0 or less is left as it is, a
    positive one is reduced by [dt] and floored at 0, so it never turns
    negative and the skill is available again after a tick at least as long
    as the cooldown. *)
Theorem cooldown_runs_down (dt : Q) (rnd : Draws) (s : GameView)
    (p : AnimatedSprite.t) :
  game_over s = false -> player s = Some p ->
  exists s',
    on_update dt rnd s = Ok s' /\
    (skill_cd s <= 0 -> skill_cd s' = skill_cd s) /\
    (0 < skill_cd s ->
     0 <= skill_cd s' /\
     (skill_cd s <= dt -> skill_cd s' == 0) /\
     (dt <= skill_cd s -> skill_cd s' == skill_cd s - dt)).
Proof.
  intros Hgo Hp.
  destruct (on_update_effects dt rnd s p Hgo Hp)
    as (s' & Hrun & _ & _ & _ & Hcd & _).
  exists s'. split; [exact Hrun|]. rewrite Hcd. unfold cooldowns. split.
  - intros H. apply Qltb_ge in H. now rewrite H.
  - intros H. apply Qltb_lt in H. rewrite H. cbn. apply Qltb_lt in H.
    destruct (py_max_floor 0 (skill_cd s - dt)) as (H1 & H2 & [E|E]).
    + split; [exact H1|]. rewrite E in *. split; intros; lra.
    + split; [exact H1|]. rewrite E in *. split; intros; lra.
Qed.

(** X20.  The score never turns negative while time runs forward: from a
    score of 0 or more, with a speed of 0 or more, it is 0 or more after
    any run whose ticks all have a time step of 0 or more. *)
Theorem score_stays_nonnegative (evs : list Event) (s : GameView) :
  player s <> None -> Forall forward evs -> 0 <= speed s -> 0 <= score s ->
  exists s', play evs s = Ok s' /\ 0 <= score s'.
Proof.
  intros Hp Hfw Hsp Hsc.
  destruct (player s) as [p|] eqn:E; [|now contradiction Hp].
  destruct (play_effects evs s p E)
    as (s' & _ & Hrun & _ & _ & _ & _ & _ & Hf & _).
  exists s'. split; [exact Hrun|]. now apply (Hf Hfw Hsp).
Qed.

(** X21.  Health never exceeds the maximum.  With time running forward from
    a distance of 0 or more and every projectile damage draw 0 or more,
    the player's health after any run is at most what it was (or 0, if it
    was below), so a health within the maximum stays within it. *)
Theorem health_stays_within_maximum (evs : list Event) (s : GameView) :
  player s <> None -> Forall forward evs -> Forall harmful evs ->
  0 <= speed s -> 0 <= distance s ->
  exists s',
    play evs s = Ok s' /\
    (player_health s' <= Z.max (player_health s) 0)%Z /\
    (player_health s <= player_max_health s ->
     0 <= player_max_health s ->
     player_health s' <= player_max_health s')%Z.
Proof.
  intros Hp Hfw Hharm Hsp Hd.
  destruct (player s) as [p|] eqn:E; [|now contradiction Hp].
  destruct (play_effects evs s p E)
    as (s' & _ & Hrun & _ & (T & _) & _ & _ & _ & Hf & _).
  destruct (Hf Hfw Hsp) as (_ & Hd'). destruct (Hd' Hd) as (_ & Hh).
  specialize (Hh Hharm).
  exists s'. split; [exact Hrun|]. split; [exact Hh|]. rewrite T. lia.
Qed.

(** X22.  A boss without health is never left on the field: if
    [boss_active] matches [boss] and the boss, when there is one, has
    health above 0, the same holds after any run; every hit that takes the
    last health clears the boss in the same step. *)
Theorem boss_left_standing (evs : list Event) (s : GameView) :
  player s <> None -> boss_inv s -> boss_standing s ->
  exists s', play evs s = Ok s' /\ boss_inv s' /\ boss_standing s'.
Proof.
  intros Hp Hinv Hst.
  destruct (player s) as [p|] eqn:E; [|now contradiction Hp].
  destruct (play_effects evs s p E)
    as (s' & _ & Hrun & _ & _ & _ & Hi & Hs & _).
  exists s'. auto.
Qed.


End RunFacts.

(** ** Drawing *)

Section DrawFacts.
Context {A : Arcade}.

(** The filled share of a health bar: [max(z, health / max_health)] for a
    zero [z], which the source writes [0.0] for the boss and [0] for the
    player. *)
Lemma fill_ratio (z : Q) (h m : Z) :
  z == 0 -> (0 < m)%Z ->
  exists fill,
    py_div (inject_Z h) (inject_Z m) = Ok (inject_Z h / inject_Z m) /\
    fill = py_max z (inject_Z h / inject_Z m) /\
    0 <= fill /\ ((h <= m)%Z -> fill <= 1) /\ ((h <= 0)%Z -> fill == 0) /\
    (h = m -> fill == 1).
Proof.
  intros Hz Hm.
  assert (Hpos : 0 < inject_Z m)
    by (change 0 with (inject_Z 0); now rewrite <- Zlt_Qlt).
  exists (py_max z (inject_Z h / inject_Z m)).
  split; [apply py_div_ok; lra|]. split; [reflexivity|].
  assert (R1 : (h <= m)%Z -> inject_Z h / inject_Z m <= 1).
  { intros Hh. apply Qle_shift_div_r; [exact Hpos|]. rewrite Qmult_1_l.
    now rewrite <- Zle_Qle. }
  assert (R0 : (h <= 0)%Z -> inject_Z h / inject_Z m <= 0).
  { intros Hh. apply Qle_shift_div_r; [exact Hpos|]. rewrite Qmult_0_l.
    change 0 with (inject_Z 0). now rewrite <- Zle_Qle. }
  assert (RE : h = m -> inject_Z h / inject_Z m == 1).
  { intros ->. field. lra. }
  set (r := inject_Z h / inject_Z m) in *.
  destruct (py_max_floor z r) as (F1 & F2 & F3).
  split; [lra|]. split; [|split].
  - intros Hh. specialize (R1 Hh).
    destruct F3 as [E|E]; rewrite E; lra.
  - intros Hh. specialize (R0 Hh).
    destruct F3 as [E|E]; rewrite E in F1 |- *; lra.
  - intros Hh. specialize (RE Hh).
    destruct F3 as [E|E]; rewrite E in F2 |- *; lra.
Qed.

(** X25.  [draw_health_bar] divides by the boss's maximum health without
    the guard that [update_behavior] has: with a maximum of 0 it raises
    [ZeroDivisionError].  With a positive maximum it draws the grey frame,
    the red fill and the text; the fill starts at the left edge of the
    frame, is never negative, stays inside the frame when health is within
    the maximum, is empty when health is 0 or less and full at full
    health. *)
Theorem draw_health_bar_fill (b : Boss.t) :
  (Boss.max_health b = 0%Z -> draw_health_bar b = Raise ZeroDivisionError) /\
  ((0 < Boss.max_health b)%Z ->
   let left := Boss.center_x b - 360 / 2 in
   let top := SCREEN_HEIGHT - 40 in
   exists fill,
     draw_health_bar b
     = Ok [Rect left (left + 360) top (top - 18) "DARK_GRAY";
           Rect left (left + 360 * fill) top (top - 18) "RED";
           Label (Boss.health b) (Boss.max_health b) (left + 10) (top - 16)]
     /\ 0 <= fill /\
     ((Boss.health b <= Boss.max_health b)%Z -> fill <= 1) /\
     ((Boss.health b <= 0)%Z -> fill == 0) /\
     (Boss.health b = Boss.max_health b -> fill == 1)).
Proof.
  unfold draw_health_bar. split.
  - intros ->. reflexivity.
  - intros Hm. cbv zeta.
    destruct (fill_ratio 0.0 (Boss.health b) (Boss.max_health b)
                ltac:(reflexivity) Hm)
      as (fill & -> & -> & F).
    eexists. split; [reflexivity | exact F].
Qed.

(** X26.  The player health bar of [on_draw] never shows a negative fill,
    also when boss contact has left the health below 0: with a positive
    maximum the fill is [max(0, health / max)], empty for a health of 0 or
    less and inside the frame for a health within the maximum, while the
    text prints the health as it is.  With a maximum of 0 the division
    raises. *)
Theorem draw_player_health_fill (s : GameView) :
  (player_max_health s = 0%Z ->
   draw_player_health s = Raise ZeroDivisionError) /\
  ((0 < player_max_health s)%Z ->
   let top := SCREEN_HEIGHT - 28 in
   exists fill,
     draw_player_health s
     = Ok [Rect (120 - 220 / 2) (120 + 220 / 2) top (top - 20) "DARK_GRAY";
           Rect (120 - 220 / 2) (120 - 220 / 2 + 220 * fill) top (top - 20)
                "GREEN";
           Label (player_health s) (player_max_health s) (120 - 40)
                 (top - 18)]
     /\ 0 <= fill /\
     ((player_health s <= player_max_health s)%Z -> fill <= 1) /\
     ((player_health s <= 0)%Z -> fill == 0) /\
     (player_health s = player_max_health s -> fill == 1)).
Proof.
  unfold draw_player_health. split.
  - intros ->. reflexivity.
  - intros Hm. cbv zeta.
    destruct (fill_ratio 0 (player_health s) (player_max_health s)
                ltac:(reflexivity) Hm)
      as (fill & -> & -> & F).
    eexists. split; [reflexivity | exact F].
Qed.

(** *** The parallax tiles *)

Lemma py_mod_range (a b : Q) :
  0 < b -> exists m, py_mod a b = Ok m /\ 0 <= m /\ m < b.
Proof.
  intros Hb. unfold py_mod.
  destruct (Qeq_bool b 0) eqn:E; [apply Qeq_bool_iff in E; lra|].
  eexists. split; [reflexivity|].
  pose proof (Qfloor_le (a / b)) as Hlo.
  pose proof (Qlt_floor (a / b)) as Hhi.
  rewrite inject_Z_plus in Hhi. change (inject_Z 1) with 1 in Hhi.
  set (f := inject_Z (Qfloor (a / b))) in *.
  assert (Ea : a / b * b == a) by (field; lra).
  split; nra.
Qed.

Lemma draw_tiles_covers (w y : Q) (n : nat) :
  0 < w ->
  forall (fuel : nat) (x : Q),
    (n <= fuel)%nat ->
    SCREEN_WIDTH + w - x < inject_Z (Z.of_nat n) * w ->
    exists tiles,
      draw_tiles fuel w y x = Some tiles /\
      (List.length tiles <= n)%nat /\
      (forall t, x <= t -> t < SCREEN_WIDTH + w ->
         exists x', In (Tile x' y w (SCREEN_HEIGHT - y)) tiles /\
                    x' <= t /\ t <= x' + w).
Proof.
  intros Hw. induction n as [|n IH]; intros fuel x Hf Hx.
  - change (inject_Z (Z.of_nat 0)) with 0 in Hx.
    assert (Hge : Qltb x (SCREEN_WIDTH + w) = false)
      by (apply Qltb_ge; lra).
    exists []. split; [destruct fuel; cbn; now rewrite Hge|].
    split; [cbn; lia|]. intros t H1 H2. lra.
  - destruct (Qltb x (SCREEN_WIDTH + w)) eqn:Hlt.
    + destruct fuel as [|fuel]; [lia|]. cbn [draw_tiles]. rewrite Hlt.
      rewrite Nat2Z.inj_succ, <- Z.add_1_r, inject_Z_plus in Hx.
      change (inject_Z 1) with 1 in Hx.
      destruct (IH fuel (x + w)) as (tiles & -> & Hlen & Hcov);
        [lia | lra|].
      eexists. split; [reflexivity|]. split; [cbn; lia|].
      intros t H1 H2. destruct (Qlt_le_dec (x + w) t) as [Hfar|Hnear].
      * destruct (Hcov t) as (x' & Hin & Hb); [lra | exact H2|].
        exists x'. split; [now right | exact Hb].
      * exists x. split; [now left | lra].
    + exists []. split; [destruct fuel; cbn; now rewrite Hlt|].
      split; [cbn; lia|]. intros t H1 H2. apply Qltb_ge in Hlt. lra.
Qed.

(** X27.  For a texture at least one pixel wide [_draw_layer] ends after at
    most 1003 tiles, whatever the camera offset, and the tiles leave no gap
    on the screen: every x from 0 to [SCREEN_WIDTH] lies on a tile.  For a
    width of 0 the modulo raises [ZeroDivisionError]. *)
Theorem draw_layer_covers_screen (fuel : nat) (width : Z)
    (offset_x y_offset : Q) :
  (width = 0%Z ->
   _draw_layer fuel width offset_x y_offset = Raise ZeroDivisionError) /\
  ((1 <= width)%Z -> (1003 <= fuel)%nat ->
   exists tiles,
     _draw_layer fuel width offset_x y_offset = Ok (Some tiles) /\
     (List.length tiles <= 1003)%nat /\
     forall t, 0 <= t -> t <= SCREEN_WIDTH ->
       exists x,
         In (Tile x y_offset (inject_Z width) (SCREEN_HEIGHT - y_offset))
            tiles /\
         x <= t /\ t <= x + inject_Z width).
Proof.
  unfold _draw_layer. split.
  - intros ->. reflexivity.
  - intros Hw Hfuel.
    assert (H1 : 1 <= inject_Z width)
      by (change 1 with (inject_Z 1); now rewrite <- Zle_Qle).
    destruct (py_mod_range offset_x (inject_Z width)) as (m & -> & M0 & M1);
      [lra|].
    cbn [bind].
    destruct (draw_tiles_covers (inject_Z width) y_offset 1003
                ltac:(lra) fuel (- m - inject_Z width) Hfuel)
      as (tiles & Hrun & Hlen & Hcov).
    { unfold SCREEN_WIDTH. change (inject_Z (Z.of_nat 1003)) with 1003. lra. }
    exists tiles. split; [now rewrite Hrun|]. split; [exact Hlen|].
    intros t H0 Ht. apply Hcov; [lra | unfold SCREEN_WIDTH in *; lra].
Qed.

End DrawFacts.

(** ** Worked instances on the sample data *)

(** At the first threshold the boss spawns and the next threshold moves
    from 2000 past 4500. *)
Lemma next_boss_threshold_increases_witness :
  exists s',
    on_update (1 # 60) quiet at_threshold = Ok s' /\
    let spawned :=
      negb (boss_active at_threshold)
      && Qle_bool (next_boss_at at_threshold) (distance s') in
    (spawned = true ->
       next_boss_at s' =
         next_boss_at at_threshold + 2000 * (1 + distance s' / 8000) /\
       (0 <= distance s' -> next_boss_at at_threshold < next_boss_at s')) /\
    (spawned = false -> next_boss_at s' = next_boss_at at_threshold).
Proof.
  apply (next_boss_threshold_increases (1 # 60) quiet at_threshold hero);
    reflexivity.
Defined.

(** A tick of one second moves the player of [started] by 180. *)
Lemma distance_clock_advances_witness :
  exists s' p',
    distance_clock 1 started = Ok s' /\ player s' = Some p' /\
    AnimatedSprite.center_x p' == 200 + 180 * 1.
Proof.
  destruct (proj1 (distance_clock_advances 1 quiet started hero eq_refl))
    as (s' & p' & H1 & H2 & H3 & _).
  exists s', p'. repeat split; assumption.
Defined.

(** C4 as stated fails: a tick with [dt = -1] is not a no-op, it moves the
    player of [started] from 200 back to 20, the distance from 0 to -108
    and the score from 0 to -9. *)
Lemma negative_dt_moves_back :
  exists s' p',
    on_update (-1) quiet started = Ok s' /\ player s' = Some p' /\
    AnimatedSprite.center_x hero == 200 /\ AnimatedSprite.center_x p' == 20 /\
    distance started == 0 /\ distance s' == -108 /\
    score started == 0 /\ score s' == -9.
Proof.
  eexists. eexists. split; [vm_compute; reflexivity|].
  split; [reflexivity|]. repeat split; reflexivity.
Qed.

(** C1 fails on the boss-contact path.  The player of [contact_state] has
    10 health of 100; the tick in which the boss touches it subtracts
    18 + int(distance / 1000) = 20 and calls [lose_game] without the clamp to
    0 that the projectile path has: the health the tick leaves is -10. *)
Lemma boss_contact_leaves_negative_health :
  player_health contact_state = 10%Z /\
  player_max_health contact_state = 100%Z /\
  exists s',
    on_update (1 # 60) quiet contact_state = Ok s' /\
    player_health s' = (-10)%Z /\ game_over s' = true.
Proof.
  split; [reflexivity|]. split; [reflexivity|].
  eexists. split; [vm_compute; reflexivity|]. split; reflexivity.
Qed.

(** Two ticks on the finished run [over_state]: only the emitters move. *)
Lemma game_over_freezes_witness :
  (forall dt rnd,
     on_update dt rnd over_state
     = Ok (set_explosions (map Emitter_update (explosions over_state))
             over_state)) /\
  exists s',
    run [(1, quiet); (1, quiet)] over_state = Ok s' /\
    s' = set_explosions
           (Nat.iter 2 (map Emitter_update) (explosions over_state))
           over_state /\
    damage_popups s' = damage_popups over_state /\ game_over s' = true.
Proof.
  apply (game_over_freezes [(1, quiet); (1, quiet)] over_state). reflexivity.
Defined.

(** C2 as stated fails for the damage popups.  The tick that kills the
    player of [contact_state] leaves one popup with 59/60 of a second to
    live; the next tick, two seconds long, would drop it at line 494, but
    [on_update] returns before that line and the popup stays as it is. *)
Lemma popups_frozen_after_defeat :
  exists s1 s2,
    on_update (1 # 60) quiet contact_state = Ok s1 /\ game_over s1 = true /\
    on_update 2 quiet s1 = Ok s2 /\
    List.length (damage_popups s1) = 1%nat /\
    decay_popups 2 (damage_popups s1) = [] /\
    damage_popups s2 = damage_popups s1.
Proof.
  eexists. eexists. split; [vm_compute; reflexivity|].
  split; [reflexivity|]. split; [vm_compute; reflexivity|].
  repeat split; reflexivity.
Qed.

(** On cooldown the key changes nothing; off cooldown it sets 3.0. *)
Lemma skill_cooldown_gate_witness :
  on_key_press KEY_X 10 cooling = Ok cooling /\
  exists s', on_key_press KEY_X 10 skill_state = Ok s' /\ skill_cd s' = 3.0.
Proof.
  split.
  - apply (proj1 (skill_cooldown_gate 10 cooling)). reflexivity.
  - apply (proj1 (proj2 (skill_cooldown_gate 10 skill_state)));
      [vm_compute; discriminate | reflexivity | discriminate].
Defined.

(** C6 as stated fails in a finished run: the skill of [over_state] is off
    cooldown, and the Skill key leaves the cooldown at 0 instead of 3.0. *)
Lemma skill_ignored_after_game_over :
  game_over over_state = true /\ skill_cd over_state == 0 /\
  exists s',
    on_key_press KEY_X 10 over_state = Ok s' /\ skill_cd s' == 0 /\
    s' = over_state.
Proof.
  split; [reflexivity|]. split; [reflexivity|].
  exists over_state. repeat split; reflexivity.
Qed.

(** The skill of [skill_state] removes the obstacle at 300 and keeps those
    at 420 and 700, and the coin. *)
Lemma skill_clears_nearby_obstacles_witness :
  exists s',
    on_key_press KEY_X 10 skill_state = Ok s' /\
    obstacles s' =
      filter (fun o => negb (in_skill_range hero o)) (obstacles skill_state) /\
    coins s' = coins skill_state /\ score s' = score skill_state.
Proof.
  destruct (skill_clears_nearby_obstacles 10 skill_state hero
              eq_refl eq_refl eq_refl)
    as (s' & H1 & H2 & _ & H3 & _ & _ & H4 & _).
  - vm_compute. discriminate.
  - exists s'. repeat split; assumption.
Defined.

(** C7 as stated fails in a finished run, and at the edge of the range.  In
    [over_state] no boss is live, the skill is off cooldown and an obstacle
    stands 100 from the player: the Skill key removes nothing.  In
    [skill_state] the obstacle at exactly 220 from the player is kept. *)
Lemma skill_keeps_obstacles :
  (game_over over_state = true /\ boss_live over_state = false /\
   skill_cd over_state <= 0 /\
   Forall (fun o => Qabs (Sprite.center_x o - 200) == 100)
          (obstacles over_state) /\
   exists s',
     on_key_press KEY_X 10 over_state = Ok s' /\
     obstacles s' = obstacles over_state /\
     List.length (obstacles s') = 1%nat) /\
  exists o s',
    In o (obstacles skill_state) /\
    Qabs (Sprite.center_x o - AnimatedSprite.center_x hero) == 220 /\
    on_key_press KEY_X 10 skill_state = Ok s' /\ In o (obstacles s').
Proof.
  split.
  - split; [reflexivity|]. split; [reflexivity|].
    split; [vm_compute; discriminate|].
    split; [repeat constructor|].
    exists over_state. repeat split; reflexivity.
  - exists (Sprite.mk 420 200 ("assets/obstacle.png"%string, 0%Z)).
    eexists. split; [right; left; reflexivity|].
    split; [reflexivity|]. split; [vm_compute; reflexivity|].
    left. reflexivity.
Qed.

(** The view of [started] satisfies the invariant, and so does what [setup]
    makes of it. *)
Lemma boss_active_iff_boss_witness :
  boss_inv started /\
  exists s',
    setup (fun _ => 600%Z) (fun _ => (500, 240)%Z) started = Ok s' /\
    boss_inv s'.
Proof.
  assert (H : boss_inv started).
  { unfold boss_inv. split; [discriminate | intros H; now contradiction H]. }
  split; [exact H|].
  apply (proj1 (proj2 (boss_active_iff_boss started H))).
Defined.

(** *** Instances of the further properties *)

Ltac sorted_board_tac :=
  repeat first [ apply SSorted_cons | apply SSorted_nil
               | apply Forall_cons | apply Forall_nil
               | (unfold Leaderboard.desc; simpl; lia) ].

Lemma save_score_on_sorted_board_witness :
  Leaderboard.save_score "dee" 50 (Some sorted_board)
  = firstn 10 (insert_back (Leaderboard.mk "dee" 50) sorted_board).
Proof.
  apply (save_score_on_sorted_board "dee" 50 sorted_board).
  unfold sorted_board. sorted_board_tac.
Defined.

Lemma save_score_keeps_all_below_ten_witness :
  Permutation (Leaderboard.save_score "dee" 50 (Some board))
              (Leaderboard.load_leaderboard (Some board)
               ++ [Leaderboard.mk "dee" 50]).
Proof.
  apply (save_score_keeps_all_below_ten "dee" 50 (Some board)).
  simpl. lia.
Defined.

Lemma save_score_tenth_place_witness :
  Leaderboard.save_score "dee" 10 (Some full_board) = firstn 10 full_board.
Proof.
  apply (proj1 (save_score_tenth_place "dee" 10 full_board
                  ltac:(unfold full_board; simpl; sorted_board_tac)
                  ltac:(simpl; lia))).
  unfold full_board. simpl. repeat (apply Forall_cons; [simpl; lia|]).
  apply Forall_nil.
Defined.

Lemma update_animation_keeps_frame_valid_witness :
  let a' := AnimatedSprite.update_animation 0.1 hero in
  (0 <= AnimatedSprite.current_frame a' < AnimatedSprite.frames)%Z /\
  AnimatedSprite.timer a' < AnimatedSprite.frame_time /\
  AnimatedSprite.center_x a' = AnimatedSprite.center_x hero /\
  AnimatedSprite.center_y a' = AnimatedSprite.center_y hero /\
  (AnimatedSprite.frame_time <= AnimatedSprite.timer hero + 0.1 ->
   AnimatedSprite.current_frame a'
   = ((AnimatedSprite.current_frame hero + 1) mod 6)%Z /\
   AnimatedSprite.timer a' = 0).
Proof.
  apply (update_animation_keeps_frame_valid 0.1 hero).
  unfold AnimatedSprite.frames. simpl. lia.
Defined.

Lemma cleanup_reaps_behind_witness :
  exists s', cleanup skill_state = Ok s' /\ cleanup s' = Ok s'.
Proof.
  destruct (cleanup_reaps_behind skill_state hero eq_refl)
    as (s' & H1 & H2 & _).
  exists s'. split; assumption.
Defined.

Lemma collect_coins_scores_witness :
  exists s', collect_coins skill_state = Ok s' /\
             obstacles s' = obstacles skill_state.
Proof.
  destruct (collect_coins_scores skill_state hero eq_refl)
    as (s' & H1 & _ & _ & _ & H2 & _).
  exists s'. split; assumption.
Defined.

Lemma hit_obstacles_floors_witness :
  exists s' p', hit_obstacles skill_state = Ok s' /\ player s' = Some p' /\
                AnimatedSprite.center_y p' = AnimatedSprite.center_y hero.
Proof.
  destruct (hit_obstacles_floors skill_state hero eq_refl)
    as (s' & p' & H1 & H2 & _ & H3 & _).
  exists s', p'. repeat split; assumption.
Defined.

Lemma spawn_timers_cadence_witness :
  exists s' new_obs new_coins,
    spawn_timers (1 # 2) quiet started = Ok s' /\
    obstacles s' = obstacles started ++ new_obs /\
    coins s' = coins started ++ new_coins.
Proof.
  destruct (spawn_timers_cadence (1 # 2) quiet started hero eq_refl)
    as (s' & no & nc & H1 & H2 & H3 & _).
  exists s', no, nc. repeat split; assumption.
Defined.

Lemma spawn_cadence_tightens_witness :
  exists s1 s2,
    spawn_timers 1 quiet started = Ok s1 /\
    spawn_timers 1 quiet (set_distance 16000 started) = Ok s2 /\
    (List.length (obstacles started) < List.length (obstacles s1) ->
     List.length (obstacles started) < List.length (obstacles s2))%nat /\
    (List.length (coins started) < List.length (coins s1) ->
     List.length (coins started) < List.length (coins s2))%nat.
Proof.
  apply (spawn_cadence_tightens 1 quiet started 16000 hero eq_refl).
  vm_compute. discriminate.
Defined.


Lemma skill_hits_boss_witness :
  exists s', on_key_press KEY_X 0 contact_state = Ok s' /\
             skill_cd s' = 3.0.
Proof.
  destruct (skill_hits_boss 0 contact_state _ eq_refl eq_refl eq_refl
              ltac:(vm_compute; discriminate))
    as (s' & H1 & H2 & _).
  exists s'. split; assumption.
Defined.

Lemma melee_hits_boss_witness :
  exists s', on_key_press KEY_Z 12 contact_state = Ok s' /\
             player_health s' = player_health contact_state.
Proof.
  destruct (proj2 (melee_hits_boss 12 contact_state hero eq_refl eq_refl)
              _ eq_refl eq_refl) as (_ & H).
  destruct (H ltac:(vm_compute; reflexivity)) as (s' & H1 & _ & H2 & _).
  exists s'. split; assumption.
Defined.

Lemma game_over_absorbs_witness :
  play sample_run over_state
  = Ok (set_explosions
          (Nat.iter (ticks_in sample_run) (map Emitter_update)
             (explosions over_state)) over_state).
Proof. apply (game_over_absorbs sample_run over_state). reflexivity. Defined.

Lemma play_keeps_settings_witness :
  exists s',
    play sample_run started = Ok s' /\
    player_max_health s' = player_max_health started /\
    speed s' = speed started /\ sprite_path s' = sprite_path started /\
    paused s' = paused started.
Proof. apply (play_keeps_settings sample_run started). discriminate. Defined.

Lemma jumps_add_up_witness :
  exists s' p',
    play sample_run started = Ok s' /\ player s' = Some p' /\
    AnimatedSprite.center_y hero <= AnimatedSprite.center_y p' /\
    AnimatedSprite.center_y p'
    <= AnimatedSprite.center_y hero
       + 90 * inject_Z (Z.of_nat (jumps_in sample_run)) /\
    (game_over s' = false ->
     AnimatedSprite.center_y p'
     == AnimatedSprite.center_y hero
        + 90 * inject_Z (Z.of_nat (jumps_in sample_run))).
Proof. apply (jumps_add_up sample_run started hero). reflexivity. Defined.

Lemma cooldown_runs_down_witness :
  exists s', on_update 1 quiet cooling = Ok s' /\ skill_cd s' == 1.
Proof.
  destruct (cooldown_runs_down 1 quiet cooling hero eq_refl eq_refl)
    as (s' & H1 & _ & H2).
  exists s'. split; [exact H1|].
  destruct (H2 ltac:(vm_compute; reflexivity)) as (_ & _ & H3).
  rewrite (H3 ltac:(vm_compute; discriminate)). reflexivity.
Defined.

Lemma sample_run_forward : Forall forward sample_run.
Proof.
  repeat (apply Forall_cons; [first [exact I | vm_compute; discriminate]|]).
  apply Forall_nil.
Defined.

Lemma sample_run_harmful : Forall harmful sample_run.
Proof.
  repeat (apply Forall_cons; [first [exact I | intros k; simpl; lia]|]).
  apply Forall_nil.
Defined.

Lemma score_stays_nonnegative_witness :
  exists s', play sample_run started = Ok s' /\ 0 <= score s'.
Proof.
  apply (score_stays_nonnegative sample_run started);
    [discriminate | exact sample_run_forward | |]; vm_compute; discriminate.
Defined.

Lemma health_stays_within_maximum_witness :
  exists s',
    play sample_run started = Ok s' /\
    (player_health s' <= Z.max (player_health started) 0)%Z /\
    (player_health started <= player_max_health started ->
     0 <= player_max_health started ->
     player_health s' <= player_max_health s')%Z.
Proof.
  apply (health_stays_within_maximum sample_run started);
    [discriminate | exact sample_run_forward | exact sample_run_harmful | |];
    vm_compute; discriminate.
Defined.

Lemma boss_left_standing_witness :
  exists s',
    play sample_run started = Ok s' /\ boss_inv s' /\ boss_standing s'.
Proof.
  apply (boss_left_standing sample_run started).
  - discriminate.
  - unfold boss_inv. split; [discriminate | intros H; now contradiction H].
  - intros b H. discriminate H.
Defined.


Lemma phase_advances_as_health_falls_witness :
  exists b1' l1' b2' l2',
    Boss.update_behavior 0.016 200 [] 0 (boss_at 20) = Ok (b1', l1') /\
    Boss.update_behavior 0.016 200 [] 0 half_boss = Ok (b2', l2') /\
    (1 <= Boss.phase b2' <= Boss.phase b1')%Z /\ (Boss.phase b1' <= 3)%Z.
Proof.
  apply (phase_advances_as_health_falls 0.016 0.016 200 200 [] [] 0 0
           (boss_at 20) half_boss).
  - reflexivity.
  - vm_compute. discriminate.
Defined.

Lemma draw_health_bar_fill_witness :
  exists fill,
    let left := Boss.center_x half_boss - 360 / 2 in
    let top := SCREEN_HEIGHT - 40 in
    draw_health_bar half_boss
    = Ok [Rect left (left + 360) top (top - 18) "DARK_GRAY";
          Rect left (left + 360 * fill) top (top - 18) "RED";
          Label 50 100 (left + 10) (top - 16)]
    /\ 0 <= fill /\ fill <= 1.
Proof.
  destruct (proj2 (draw_health_bar_fill half_boss)) as (fill & H & F0 & F1 & _).
  - reflexivity.
  - exists fill. cbv zeta. split; [exact H|]. split; [exact F0|].
    apply F1. vm_compute. discriminate.
Defined.

Lemma draw_player_health_fill_witness :
  exists fill,
    let top := SCREEN_HEIGHT - 28 in
    draw_player_health started
    = Ok [Rect (120 - 220 / 2) (120 + 220 / 2) top (top - 20) "DARK_GRAY";
          Rect (120 - 220 / 2) (120 - 220 / 2 + 220 * fill) top (top - 20)
               "GREEN";
          Label 100 100 (120 - 40) (top - 18)]
    /\ fill == 1.
Proof.
  destruct (proj2 (draw_player_health_fill started))
    as (fill & H & _ & _ & _ & F).
  - reflexivity.
  - exists fill. cbv zeta. split; [exact H|]. apply F. reflexivity.
Defined.

Lemma draw_layer_covers_screen_witness :
  exists tiles,
    _draw_layer 1003 512 37.5 0 = Ok (Some tiles) /\
    (List.length tiles <= 1003)%nat /\
    forall t, 0 <= t -> t <= SCREEN_WIDTH ->
      exists x,
        In (Tile x 0 (inject_Z 512) (SCREEN_HEIGHT - 0)) tiles /\
        x <= t /\ t <= x + inject_Z 512.
Proof.
  apply (proj2 (draw_layer_covers_screen 1003 512 37.5 0)); lia.
Defined.
